(* ===== verification/_CoqProject ===== *)
-Q . S2P
Prelude.v
Entity.v
Random.v
Hud.v
Render.v
State.v
Difficulty.v
Movement.v
Spawner.v
Lifecycle.v
Collision.v
Score.v
Tick.v
Controls.v
Chat.v
