(* ===== verification/Prelude.v ===== *)
(** * A verification development of WebGLGame

    The repository is a browser game: a car moves left and right on a
    bounded lane while obstacles and pedestrians ("humans") spawn ahead and
    scroll toward the viewer.  The simulation lives in one closure,
    [src/src/Game.js]; it hands a snapshot of itself to the WebGL renderer
    [src/src/Drawer.js] and to the HUD [src/src/UI.js] on every animation
    frame, and reports the end of a game to the React page
    ([src/src/components/Game.js], [GameControls.js], [GameRenderer.js]),
    which calls [init], [start] and [restart].  The App shell
    ([src/src/App.js]) renders that page next to a chat widget
    ([src/src/containers/ChatContainer.js] and
    [src/src/components/Chat*.js]), a WebSocket client that does not
    interact with the game.

    ** How the program is modelled

    The closure's variables ([score], [maxScore], [isGameOver],
    [tickIndex], [gameObjects], [toDestroy], [gameObjectId], [gameMode], the
    two key flags, [difficulty], [nextObstacleIn], [obstacleInterval],
    [nextHumanIn], [speed], [strafeSpeed]) form one record,
    [State.World], together with the part of the page the code touches,
    [State.Env]: the key listeners, the interval timers and frame requests
    (by id), [localStorage], the snapshots passed to the callback, the
    [canvas], the module state of [UI] ([Hud.UIState]) and of [Drawer]
    ([Render.Drawer.DrawerState]), and the cursor into the random source.
    Every function that changes that state is a Rocq function
    [World -> World] (or [World -> option World] where the JavaScript
    throws a [TypeError]), composed as the code composes them; [UI.draw]
    and the [Drawer] calls that throw an [Error] return an outcome that
    carries the state reached and the message.  Counters are [Z] or [nat];
    positions, speeds and the score are exact rationals [Q] (IEEE-754
    rounding is abstracted: the theorems hold of the exact arithmetic the
    code means; the float sum of the 0.1 score steps, for one, differs
    from it, so the HUD can show [0] where the model has [1]).
    [Math.random] is an oracle [Rng := nat -> Q] read in program order,
    and the array [shuffle] permutes is a JavaScript array
    ([Random.JsArray]): an assignment past its end grows it with holes.  [gameObjects], whose keys are decimal strings of
    positive integers, is a list sorted by id (the enumeration order of
    such keys); the collision pass compares keys as strings, as [k <= i]
    does.  [gameData] objects of [UI] and [Drawer] are stdpp [gmap]s and
    [Object.assign] a left-biased union.  A [maxScore] read back from
    [localStorage] is a string ([Entity.ScoreStr]) and stays one until the
    score beats it.  Nothing runs on fuel that can run out: [Tick.run n]
    fires the interval [n] times, and the one loop whose bound is not
    structural, the scene lines of [Drawer.drawScene], is given the closed
    form of its round count as fuel, shown enough by
    [Render.Drawer.scene_loop_total].

    ** Files (in dependency order)

    - [Prelude]: this header; notations [game_scope] for JavaScript
      comparisons on [Q]; tactics [qcase], [qsolve], [splits],
      [concrete]; the hint database [game]; lemmas on [Q] rounding, clamps,
      lists and folds.
    - [Entity]: the constants of Game.js (lines 5-55), object types, the
      [GameObject] record and its prototypes, [toRectPoints],
      [checkCollision], the snapshot record [GameData].
    - [Random]: [random], [randomInt], [randomBool], the array reads and
      writes of JavaScript, [shuffle] (a permutation under the contract of
      [Math.random]).
    - [Hud]: UI.js: [init], [updateGameData], [getGameVar], the three text
      painters, [addScore], [drawAnimating], [draw]; the 2D context as its
      state, save stack and painted texts.
    - [Render] ([Module Drawer]): Drawer.js: [getShader] over the page's
      script elements ([GLEnv] says what [getElementById] finds and
      whether the driver compiles a source), [initShaders], [init] with
      its [TypeError]s, [updateGameData], [getGameVar], [clear],
      [drawScene], [drawCuboid], [drawObject]; the screen as the list of
      [drawArrays] calls.
    - [State]: the [World] and [Env] records, the object store
      ([createGameObject], [destroyGameObject], [getCar], [getGameData]).
    - [Difficulty], [Movement], [Spawner], [Collision], [Score]: the phases
      of [tick] ([updateDifficulty]; [updateCar], [updateGameObjects], the
      human walk; [updateObstacles], [updateHumans]; [handleCollisions] with
      every [onCollide]; [updateScore], [clearGameObjects]).
    - [Lifecycle]: [loadMaxScore], [saveMaxScore], the key handlers,
      [addEventListeners], [removeEventListeners], [init] (and
      [init_checked], [init] when [Drawer.init] throws), [setCallback],
      [start], [stop], [restart], [drawUI].
    - [Tick]: [tick], [run], [draw], the step relation [session_step] of
      the module's API with timers and frames, its invariant and the
      spec's scenario D.
    - [Controls] ([Module Page]): the React page, its handlers, its step
      relation [page_step] and the abstract session machine.
    - [Chat] ([Module Chat]): [ChatContainer] with every WebSocket it
      created, the socket events and the user's inputs as a step function
      [chat_step] (handler, then React's re-render, which remounts a form
      with an empty value when the view changes) and its reachable
      states; [String.prototype.trim] on 8-bit strings.

    ** What the theorems show

    - Store and phases: insertion keeps ids sorted and unique; the car is
      kept in its lane, humans bounce inside theirs; obstacle batches fill
      fewer than the six slots; a spawned human never overlaps an obstacle;
      the collision pass visits every unordered pair once (string order of
      keys included) and removes nothing; in any world where the car
      overlaps one object only, the pass is the car's response to it, which
      gives the spec's scenarios A, B and C; the reap deletes exactly the
      marked and passed objects; the score never goes negative; the
      difficulty follows [min (tick / 750) 9].
    - Sessions ([Tick]): in every state reachable through any interleaving
      of calls, keys, timer firings and frames, a firing timer finds a
      running session and [tick] does not throw; spec scenario D; frames
      keep the renderer's scroll offset in range.
    - Renderer and HUD: one frame of each, exactly what it draws; the
      scene loop terminates; score animations end after 100 frames; the
      zero-padded text [drawScore] paints reads back as the score;
      [UI.draw] throws before any snapshot; [getShader] fails exactly on
      its three error paths; a renderer failure aborts [Game.init] before
      the HUD and the stored maximum are set up.
    - Page ([Controls]): the React controls refine the spec's
      [Idle -> Running -> GameOver] machine and never leave two interval
      timers, which the module alone allows ([Lifecycle.start_twice_leaks]).
    - Chat: the stored username is trimmed; [connected] implies a live
      socket; a stale socket's close leaves the page disconnected over an
      open socket with a Reconnect that does nothing; a message submitted
      while the socket is not open is dropped and its input cleared.

    ** Findings

    [drawScore] saves the 2D context without restoring it (the save stack
    grows by one per frame); [start] does not refuse a running session and
    leaks its interval; a restart reports the aborted game as over; the
    obstacle interval is floored at 230 ticks unlike the spec says; human
    x obstacle contacts reverse the human; the stair sign is drawn per
    obstacle; a renderer failure is fatal to the HUD and to the stored
    maximum, not to the renderer only; in the chat, a stale [onclose]
    strands the page, [send] drops messages silently, and a Reconnect while
    connecting opens a second socket that duplicates every message.
    PROJECT.json lists them with the theorems that show them.

    ** Not modelled

    The WebGL and canvas calls whose results the program never reads back
    (program linking, whose failure is only logged, buffer objects, the
    field of view [Math.PI / 2] of the perspective, colours and fonts of
    the canvas beyond the state the HUD sets), the DOM focus moved by
    [GameRenderer.handleClick] and [canvas.focus()], React's markup and
    CSS, the App shell ([src/src/App.js]: it composes [Game] and
    [ChatContainer], has no state, and never unmounts the chat, so
    [componentWillUnmount] is not modelled either), [JSON.parse] and
    [JSON.stringify] of the chat's frames (the model's records are the
    objects they encode), and the whitespace of [trim] beyond the 8-bit
    characters of Rocq's strings.  Timers are modelled by their ids and
    the order of their firings, not by wall-clock time.

    Three simplifications of the closure's life are kept.  The variables
    JavaScript leaves [undefined] until the first [start] have [start]'s
    values in [Lifecycle.init_world]: a [stop] or [restart] called through
    the module's API before any [start] completes in the model, while in
    JavaScript its [drawUI] throws (the HUD's [difficulty] is [undefined])
    and the callback is skipped; the page never does this.  The step
    relation [Tick.session_step] assumes [init] succeeds ([init_checked]
    models its failures separately).  [UI.init] is given a fresh 2D
    context: on the page it runs once, while a second [init] on the same
    canvas would find the context of the first. *)

From Stdlib Require Export QArith Qround Qminmax Qabs Lqa ZArith Lia String List Permutation.
Export ListNotations.

Declare Scope game_scope.
Delimit Scope game_scope with game.
Open Scope Q_scope.

(** [simpl] keeps rational arithmetic folded, so that [lra] and setoid
    rewriting with [==] see it. *)
Arguments Qeq : simpl never.
Arguments Qle : simpl never.
Arguments Qlt : simpl never.
Arguments Qplus : simpl never.
Arguments Qmult : simpl never.
Arguments Qminus : simpl never.
Arguments Qopp : simpl never.
Arguments Qinv : simpl never.
Arguments Qdiv : simpl never.
Arguments inject_Z : simpl never.

(** ** JavaScript comparisons on numbers, as booleans *)

Definition Qltb (x y : Q) : bool := negb (Qle_bool y x).
Definition Qleb (x y : Q) : bool := Qle_bool x y.

Notation "x <q y" := (Qltb x y) (at level 70, no associativity) : game_scope.
Notation "x <=q y" := (Qleb x y) (at level 70, no associativity) : game_scope.
Open Scope game_scope.

Lemma Qltb_spec (x y : Q) : Qltb x y = true <-> x < y.
Proof.
  unfold Qltb. rewrite Bool.negb_true_iff.
  split; intro H.
  - apply Qnot_le_lt. intro H'. apply Qle_bool_iff in H'. congruence.
  - destruct (Qle_bool y x) eqn:E; [|reflexivity].
    apply Qle_bool_iff in E. exfalso. apply (Qlt_not_le x y); assumption.
Qed.

Lemma Qltb_false (x y : Q) : Qltb x y = false <-> y <= x.
Proof.
  unfold Qltb. rewrite Bool.negb_false_iff. apply Qle_bool_iff.
Qed.

Lemma Qleb_spec (x y : Q) : Qleb x y = true <-> x <= y.
Proof. apply Qle_bool_iff. Qed.

Lemma Qleb_false (x y : Q) : Qleb x y = false <-> y < x.
Proof.
  split; intro H.
  - apply Qnot_le_lt. intro H'. apply Qle_bool_iff in H'. unfold Qleb in H. congruence.
  - destruct (Qleb x y) eqn:E; [|reflexivity].
    apply Qleb_spec in E. exfalso. apply (Qlt_not_le y x); assumption.
Qed.

(** [qcase b] splits on a JavaScript comparison and leaves its meaning as
    a hypothesis over [Q]. *)
Ltac qcase_on e :=
  let E := fresh "E" in
  destruct e eqn:E;
  [ first [ apply Qltb_spec in E | apply Qleb_spec in E | idtac ]
  | first [ apply Qltb_false in E | apply Qleb_false in E | idtac ] ].

Ltac qcase :=
  match goal with
  | |- context [ if Qltb ?x ?y then _ else _ ] => qcase_on (Qltb x y)
  | |- context [ if Qleb ?x ?y then _ else _ ] => qcase_on (Qleb x y)
  end.

(** [lra] does not read [x / 2] as [x * (1 # 2)]: [qnorm] turns every
    division by a numeral into a product by its inverse. *)
Ltac is_pos_lit p :=
  lazymatch p with
  | xH => idtac
  | xO ?q => is_pos_lit q
  | xI ?q => is_pos_lit q
  end.

Ltac is_Z_lit z :=
  lazymatch z with
  | Z0 => idtac
  | Zpos ?p => is_pos_lit p
  | Zneg ?p => is_pos_lit p
  end.

Ltac qnorm :=
  unfold Qdiv in *;
  repeat match goal with
  | |- context [ inject_Z ?z ] => is_Z_lit z; change (inject_Z z) with (Qmake z 1)
  | H : context [ inject_Z ?z ] |- _ => is_Z_lit z; change (inject_Z z) with (Qmake z 1) in H
  end;
  repeat match goal with
  | |- context [ Qinv ?c ] =>
      let v := eval vm_compute in (Qinv c) in
      match v with Qmake _ _ => change (Qinv c) with v end
  | H : context [ Qinv ?c ] |- _ =>
      let v := eval vm_compute in (Qinv c) in
      match v with Qmake _ _ => change (Qinv c) with v in H end
  end.

(** [qsolve] closes linear goals over [Q] after the casts of integers. *)
Ltac qsolve :=
  repeat match goal with
         | |- context [ inject_Z (?a + ?b) ] => rewrite inject_Z_plus
         | H : context [ inject_Z (?a + ?b) ] |- _ => rewrite inject_Z_plus in H
         end;
  qnorm; lra.

(** ** Clamping, as [Math.max(lo, Math.min(hi, x))] *)

Definition clamp (lo hi x : Q) : Q := Qmax lo (Qmin hi x).

Lemma clamp_bounds (lo hi x : Q) : lo <= hi -> lo <= clamp lo hi x /\ clamp lo hi x <= hi.
Proof.
  intro H. unfold clamp. split.
  - apply Q.le_max_l.
  - apply Q.max_lub; [assumption | apply Q.le_min_l].
Qed.

Lemma clamp_id (lo hi x : Q) : lo <= x -> x <= hi -> clamp lo hi x == x.
Proof.
  intros H1 H2. unfold clamp. rewrite (Q.min_r hi x H2). apply Q.max_r. assumption.
Qed.

#[export] Instance clamp_proper : Proper (Qeq ==> Qeq ==> Qeq ==> Qeq) clamp.
Proof.
  intros a a' Ha b b' Hb c c' Hc. unfold clamp. rewrite Ha, Hb, Hc. reflexivity.
Qed.

(** ** [Math.floor] and [Math.round] *)

(** [Math.round] rounds half-way values up: [floor (x + 1/2)]. *)
Definition Qround_js (x : Q) : Z := Qfloor (x + (1 # 2)).

Lemma Qfloor_bounds (x : Q) : inject_Z (Qfloor x) <= x /\ x < inject_Z (Qfloor x) + 1.
Proof.
  split; [apply Qfloor_le |].
  pose proof (Qlt_floor x) as H. rewrite inject_Z_plus in H. exact H.
Qed.

Lemma Qfloor_Z (z : Z) : Qfloor (inject_Z z) = z.
Proof.
  unfold Qfloor, inject_Z. simpl. apply Z.div_1_r.
Qed.

Lemma Qfloor_between (x : Q) (z : Z) :
  inject_Z z <= x -> x < inject_Z z + 1 -> Qfloor x = z.
Proof.
  intros H1 H2. pose proof (Qfloor_bounds x) as [F1 F2].
  assert (A : (Qfloor x < z + 1)%Z).
  { rewrite Zlt_Qlt, inject_Z_plus. change (inject_Z 1) with 1. lra. }
  assert (B : (z < Qfloor x + 1)%Z).
  { rewrite Zlt_Qlt, inject_Z_plus. change (inject_Z 1) with 1. lra. }
  lia.
Qed.

Lemma Qceiling_between (x : Q) (z : Z) :
  inject_Z z - 1 < x -> x <= inject_Z z -> Qceiling x = z.
Proof.
  intros H1 H2. pose proof (Qle_ceiling x). pose proof (Qceiling_resp_le _ _ H2) as H3.
  rewrite Qceiling_Z in H3.
  assert (z - 1 < Qceiling x)%Z.
  { rewrite Zlt_Qlt. unfold Z.sub. rewrite inject_Z_plus, inject_Z_opp.
    change (inject_Z 1) with 1. lra. }
  lia.
Qed.

(** A draw [r] in [[0, 1)] scales a non-negative width [a] into [[0, a)]. *)
Lemma Qscale_range (r a : Q) :
  0 <= r -> r < 1 -> 0 <= a -> 0 <= r * a /\ r * a <= a /\ (0 < a -> r * a < a).
Proof.
  intros H0 H1 Ha. split; [|split].
  - apply Qmult_le_0_compat; assumption.
  - assert (0 <= (1 - r) * a) by (apply Qmult_le_0_compat; lra). lra.
  - intro Hp. assert (0 < (1 - r) * a) by (apply Qmult_lt_0_compat; lra). lra.
Qed.

(** ** Lists *)

Lemma filter_NoDup {A} (f : A -> bool) (l : list A) : NoDup l -> NoDup (filter f l).
Proof.
  induction 1 as [|x l Hx Hl IH]; simpl; [constructor|].
  destruct (f x); [|exact IH].
  constructor; [|exact IH].
  intro Hin. apply filter_In in Hin. tauto.
Qed.

Lemma map_filter_NoDup {A B} (g : A -> B) (f : A -> bool) (l : list A) :
  NoDup (map g l) -> NoDup (map g (filter f l)).
Proof.
  induction l as [|x l IH]; simpl; intro H; [constructor|].
  inversion H as [|? ? Hx Hl]; subst.
  destruct (f x); simpl; [|exact (IH Hl)].
  constructor; [|exact (IH Hl)].
  intro Hin. apply Hx. apply in_map_iff in Hin as [y [<- Hy]].
  apply filter_In in Hy. apply in_map. tauto.
Qed.

Create HintDb game discriminated.
Create Rewrite HintDb game_rw.
#[export] Hint Resolve filter_NoDup map_filter_NoDup : game.
#[export] Hint Resolve clamp_bounds : game.

Lemma filter_filter_and {A} (f g : A -> bool) (l : list A) :
  filter f (filter g l) = filter (fun x => g x && f x) l.
Proof.
  induction l as [|x l IH]; simpl; [reflexivity|].
  destruct (g x); simpl; [destruct (f x); simpl; rewrite IH; reflexivity|exact IH].
Qed.

Lemma filter_map_comm {A B} (f : B -> bool) (g : A -> B) (l : list A) :
  filter f (map g l) = map g (filter (fun x => f (g x)) l).
Proof. induction l as [|x l IH]; simpl; [reflexivity|]. destruct (f (g x)); simpl; rewrite IH; reflexivity. Qed.

Lemma filter_app_distr {A} (f : A -> bool) (l l' : list A) :
  filter f (l ++ l') = filter f l ++ filter f l'.
Proof. induction l as [|x l IH]; simpl; [reflexivity|]. destruct (f x); simpl; rewrite IH; reflexivity. Qed.

(** A fold whose steps all leave the accumulator alone. *)
Lemma fold_left_noop {A B} (f : A -> B -> A) (l : list B) (a : A) :
  (forall x, In x l -> f a x = a) -> fold_left f l a = a.
Proof.
  induction l as [|x l IH]; intro H; simpl; [reflexivity|].
  rewrite H by (left; reflexivity). apply IH. intros y Hy. apply H. right. exact Hy.
Qed.

(** A fold in which one step [p], met once, is the only one that acts:
    every other step leaves alone any accumulator satisfying [R], which
    holds before and after [p]. *)
Lemma fold_left_single {A B} (f : A -> B -> A) (R : A -> Prop) (l : list B) (p : B) (a : A) :
  NoDup l -> In p l ->
  (forall x b, In x l -> x <> p -> R b -> f b x = b) ->
  R a -> R (f a p) -> fold_left f l a = f a p.
Proof.
  intros Hnd Hp Hstep Ra Rp. induction Hnd as [|x l Hx Hnd IH]; [destruct Hp|]. simpl.
  destruct Hp as [<-|Hp].
  - apply fold_left_noop. intros y Hy. apply Hstep; [right; exact Hy|congruence|exact Rp].
  - rewrite (Hstep x a) by (try (left; reflexivity); try exact Ra; congruence).
    apply IH; [exact Hp|]. intros y b Hy. apply Hstep. right. exact Hy.
Qed.

Lemma Permutation_filter_length {A} (f : A -> bool) (l l' : list A) :
  Permutation l l' -> length (filter f l) = length (filter f l').
Proof.
  induction 1 as [|x l l' _ IH|x y l|l l' l'' _ IH1 _ IH2]; simpl.
  - reflexivity.
  - destruct (f x); simpl; congruence.
  - destruct (f x), (f y); reflexivity.
  - congruence.
Qed.

(** [splits] breaks a goal at its visible conjunctions only, leaving
    defined predicates folded. *)
Ltac splits := repeat match goal with |- _ /\ _ => split end.

(** [concrete] discharges a conjunction of closed comparisons by evaluation. *)
Ltac concrete :=
  splits;
  vm_compute; try reflexivity; try (intro; discriminate); try lia.
