(* ===== verification/Entity.v ===== *)
(** Entity model of [src/src/Game.js]: the module constants, the three
    object types, the [GameObject] record with its prototype fields, the
    constructors [Obstacle], [Human] and [Car], [toRectPoints] and the
    strict axis-aligned overlap test [checkCollision]; the overlap test is
    characterised by the distance of the centres, is symmetric, and respects
    rational equality of positions. *)

From S2P Require Import Prelude.

(** ** Constants (Game.js, lines 5-55) *)

Definition TICKS_PER_SECOND : Z := 200.
Definition SCENE_LEFT_BORDER : Q := -3.
Definition SCENE_RIGHT_BORDER : Q := 3.
Definition SCENE_DEPTH : Q := 30.
Definition Z_DESTROY_THRESHOLD : Q := -2.

Definition CAR_WIDTH : Q := 0.5.
Definition CAR_HEIGHT : Q := 0.2.
Definition CAR_DEPTH : Q := 0.7.
Definition OBSTACLE_WIDTH : Q := 1.
Definition OBSTACLE_HEIGHT : Q := 1.
Definition OBSTACLE_DEPTH : Q := 1.
Definition HUMAN_WIDTH : Q := 0.2.
Definition HUMAN_HEIGHT : Q := 0.4.
Definition HUMAN_DEPTH : Q := 0.1.

Definition TURN_LEFT_KEY : Z := 37.
Definition TURN_RIGHT_KEY : Z := 39.

Definition DIFFICULTY_UPDATE_INTERVAL : Z := 750.
Definition MAX_DIFFICULTY : Z := 9.

Definition FIRST_OBSTACLE_TICK : Z := 1000.
Definition INITIAL_OBSTACLE_INTERVAL : Z := 500.
Definition OBSTACLE_INTERVAL_DECREMENT : Z := -30.
Definition SCALE_LOW_MIN_OBSTACLES_COUNT : Z := 1.
Definition SCALE_HIGH_MIN_OBSTACLES_COUNT : Z := 4.
Definition SCALE_LOW_MAX_OBSTACLES_COUNT : Z := 1.
Definition SCALE_HIGH_MAX_OBSTACLES_COUNT : Z := 5.

Definition FIRST_HUMAN_TICK : Z := 500.
Definition MIN_HUMAN_INTERVAL : Z := 5.
Definition MAX_HUMAN_INTERVAL : Z := 300.
Definition HUMAN_MIN_SPEED : Q := 0.005.
Definition HUMAN_MAX_SPEED : Q := 0.02.

Definition INITIAL_SPEED : Q := 0.04.
Definition SPEED_INCREMENT : Q := 0.007.
Definition INITIAL_STRAFE_SPEED : Q := 0.025.
Definition STRAFE_SPEED_INCREMENT : Q := 0.0015.

Definition MODE_SCORE_INCREMENT : Z := 50.
Definition MODE_SCORE_DECREMENT : Z := -200.

(** [OBJECT_TYPE_CAR = 0], [OBJECT_TYPE_OBSTACLE = 1], [OBJECT_TYPE_HUMAN = 2]. *)
Inductive ObjectType : Type :=
| OBJECT_TYPE_CAR
| OBJECT_TYPE_OBSTACLE
| OBJECT_TYPE_HUMAN.

Definition ObjectType_eq_dec (a b : ObjectType) : {a = b} + {a <> b}.
Proof. decide equality. Defined.

Definition type_eqb (a b : ObjectType) : bool :=
  if ObjectType_eq_dec a b then true else false.

(** [MODE_ROBOCAR = 0], [MODE_CARMAGEDDON = 1]. *)
Inductive GameMode : Type :=
| MODE_ROBOCAR
| MODE_CARMAGEDDON.

(** ** Game objects (lines 93-151)

    A [GameObject] carries the own fields of the JavaScript object: [id]
    (a decimal string in the code, here the number it spells; [0] stands
    for the [null] of a fresh object), [type], [x], [z], and the [speed]
    that only a [Human] has ([0] for the other types, which never read it).
    [width], [height], [depth] and [y] are the fields of the shared
    prototype of each type and are functions of the type. *)
Record GameObject : Type := mkGameObject {
  go_id : nat;
  go_type : ObjectType;
  go_x : Q;
  go_z : Q;
  go_speed : Q
}.

Definition type_width (t : ObjectType) : Q :=
  match t with
  | OBJECT_TYPE_CAR => CAR_WIDTH
  | OBJECT_TYPE_OBSTACLE => OBSTACLE_WIDTH
  | OBJECT_TYPE_HUMAN => HUMAN_WIDTH
  end.

Definition type_height (t : ObjectType) : Q :=
  match t with
  | OBJECT_TYPE_CAR => CAR_HEIGHT
  | OBJECT_TYPE_OBSTACLE => OBSTACLE_HEIGHT
  | OBJECT_TYPE_HUMAN => HUMAN_HEIGHT
  end.

Definition type_depth (t : ObjectType) : Q :=
  match t with
  | OBJECT_TYPE_CAR => CAR_DEPTH
  | OBJECT_TYPE_OBSTACLE => OBSTACLE_DEPTH
  | OBJECT_TYPE_HUMAN => HUMAN_DEPTH
  end.

Definition width (o : GameObject) : Q := type_width (go_type o).
Definition depth (o : GameObject) : Q := type_depth (go_type o).
(** [this.y = height / 2], set once on the prototype. *)
Definition go_y (o : GameObject) : Q := type_height (go_type o) / 2.

Definition with_x (o : GameObject) (x : Q) : GameObject :=
  mkGameObject (go_id o) (go_type o) x (go_z o) (go_speed o).
Definition with_z (o : GameObject) (z : Q) : GameObject :=
  mkGameObject (go_id o) (go_type o) (go_x o) z (go_speed o).
Definition with_speed (o : GameObject) (v : Q) : GameObject :=
  mkGameObject (go_id o) (go_type o) (go_x o) (go_z o) v.
Definition with_id (o : GameObject) (n : nat) : GameObject :=
  mkGameObject n (go_type o) (go_x o) (go_z o) (go_speed o).

(** [new Obstacle(x, z)], [new Human(x, z, speed)], [new Car()]. *)
Definition Obstacle (x z : Q) : GameObject := mkGameObject 0 OBJECT_TYPE_OBSTACLE x z 0.
Definition Human (x z speed : Q) : GameObject := mkGameObject 0 OBJECT_TYPE_HUMAN x z speed.
Definition Car : GameObject := mkGameObject 0 OBJECT_TYPE_CAR 0 0 0.

(** ** Snapshots *)

(** [maxScore] holds a number, or the string [localStorage.getItem]
    returned.  Every string the program stores is [String(n)] of an integer
    [n] (the initial stored value is assumed to be one too), so a string is
    represented by that integer: [ScoreStr n] is the string ["n"]. *)
Inductive JsScore : Type :=
| ScoreNum (n : Z)
| ScoreStr (n : Z).

(** [Number(maxScore)], the value JavaScript's [>] compares. *)
Definition score_value (v : JsScore) : Z :=
  match v with ScoreNum n | ScoreStr n => n end.

(** [getGameData()] minus the three scene constants it also carries. *)
Record GameData : Type := mkGameData {
  gd_speed : Q;
  gd_score : Z;
  gd_tick : Z;
  gd_maxScore : JsScore;
  gd_difficulty : Z;
  gd_gameOver : Z
}.

(** [toRectPoints]: the corners of the rectangle on the XZ plane. *)
Definition toRectPoints (o : GameObject) : (Q * Q) * (Q * Q) :=
  let w := width o / 2 in
  let d := depth o / 2 in
  ((go_x o - w, go_z o - d), (go_x o + w, go_z o + d)).

(** [checkCollision]:
    [o1x1 < o2x2 && o1x2 > o2x1 && o1y1 < o2y2 && o1y2 > o2y1]. *)
Definition checkCollision (obj1 obj2 : GameObject) : bool :=
  let '((o1x1, o1y1), (o1x2, o1y2)) := toRectPoints obj1 in
  let '((o2x1, o2y1), (o2x2, o2y2)) := toRectPoints obj2 in
  (o1x1 <q o2x2) && (o2x1 <q o1x2) && (o1y1 <q o2y2) && (o2y1 <q o1y2).

(** Two objects are equivalent when they have the same id and type and
    positions and speed equal as rationals. *)
Definition go_equiv (a b : GameObject) : Prop :=
  go_id a = go_id b /\ go_type a = go_type b /\
  go_x a == go_x b /\ go_z a == go_z b /\ go_speed a == go_speed b.

(** ** Lemmas *)

Lemma width_pos (o : GameObject) : 0 < width o.
Proof. unfold width; destruct (go_type o); simpl; reflexivity. Qed.

Lemma depth_pos (o : GameObject) : 0 < depth o.
Proof. unfold depth; destruct (go_type o); simpl; reflexivity. Qed.

#[export] Instance go_equiv_Equivalence : Equivalence go_equiv.
Proof.
  split.
  - intro a. repeat split; reflexivity.
  - intros a b (H1 & H2 & H3 & H4 & H5). repeat split; symmetry; assumption.
  - intros a b c (H1 & H2 & H3 & H4 & H5) (G1 & G2 & G3 & G4 & G5).
    repeat split; etransitivity; eassumption.
Qed.

#[export] Hint Resolve width_pos depth_pos : game.

Lemma Qabs_lt_iff (a r : Q) : Qabs a < r <-> - r < a /\ a < r.
Proof.
  apply Qabs_case; intros H; split; intros G; try split; try qsolve; destruct G; qsolve.
Qed.

(** The collision test compares the centres' distances with the half
    extents. *)
Lemma checkCollision_iff (a b : GameObject) :
  checkCollision a b = true <->
  Qabs (go_x a - go_x b) < (width a + width b) / 2 /\
  Qabs (go_z a - go_z b) < (depth a + depth b) / 2.
Proof.
  cbv beta iota zeta delta [checkCollision toRectPoints].
  rewrite !Bool.andb_true_iff, !Qltb_spec, !Qabs_lt_iff.
  split; intros H; repeat match goal with H : _ /\ _ |- _ => destruct H end;
    repeat split; qsolve.
Qed.

Lemma checkCollision_sym (a b : GameObject) : checkCollision a b = checkCollision b a.
Proof.
  apply Bool.eq_true_iff_eq. rewrite !checkCollision_iff.
  rewrite (Qabs_Qminus (go_x a)), (Qabs_Qminus (go_z a)).
  split; intros [H1 H2]; split; qsolve.
Qed.

#[export] Instance checkCollision_proper : Proper (go_equiv ==> go_equiv ==> eq) checkCollision.
Proof.
  intros a a' (Ha1 & Ha2 & Ha3 & Ha4 & Ha5) b b' (Hb1 & Hb2 & Hb3 & Hb4 & Hb5).
  apply Bool.eq_true_iff_eq. rewrite !checkCollision_iff.
  unfold width, depth. rewrite Ha2, Hb2, Ha3, Ha4, Hb3, Hb4. reflexivity.
Qed.

(** C19. [checkCollision] holds exactly when the centres of the two
    rectangles are closer than half the sum of their widths on the X axis
    and half the sum of their depths on the Z axis, strictly: this is open
    axis-aligned overlap, so rectangles that only touch do not collide; and
    the test does not depend on the order of its two arguments. *)
Theorem checkCollision_spec (a b : GameObject) :
  (checkCollision a b = true <->
   Qabs (go_x a - go_x b) < (width a + width b) / 2 /\
   Qabs (go_z a - go_z b) < (depth a + depth b) / 2) /\
  checkCollision a b = checkCollision b a.
Proof. split; [apply checkCollision_iff|apply checkCollision_sym]. Qed.
