(* ===== verification/Random.v ===== *)
(** The random helpers of [src/src/Game.js] (lines 190-211): [random],
    [randomInt], [randomBool] and the Fisher-Yates [shuffle].  [Math.random]
    is an oracle [rnd : Rng]; a cursor [c : nat] names the next draw, and
    every helper returns its result with the advanced cursor.  The theorems
    need only the contract of [Math.random], [0 <= rnd n < 1]: under it
    [randomInt] lands in its half-open range, [shuffle] reads and writes only
    inside the array, and its result is a permutation of its input.  Arrays
    are JavaScript's: an assignment past the end grows the array with
    holes ([js_set]), so an index out of range would show. *)

From S2P Require Import Prelude.
From stdpp Require Import list.
Open Scope Q_scope.
Open Scope game_scope.

Definition Rng := nat -> Q.

(** The contract of [Math.random]. *)
Definition rng_ok (rnd : Rng) : Prop := forall n, 0 <= rnd n /\ rnd n < 1.

(** A JavaScript array of numbers: [None] is a hole, read as [undefined]. *)
Abbreviation JsArray := (list (option Z)).

Section Random.
Variable rnd : Rng.

(** One call of [Math.random()]. *)
Definition mathRandom (c : nat) : Q * nat := (rnd c, S c).

(** [random(min, max)]: when [max] is [undefined] the range is
    [[0, min)]. *)
Definition random (min : Q) (max : option Q) (c : nat) : Q * nat :=
  let '(lo, hi) := match max with
                   | None => (0, min)
                   | Some m => (min, m)
                   end in
  let '(r, c') := mathRandom c in
  (r * (hi - lo) + lo, c').

(** [randomInt(min, max) = Math.floor(random(min, max))]. *)
Definition randomInt (min : Q) (max : option Q) (c : nat) : Z * nat :=
  let '(v, c') := random min max c in (Qfloor v, c').

(** [randomBool() = Math.random() < 0.5]. *)
Definition randomBool (c : nat) : bool * nat :=
  let '(r, c') := mathRandom c in (r <q (1 # 2), c').

(** [a[k]]: [undefined] past the end. *)
Definition js_get (a : JsArray) (k : nat) : option Z :=
  match a !! k with Some v => v | None => None end.

(** [a[k] = v]: an index past the end grows the array, the slots between
    the old end and [k] being holes. *)
Definition js_set (a : JsArray) (k : nat) (v : option Z) : JsArray :=
  if decide (k < length a)%nat then <[k := v]> a
  else a ++ replicate (k - length a) None ++ [v].

(** JavaScript truthiness of a number or [undefined]: [if (obstacles[i])]. *)
Definition truthy (v : option Z) : bool :=
  match v with Some z => negb (Z.eqb z 0) | None => false end.

(** [[array[i - 1], array[j]] = [array[j], array[i - 1]]] (line 209): the
    right-hand side is read first, then [array[i - 1]] and [array[j]] are
    assigned in that order. *)
Definition swap (a : JsArray) (p q : nat) : JsArray :=
  let vq := js_get a q in
  let vp := js_get a p in
  js_set (js_set a p vq) q vp.

(** [for (let i = array.length; i; i--) { let j = randomInt(i); swap }]. *)
Fixpoint shuffle_loop (i : nat) (a : JsArray) (c : nat) : JsArray * nat :=
  match i with
  | O => (a, c)
  | S i' =>
      let '(j, c') := randomInt (inject_Z (Z.of_nat i)) None c in
      shuffle_loop i' (swap a i' (Z.to_nat j)) c'
  end.

Definition shuffle (a : JsArray) (c : nat) : JsArray * nat :=
  shuffle_loop (length a) a c.

End Random.

Section RandomFacts.
Variable rnd : Rng.
Hypothesis Hrnd : rng_ok rnd.

Lemma random_cursor (lo : Q) (hi : option Q) (c : nat) : snd (random rnd lo hi c) = S c.
Proof. unfold random. destruct hi; reflexivity. Qed.

Lemma random_range (lo hi : Q) (c : nat) :
  lo <= hi -> lo <= fst (random rnd lo (Some hi) c) /\
              (lo < hi -> fst (random rnd lo (Some hi) c) < hi).
Proof.
  intros Hle. cbv beta iota zeta delta [random mathRandom fst snd].
  destruct (Hrnd c) as [H0 H1].
  assert (Ha : 0 <= hi - lo) by lra.
  destruct (Qscale_range (rnd c) (hi - lo) H0 H1 Ha) as (S1 & S2 & S3).
  split; [lra | intro Hlt; specialize (S3 ltac:(lra)); lra].
Qed.

(** [randomInt(m, M)] with integer bounds [m < M] lies in [[m, M - 1]]. *)
Lemma randomInt_range (m M : Z) (c : nat) :
  (m < M)%Z ->
  (m <= fst (randomInt rnd (inject_Z m) (Some (inject_Z M)) c) < M)%Z.
Proof.
  intros Hlt. unfold randomInt.
  pose proof (random_range (inject_Z m) (inject_Z M) c) as Hr.
  destruct (random rnd (inject_Z m) (Some (inject_Z M)) c) as [v c'] eqn:E; simpl in *.
  assert (Hq : inject_Z m < inject_Z M) by (rewrite <- Zlt_Qlt; exact Hlt).
  destruct (Hr (Qlt_le_weak _ _ Hq)) as [Hlo Hhi]. specialize (Hhi Hq).
  split.
  - rewrite <- (Qfloor_Z m). apply Qfloor_resp_le. exact Hlo.
  - pose proof (Qfloor_bounds v) as [F1 _].
    rewrite Zlt_Qlt. eapply Qle_lt_trans; eassumption.
Qed.

(** The index drawn by [shuffle] at step [i] is below [i]. *)
Lemma shuffle_index_bound (i : nat) (c : nat) :
  (0 < i)%nat ->
  (Z.to_nat (fst (randomInt rnd (inject_Z (Z.of_nat i)) None c)) < i)%nat.
Proof.
  intros Hi. cbv beta iota zeta delta [randomInt random mathRandom fst snd].
  destruct (Hrnd c) as [H0 H1].
  set (v := rnd c * (inject_Z (Z.of_nat i) - 0) + 0).
  assert (Hv : 0 <= v /\ v < inject_Z (Z.of_nat i)).
  { assert (0 < inject_Z (Z.of_nat i)).
    { change 0 with (inject_Z 0). rewrite <- Zlt_Qlt. lia. }
    destruct (Qscale_range (rnd c) (inject_Z (Z.of_nat i)) H0 H1 ltac:(lra)) as (S1 & S2 & S3).
    unfold v. split; [lra | specialize (S3 H); lra]. }
  pose proof (Qfloor_bounds v) as [F1 F2].
  assert (Hf : (0 <= Qfloor v < Z.of_nat i)%Z).
  { split.
    - rewrite <- (Qfloor_Z 0). apply Qfloor_resp_le. apply Hv.
    - rewrite Zlt_Qlt. eapply Qle_lt_trans; [exact F1 | apply Hv]. }
  lia.
Qed.

Lemma js_get_lookup (a : JsArray) (k : nat) (v : option Z) : a !! k = Some v -> js_get a k = v.
Proof. unfold js_get. intros ->. reflexivity. Qed.

Lemma js_set_in (a : JsArray) (k : nat) (v : option Z) : (k < length a)%nat -> js_set a k v = <[k := v]> a.
Proof. intro Hk. unfold js_set. destruct (decide (k < length a)%nat); [reflexivity|lia]. Qed.

(** Reading every index of an array gives the array back. *)
Lemma js_get_seq (a : JsArray) : map (js_get a) (seq 0 (length a)) = a.
Proof.
  induction a as [|x a IH]; [reflexivity|]. cbn [length seq map].
  rewrite <- seq_shift, map_map. f_equal. exact IH.
Qed.

(** Inside the array, [swap] exchanges two elements. *)
Lemma swap_in_range (a : JsArray) (p q : nat) :
  (p < length a)%nat -> (q < length a)%nat -> swap a p q ≡ₚ a /\ length (swap a p q) = length a.
Proof.
  intros Hp Hq. unfold swap.
  destruct (lookup_lt_is_Some_2 a p Hp) as [vp Ep].
  destruct (lookup_lt_is_Some_2 a q Hq) as [vq Eq].
  rewrite (js_get_lookup _ _ _ Ep), (js_get_lookup _ _ _ Eq), (js_set_in a p vq Hp).
  rewrite js_set_in by (rewrite length_insert; exact Hq).
  split; [apply Permutation_insert_swap; assumption|rewrite !length_insert; reflexivity].
Qed.

Lemma shuffle_loop_perm (i : nat) (a : JsArray) (c : nat) :
  (i <= length a)%nat -> fst (shuffle_loop rnd i a c) ≡ₚ a.
Proof.
  revert a c. induction i as [|i IH]; intros a c Hi; cbn [shuffle_loop]; [reflexivity|].
  pose proof (shuffle_index_bound (S i) c ltac:(lia)) as Hj.
  destruct (randomInt rnd (inject_Z (Z.of_nat (S i))) None c) as [j c']. cbn [fst] in Hj.
  destruct (swap_in_range a i (Z.to_nat j) ltac:(lia) ltac:(lia)) as [P L].
  rewrite IH by lia. exact P.
Qed.

Lemma shuffle_cursor (i : nat) (a : JsArray) (c : nat) :
  snd (shuffle_loop rnd i a c) = (c + i)%nat.
Proof.
  revert a c. induction i as [|i IH]; intros a c; simpl; [lia|].
  unfold randomInt, random, mathRandom; simpl. rewrite IH. lia.
Qed.

(** C20. Under the contract of [Math.random], [shuffle] rearranges the
    array: every index it draws lies inside the array, so the JavaScript
    assignments never grow it, and its result is a permutation of its
    input (the obstacle indicator array keeps exactly [count] ones); it
    consumes one random draw per element. *)
Theorem shuffle_perm (a : JsArray) (c : nat) :
  fst (shuffle rnd a c) ≡ₚ a /\ snd (shuffle rnd a c) = (c + length a)%nat.
Proof. unfold shuffle. split; [apply shuffle_loop_perm; lia|apply shuffle_cursor]. Qed.

End RandomFacts.


(** An oracle that alternates [0] and [1/2], used by the concrete runs. *)
Definition rng_half : Rng := fun n => if Nat.even n then 0 else 1 # 2.

Lemma rng_half_ok : rng_ok rng_half.
Proof. intro n. unfold rng_half. destruct (Nat.even n); concrete. Qed.

Definition two_of_six : JsArray := [Some 1%Z; Some 1%Z; Some 0%Z; Some 0%Z; Some 0%Z; Some 0%Z].

Lemma shuffle_perm_witness :
  fst (shuffle rng_half two_of_six 0) ≡ₚ two_of_six /\
  snd (shuffle rng_half two_of_six 0) = 6%nat.
Proof. apply (shuffle_perm rng_half rng_half_ok). Defined.
