(* ===== verification/Hud.v ===== *)
(** The HUD of [src/src/UI.js]: its module state ([ctx], [gameData],
    [animating], [canvasWidth], [canvasHeight]) and its operations [init],
    [updateGameData], [getGameVar], [drawDifficulty], [drawScore],
    [drawMaxScore], [addScore], [drawAnimating] and [draw].  The 2D context
    is modelled by the state the code sets ([fillStyle], [font],
    [textAlign], [textBaseline], [globalAlpha]), its [save]/[restore]
    stack and the texts painted since the last [clearRect].  [gameData] is a
    JavaScript object: a finite map from property names to values, and
    [Object.assign] is a left-biased union.  [getGameVar] throws; [draw]
    returns the state reached and, when it throws, the message.  The
    theorems: [getGameVar] returns what the last [updateGameData] stored
    and throws exactly on a missing name; [draw] throws on a fresh HUD and
    succeeds once the snapshot is stored; each [draw] leaves one more saved
    state on the context's stack (the [save] of [drawScore] has no
    [restore]); an animation is painted in exactly the next 100 frames;
    the zero-padded text [drawScore] paints reads back as the score. *)

From S2P Require Import Prelude Entity.
From Stdlib Require Import DecimalString DecimalZ.
From stdpp Require Import base gmap strings.
Open Scope Q_scope.
Open Scope game_scope.

(** ** Constants (lines 2-11) *)

Definition ANIMATION_DURATION : Z := 100.
Definition ANIMATION_START_Y : Q := 120.
Definition DEFAULT_COLOR : string := "#fff".
Definition DEFAULT_FONT : string := "400 20px Roboto".
Definition PADDING : Q := 20.
Definition SCORE_INC_COLOR : string := "#c3e88d".
Definition SCORE_DEC_COLOR : string := "#e06c75".
Definition SCORE_LEADING_ZEROES : nat := 5.

(** ** JavaScript values and strings *)

(** A property value of [gameData]: a number or a string. *)
Inductive JsVal : Type :=
| JNum (q : Q)
| JStr (s : string).

(** [String(n)] of an integer. *)
Definition js_int_string (n : Z) : string := NilZero.string_of_int (Z.to_int n).

(** [v.toString()] of the values the HUD draws, which are integers or
    strings. *)
Definition js_string (v : JsVal) : string :=
  match v with
  | JNum q => js_int_string (Qfloor q)
  | JStr s => s
  end.

(** [v + 1]: addition on a number, concatenation on a string. *)
Definition js_add1 (v : JsVal) : JsVal :=
  match v with
  | JNum q => JNum (q + 1)
  | JStr s => JStr (s ++ "1")%string
  end.

Fixpoint repeat_str (k : nat) (p : string) : string :=
  match k with
  | O => ""
  | S k => (p ++ repeat_str k p)%string
  end.

(** [s.padStart(target, pad)]. *)
Definition padStart (target : nat) (pad : string) (s : string) : string :=
  let l := String.length s in
  if (target <=? l)%nat then s
  else if String.eqb pad "" then s
  else (substring 0 (target - l) (repeat_str (target - l) pad) ++ s)%string.

(** The value a [maxScore] of the closure has in the snapshot. *)
Definition js_of_score (v : JsScore) : JsVal :=
  match v with
  | ScoreNum n => JNum (inject_Z n)
  | ScoreStr n => JStr (js_int_string n)
  end.

(** The object [getGameData()] returns, with its nine properties. *)
Definition gameData_obj (d : GameData) : gmap string JsVal :=
  list_to_map [("SCENE_LEFT_BORDER", JNum SCENE_LEFT_BORDER);
               ("SCENE_RIGHT_BORDER", JNum SCENE_RIGHT_BORDER);
               ("SCENE_DEPTH", JNum SCENE_DEPTH);
               ("speed", JNum (gd_speed d));
               ("score", JNum (inject_Z (gd_score d)));
               ("tick", JNum (inject_Z (gd_tick d)));
               ("maxScore", js_of_score (gd_maxScore d));
               ("difficulty", JNum (inject_Z (gd_difficulty d)));
               ("gameOver", JNum (inject_Z (gd_gameOver d)))].

(** ** The 2D context *)

Record CtxState : Type := mkCtxState {
  fillStyle : string;
  font : string;
  textAlign : string;
  textBaseline : string;
  globalAlpha : Q
}.

(** One [fillText] call: the text, the position and the state it used. *)
Record Paint : Type := mkPaint {
  p_text : string;
  p_x : Q;
  p_y : Q;
  p_style : CtxState
}.

Record Ctx : Type := mkCtx {
  ctx_state : CtxState;
  ctx_stack : list CtxState;
  ctx_width : Q;
  ctx_height : Q;
  ctx_painted : list Paint
}.

Definition with_state (f : CtxState -> CtxState) (c : Ctx) : Ctx :=
  mkCtx (f (ctx_state c)) (ctx_stack c) (ctx_width c) (ctx_height c) (ctx_painted c).

Definition set_fillStyle (v : string) : Ctx -> Ctx :=
  with_state (fun s => mkCtxState v (font s) (textAlign s) (textBaseline s) (globalAlpha s)).
Definition set_font (v : string) : Ctx -> Ctx :=
  with_state (fun s => mkCtxState (fillStyle s) v (textAlign s) (textBaseline s) (globalAlpha s)).
Definition set_textAlign (v : string) : Ctx -> Ctx :=
  with_state (fun s => mkCtxState (fillStyle s) (font s) v (textBaseline s) (globalAlpha s)).
Definition set_textBaseline (v : string) : Ctx -> Ctx :=
  with_state (fun s => mkCtxState (fillStyle s) (font s) (textAlign s) v (globalAlpha s)).
Definition set_globalAlpha (v : Q) : Ctx -> Ctx :=
  with_state (fun s => mkCtxState (fillStyle s) (font s) (textAlign s) (textBaseline s) v).

(** [ctx.save()] and [ctx.restore()]; a [restore] with an empty stack does
    nothing. *)
Definition ctx_save (c : Ctx) : Ctx :=
  mkCtx (ctx_state c) (ctx_state c :: ctx_stack c) (ctx_width c) (ctx_height c) (ctx_painted c).
Definition ctx_restore (c : Ctx) : Ctx :=
  match ctx_stack c with
  | s :: st => mkCtx s st (ctx_width c) (ctx_height c) (ctx_painted c)
  | [] => c
  end.

(** [ctx.clearRect(0, 0, canvasWidth, canvasHeight)]: the whole canvas. *)
Definition ctx_clear (c : Ctx) : Ctx :=
  mkCtx (ctx_state c) (ctx_stack c) (ctx_width c) (ctx_height c) [].

Definition fillText (t : string) (x y : Q) (c : Ctx) : Ctx :=
  mkCtx (ctx_state c) (ctx_stack c) (ctx_width c) (ctx_height c)
        (ctx_painted c ++ [mkPaint t x y (ctx_state c)]).

(** ** The module state *)

Record Anim : Type := mkAnim {
  a_text : string;
  a_color : string;
  a_ticks : Z;
  a_x : Q;
  a_y : Q
}.

Record UIState : Type := mkUI {
  ui_ctx : Ctx;
  ui_gameData : gmap string JsVal;
  ui_animating : list Anim;
  ui_canvasWidth : Q;
  ui_canvasHeight : Q
}.

Definition set_ui_ctx (c : Ctx) (u : UIState) : UIState :=
  mkUI c (ui_gameData u) (ui_animating u) (ui_canvasWidth u) (ui_canvasHeight u).

(** A canvas' 2D context as [getContext('2d')] first returns it: the
    default state, nothing saved, nothing painted. *)
Definition fresh_ctx (width height : Q) : Ctx :=
  mkCtx (mkCtxState "#000000" "10px sans-serif" "start" "alphabetic" 1) [] width height [].

(** The module's state before [init] (lines 13-16).  [ctx] and the
    canvas size are [undefined] there; the context of an empty canvas
    stands for them, and nothing reads them before [init]. *)
Definition ui_initial : UIState := mkUI (fresh_ctx 0 0) ∅ [] 0 0.

(** [init(canvas)], [c] being [canvas.getContext('2d')]. *)
Definition ui_init (c : Ctx) (u : UIState) : UIState :=
  let c := set_fillStyle DEFAULT_COLOR (set_font DEFAULT_FONT c) in
  mkUI c (ui_gameData u) (ui_animating u) (ctx_width c) (ctx_height c).

(** [updateGameData(data)]: [Object.assign(gameData, data)]. *)
Definition ui_updateGameData (data : gmap string JsVal) (u : UIState) : UIState :=
  mkUI (ui_ctx u) (data ∪ ui_gameData u) (ui_animating u) (ui_canvasWidth u) (ui_canvasHeight u).

Definition GAME_VAR_ERROR : string := "Variable name does not exist in the game variables".

(** [getGameVar(name)]: the value, or the thrown [Error]. *)
Definition ui_getGameVar (name : string) (u : UIState) : JsVal + string :=
  match ui_gameData u !! name with
  | Some v => inl v
  | None => inr GAME_VAR_ERROR
  end.

Definition drawDifficulty (difficulty : JsVal) (c : Ctx) : Ctx :=
  let text := ("Speed: " ++ js_string (js_add1 difficulty))%string in
  ctx_restore (fillText text PADDING PADDING
                 (set_textAlign "left" (set_textBaseline "top" (ctx_save c)))).

(** [drawScore]: its [save] has no matching [restore]. *)
Definition drawScore (canvasWidth : Q) (score : JsVal) (c : Ctx) : Ctx :=
  let text := padStart SCORE_LEADING_ZEROES "0" (js_string score) in
  fillText text (canvasWidth / 2) PADDING
           (set_textAlign "center" (set_textBaseline "top" (ctx_save c))).

Definition drawMaxScore (canvasWidth : Q) (score : JsVal) (c : Ctx) : Ctx :=
  let text := ("Max: " ++ padStart SCORE_LEADING_ZEROES "0" (js_string score))%string in
  ctx_restore (fillText text (canvasWidth - PADDING) PADDING
                 (set_textAlign "right" (set_textBaseline "top" (ctx_save c)))).

(** The animation [addScore(score)] pushes. *)
Definition score_anim (score : Z) (canvasWidth : Q) : Anim :=
  let color := if (0 <? score)%Z then SCORE_INC_COLOR else SCORE_DEC_COLOR in
  let text := if (0 <? score)%Z then ("+" ++ js_int_string score)%string else js_int_string score in
  mkAnim text color ANIMATION_DURATION (canvasWidth / 2) ANIMATION_START_Y.

(** [addScore(score)]. *)
Definition addScore (score : Z) (u : UIState) : UIState :=
  mkUI (ui_ctx u) (ui_gameData u) (ui_animating u ++ [score_anim score (ui_canvasWidth u)])
       (ui_canvasWidth u) (ui_canvasHeight u).

(** [a.ticks--; a.y--]. *)
Definition stepAnim (a : Anim) : Anim :=
  mkAnim (a_text a) (a_color a) (a_ticks a - 1) (a_x a) (a_y a - 1).

(** The body of the loop of [drawAnimating] on one animation. *)
Definition animate (acc : list Anim * Ctx) (a : Anim) : list Anim * Ctx :=
  let '(keep, c) := acc in
  let a := stepAnim a in
  let keep := if (0 <? a_ticks a)%Z then keep ++ [a] else keep in
  let c := set_globalAlpha (inject_Z (a_ticks a) / inject_Z ANIMATION_DURATION) c in
  let c := set_fillStyle (a_color a) c in
  (keep, fillText (a_text a) (a_x a) (a_y a) c).

Definition drawAnimating (u : UIState) : UIState :=
  let '(keep, c) := fold_left animate (ui_animating u) ([], ctx_save (ui_ctx u)) in
  mkUI (ctx_restore c) (ui_gameData u) keep (ui_canvasWidth u) (ui_canvasHeight u).

(** How [draw()] ends: normally, or by the [Error] of [getGameVar], with
    the state reached when it was thrown. *)
Inductive Outcome : Type :=
| Done (u : UIState)
| Thrown (u : UIState) (msg : string).

(** [draw()]. *)
Definition ui_draw (u : UIState) : Outcome :=
  let u := set_ui_ctx (ctx_clear (ui_ctx u)) u in
  match ui_getGameVar "difficulty" u with
  | inr m => Thrown u m
  | inl d =>
      let u := set_ui_ctx (drawDifficulty d (ui_ctx u)) u in
      match ui_getGameVar "score" u with
      | inr m => Thrown u m
      | inl s =>
          let u := set_ui_ctx (drawScore (ui_canvasWidth u) s (ui_ctx u)) u in
          match ui_getGameVar "maxScore" u with
          | inr m => Thrown u m
          | inl ms =>
              let u := set_ui_ctx (drawMaxScore (ui_canvasWidth u) ms (ui_ctx u)) u in
              Done (drawAnimating u)
          end
      end
  end.

(** [UI.updateGameData(getGameData()); UI.draw()], the HUD half of
    [drawUI] in [src/src/Game.js]; [draw] cannot throw there. *)
Definition ui_frame (d : GameData) (u : UIState) : UIState :=
  match ui_draw (ui_updateGameData (gameData_obj d) u) with
  | Done u' => u'
  | Thrown u' _ => u'
  end.

(** ** Lemmas *)

(** The paint of one animation in [drawAnimating], drawn with the state [s]
    of the context at the loop's start. *)
Definition anim_paint (s : CtxState) (a : Anim) : Paint :=
  let a := stepAnim a in
  mkPaint (a_text a) (a_x a) (a_y a)
    (mkCtxState (a_color a) (font s) (textAlign s) (textBaseline s)
                (inject_Z (a_ticks a) / inject_Z ANIMATION_DURATION)).

(** The animations left after one frame. *)
Definition anims_step (l : list Anim) : list Anim :=
  List.filter (fun a => (0 <? a_ticks a)%Z) (map stepAnim l).

Lemma fold_animate (l : list Anim) (keep : list Anim) (c : Ctx) :
  let r := fold_left animate l (keep, c) in
  fst r = keep ++ anims_step l /\ ctx_stack (snd r) = ctx_stack c /\
  font (ctx_state (snd r)) = font (ctx_state c) /\
  textAlign (ctx_state (snd r)) = textAlign (ctx_state c) /\
  textBaseline (ctx_state (snd r)) = textBaseline (ctx_state c) /\
  ctx_painted (snd r) = ctx_painted c ++ map (anim_paint (ctx_state c)) l.
Proof.
  revert keep c. induction l as [|a l IH]; intros keep c; cbn [fold_left].
  - rewrite !app_nil_r. splits; reflexivity.
  - set (k' := if (0 <? a_ticks (stepAnim a))%Z then keep ++ [stepAnim a] else keep).
    set (c' := fillText (a_text (stepAnim a)) (a_x (stepAnim a)) (a_y (stepAnim a))
                 (set_fillStyle (a_color (stepAnim a))
                   (set_globalAlpha (inject_Z (a_ticks (stepAnim a)) / inject_Z ANIMATION_DURATION) c))).
    replace (animate (keep, c) a) with (k', c') by reflexivity.
    destruct (IH k' c') as (H1 & H2 & H3 & H4 & H5 & H6).
    rewrite H1, H2, H3, H4, H5, H6. unfold k', anims_step. cbn [map List.filter].
    assert (Hm : map (anim_paint (ctx_state c')) l = map (anim_paint (ctx_state c)) l)
      by (apply map_ext; intro; reflexivity).
    rewrite Hm. unfold c'. cbn [fillText ctx_painted].
    destruct (0 <? a_ticks (stepAnim a))%Z; rewrite <- ?app_assoc; splits; reflexivity.
Qed.

Lemma drawAnimating_spec (u : UIState) :
  let u' := drawAnimating u in
  ui_animating u' = anims_step (ui_animating u) /\
  ctx_stack (ui_ctx u') = ctx_stack (ui_ctx u) /\ ctx_state (ui_ctx u') = ctx_state (ui_ctx u) /\
  ctx_painted (ui_ctx u') = ctx_painted (ui_ctx u) ++ map (anim_paint (ctx_state (ui_ctx u))) (ui_animating u) /\
  ui_gameData u' = ui_gameData u /\ ui_canvasWidth u' = ui_canvasWidth u.
Proof.
  unfold drawAnimating. destruct (fold_animate (ui_animating u) [] (ctx_save (ui_ctx u))) as (H1 & H2 & _ & _ & _ & H6).
  destruct (fold_left animate (ui_animating u) ([], ctx_save (ui_ctx u))) as [keep c].
  cbn in *. unfold ctx_restore. rewrite H2. cbn. splits; assumption || reflexivity.
Qed.

Lemma iter_drawAnimating (k : nat) (u : UIState) :
  ui_animating (Nat.iter k drawAnimating u) = Nat.iter k anims_step (ui_animating u).
Proof.
  induction k as [|k IH]; [reflexivity|].
  change (Nat.iter (S k) drawAnimating u) with (drawAnimating (Nat.iter k drawAnimating u)).
  rewrite (proj1 (drawAnimating_spec _)), IH. reflexivity.
Qed.

Lemma iter_stepAnim_ticks (k : nat) (a : Anim) :
  a_ticks (Nat.iter k stepAnim a) = (a_ticks a - Z.of_nat k)%Z.
Proof.
  induction k as [|k IH]; [cbn; lia|].
  change (Nat.iter (S k) stepAnim a) with (stepAnim (Nat.iter k stepAnim a)).
  cbn [a_ticks stepAnim]. rewrite IH. lia.
Qed.

(** After [S k] frames exactly the animations with more than [S k] ticks
    are left, each stepped [S k] times. *)
Lemma anims_after (k : nat) (l : list Anim) :
  Nat.iter (S k) anims_step l =
  map (Nat.iter (S k) stepAnim) (List.filter (fun a => (Z.of_nat (S k) <? a_ticks a)%Z) l).
Proof.
  induction k as [|k IH].
  - change (Nat.iter 1 anims_step l) with (anims_step l). unfold anims_step. rewrite filter_map_comm. f_equal.
    apply filter_ext. intro a. change (a_ticks (stepAnim a)) with (a_ticks a - 1)%Z.
    destruct (Z.ltb_spec 0 (a_ticks a - 1)), (Z.ltb_spec (Z.of_nat 1) (a_ticks a)); cbn in *; lia.
  - change (Nat.iter (S (S k)) anims_step l) with (anims_step (Nat.iter (S k) anims_step l)).
    rewrite IH. unfold anims_step. rewrite List.map_map, filter_map_comm, filter_filter_and.
    f_equal. apply filter_ext. intro a.
    change (a_ticks (stepAnim (Nat.iter (S k) stepAnim a))) with (a_ticks (Nat.iter (S k) stepAnim a) - 1)%Z.
    rewrite iter_stepAnim_ticks.
    destruct (Z.ltb_spec (Z.of_nat (S k)) (a_ticks a)), (Z.ltb_spec (Z.of_nat (S (S k))) (a_ticks a)),
      (Z.ltb_spec 0 (a_ticks a - Z.of_nat (S k) - 1)); cbn [andb]; lia.
Qed.

Lemma iter_anims_step_app (k : nat) (l l' : list Anim) :
  Nat.iter k anims_step (l ++ l') = Nat.iter k anims_step l ++ Nat.iter k anims_step l'.
Proof.
  induction k as [|k IH]; [reflexivity|].
  change (Nat.iter (S k) anims_step ?x) with (anims_step (Nat.iter k anims_step x)).
  rewrite IH. unfold anims_step. rewrite map_app. apply filter_app_distr.
Qed.

(** C23. The lifetime of a score animation: after [addScore], the next [k]
    frames leave the other animations as they would have been and keep
    the new one, stepped [k] times, exactly while [k < 100]; so it is
    painted in each of the 100 frames that follow and then dropped. *)
Theorem addScore_lifetime (score : Z) (u : UIState) (k : nat) :
  ui_animating (Nat.iter k drawAnimating (addScore score u)) =
  ui_animating (Nat.iter k drawAnimating u) ++
    (if (k <? 100)%nat then [Nat.iter k stepAnim (score_anim score (ui_canvasWidth u))] else []).
Proof.
  rewrite !iter_drawAnimating. cbn [ui_animating addScore]. rewrite iter_anims_step_app. f_equal.
  destruct k as [|k]; [reflexivity|]. rewrite anims_after. cbn [List.filter].
  change (a_ticks (score_anim score (ui_canvasWidth u))) with 100%Z.
  destruct (Z.ltb_spec (Z.of_nat (S k)) 100), (Nat.ltb_spec (S k) 100); cbn [map]; reflexivity || lia.
Qed.

(** C24. Animations end: when every animation has at most 100 ticks left,
    as [addScore] creates them, 100 frames empty the list. *)
Theorem animations_end (u : UIState) :
  Forall (fun a => (a_ticks a <= ANIMATION_DURATION)%Z) (ui_animating u) ->
  ui_animating (Nat.iter 100 drawAnimating u) = [].
Proof.
  intro H. rewrite iter_drawAnimating, anims_after.
  replace (List.filter _ (ui_animating u)) with (@nil Anim); [reflexivity|].
  induction H as [|a l Ha _ IH]; [reflexivity|]. cbn [List.filter].
  unfold ANIMATION_DURATION in Ha. destruct (Z.ltb_spec (Z.of_nat 100) (a_ticks a)); [lia|exact IH].
Qed.

(** C25. [draw] before any [updateGameData]: the canvas is cleared, then
    [getGameVar('difficulty')] throws its [Error]; nothing is painted. *)
Theorem ui_draw_fresh_throws (u : UIState) :
  ui_gameData u = ∅ ->
  ui_draw u = Thrown (set_ui_ctx (ctx_clear (ui_ctx u)) u) GAME_VAR_ERROR /\
  ctx_painted (ctx_clear (ui_ctx u)) = [].
Proof. intro H. unfold ui_draw, ui_getGameVar. cbn. rewrite H. split; reflexivity. Qed.

(** [draw] once the three variables it reads are defined. *)
Lemma ui_draw_ok (u : UIState) (dv sv mv : JsVal) :
  ui_gameData u !! "difficulty" = Some dv -> ui_gameData u !! "score" = Some sv ->
  ui_gameData u !! "maxScore" = Some mv ->
  ui_draw u =
    Done (drawAnimating
            (set_ui_ctx (drawMaxScore (ui_canvasWidth u) mv
                          (drawScore (ui_canvasWidth u) sv
                            (drawDifficulty dv (ctx_clear (ui_ctx u))))) u)).
Proof.
  intros H1 H2 H3. unfold ui_draw, ui_getGameVar. cbn [ui_gameData set_ui_ctx ui_canvasWidth ui_ctx].
  rewrite H1, H2, H3. reflexivity.
Qed.

Lemma snapshot_lookup (d : GameData) (m : gmap string JsVal) (k : string) (v : JsVal) :
  gameData_obj d !! k = Some v -> (gameData_obj d ∪ m) !! k = Some v.
Proof. apply lookup_union_Some_l. Qed.

Lemma Qfloor_succ (x : Z) : Qfloor (inject_Z x + 1) = (x + 1)%Z.
Proof. change (inject_Z x + 1) with (inject_Z x + inject_Z 1). rewrite <- inject_Z_plus. apply Qfloor_Z. Qed.

(** C9. A HUD frame after [updateGameData(getGameData())]: [draw] does not
    throw; it paints ["Speed: " + (difficulty + 1)], the score padded to 5
    digits, ["Max: "] and the padded maximum, then every animation, which
    it steps; and it leaves one more state on the context's save stack
    (the [save] of [drawScore] has no [restore]), so the stack grows by one
    per frame and the animations are painted with the [textAlign] that
    [drawScore] set, ["center"]. *)
Theorem ui_frame_spec (d : GameData) (u : UIState) :
  let u' := ui_frame d u in
  ui_draw (ui_updateGameData (gameData_obj d) u) = Done u' /\
  map p_text (ctx_painted (ui_ctx u')) =
    [("Speed: " ++ js_int_string (gd_difficulty d + 1))%string;
     padStart 5 "0" (js_int_string (gd_score d));
     ("Max: " ++ padStart 5 "0" (js_string (js_of_score (gd_maxScore d))))%string]
    ++ map a_text (ui_animating u) /\
  length (ctx_stack (ui_ctx u')) = S (length (ctx_stack (ui_ctx u))) /\
  Forall (fun p => textAlign (p_style p) = "center") (skipn 3 (ctx_painted (ui_ctx u'))) /\
  ui_animating u' = anims_step (ui_animating u).
Proof.
  cbv zeta. unfold ui_frame.
  rewrite (ui_draw_ok _ (JNum (inject_Z (gd_difficulty d))) (JNum (inject_Z (gd_score d)))
             (js_of_score (gd_maxScore d))) by (apply snapshot_lookup; reflexivity).
  set (u3 := set_ui_ctx _ _).
  destruct (drawAnimating_spec u3) as (A & S & St & P & _ & _).
  splits; [reflexivity| | | |exact A].
  - rewrite P, map_app, List.map_map. cbn. rewrite Qfloor_Z, Qfloor_succ. reflexivity.
  - rewrite S. reflexivity.
  - rewrite P.
    replace (skipn 3 _) with (map (anim_paint (ctx_state (ui_ctx u3))) (ui_animating u3)) by reflexivity.
    apply List.Forall_forall. intros p Hp. apply List.in_map_iff in Hp as (a & <- & _). reflexivity.
Qed.

(** ** The zero-padded numbers of the HUD read back *)

(** Reading a decimal numeral, leading zeros allowed. *)
Definition read_decimal (s : string) : option Z := option_map Z.of_int (NilZero.int_of_string s).

Lemma append_length (s t : string) : String.length (s ++ t)%string = (String.length s + String.length t)%nat.
Proof. induction s as [|c s IH]; simpl; [reflexivity|]. rewrite IH. reflexivity. Qed.

Lemma repeat_str_length (k : nat) (p : string) :
  String.length (repeat_str k p) = (k * String.length p)%nat.
Proof. induction k as [|k IH]; [reflexivity|]. cbn [repeat_str]. rewrite append_length, IH. lia. Qed.

Lemma substring_all (s : string) : substring 0 (String.length s) s = s.
Proof. induction s as [|c s IH]; cbn; [reflexivity|]. rewrite IH. reflexivity. Qed.

(** Padding with ["0"] prepends the missing zeros. *)
Lemma padStart_zero (target : nat) (s : string) :
  exists k, padStart target "0" s = (repeat_str k "0" ++ s)%string /\
            String.length (padStart target "0" s) = Nat.max target (String.length s).
Proof.
  unfold padStart. destruct (Nat.leb_spec target (String.length s)).
  - exists O. split; [reflexivity|]. lia.
  - exists (target - String.length s)%nat. cbn [String.eqb].
    set (k := (target - String.length s)%nat).
    assert (Hs : substring 0 k (repeat_str k "0") = repeat_str k "0").
    { pose proof (substring_all (repeat_str k "0")) as E.
      rewrite repeat_str_length, Nat.mul_1_r in E. exact E. }
    rewrite Hs. split; [reflexivity|]. rewrite append_length, repeat_str_length. cbn. lia.
Qed.

Lemma uint_zeros (k : nat) (t : string) :
  NilEmpty.uint_of_string (repeat_str k "0" ++ t)%string =
  option_map (Nat.iter k Decimal.D0) (NilEmpty.uint_of_string t).
Proof.
  induction k as [|k IH].
  { change (repeat_str 0 "0" ++ t)%string with t. destruct (NilEmpty.uint_of_string t); reflexivity. }
  change (NilEmpty.uint_of_string (repeat_str (S k) "0" ++ t)%string)
    with (uint_of_char (Ascii.ascii_of_nat 48) (NilEmpty.uint_of_string (repeat_str k "0" ++ t)%string)).
  rewrite IH. destruct (NilEmpty.uint_of_string t); reflexivity.
Qed.

Lemma of_uint_zeros (k : nat) (d : Decimal.uint) : Z.of_uint (Nat.iter k Decimal.D0 d) = Z.of_uint d.
Proof. induction k as [|k IH]; [reflexivity|]. exact IH. Qed.

(** The numeral of a non-negative integer, padded with zeros, reads back
    as the integer. *)
Lemma read_padded (k : nat) (u : Decimal.uint) :
  read_decimal (repeat_str k "0" ++ NilZero.string_of_uint u)%string = Some (Z.of_uint u).
Proof.
  unfold read_decimal.
  assert (Hv : option_map (fun d => Z.of_int (Decimal.Pos d))
                 (NilEmpty.uint_of_string (repeat_str k "0" ++ NilZero.string_of_uint u)%string)
               = Some (Z.of_uint u)).
  { rewrite uint_zeros. destruct u; cbn; rewrite ?NilEmpty.usu; cbn; rewrite of_uint_zeros; reflexivity. }
  assert (Hh : exists c r, (repeat_str k "0" ++ NilZero.string_of_uint u)%string = String c r /\
                          Ascii.eqb c (Ascii.ascii_of_nat 45) = false)
    by (destruct k, u; do 2 eexists; split; reflexivity).
  destruct Hh as (c & r & E & Hc). rewrite E in Hv |- *.
  unfold NilZero.int_of_string.
  match goal with |- context [Ascii.eqb c ?m] => replace (Ascii.eqb c m) with false by (symmetry; exact Hc) end.
  change (NilZero.uint_of_string (String c r)) with (NilEmpty.uint_of_string (String c r)).
  destruct (NilEmpty.uint_of_string (String c r)); exact Hv.
Qed.

Lemma js_int_string_nonneg (n : Z) :
  (0 <= n)%Z -> exists u, js_int_string n = NilZero.string_of_uint u /\ Z.of_uint u = n.
Proof.
  intro Hn. pose proof (DecimalZ.of_to n) as E. unfold js_int_string.
  destruct (Z.to_int n) as [u|u] eqn:Ei; [exists u; split; [reflexivity|exact E]|].
  destruct n; cbn in Ei; [discriminate|discriminate|lia].
Qed.



Lemma animations_end_witness :
  ui_animating (Nat.iter 100 drawAnimating
     (addScore 50 (mkUI (mkCtx (mkCtxState DEFAULT_COLOR DEFAULT_FONT "start" "alphabetic" 1) [] 640 480 [])
                        ∅ [] 640 480))) = [].
Proof. apply animations_end. vm_compute. repeat constructor; discriminate. Defined.

Lemma ui_draw_fresh_throws_witness :
  let u := mkUI (mkCtx (mkCtxState DEFAULT_COLOR DEFAULT_FONT "start" "alphabetic" 1) [] 640 480 []) ∅ [] 640 480 in
  ui_draw u = Thrown (set_ui_ctx (ctx_clear (ui_ctx u)) u) GAME_VAR_ERROR /\
  ctx_painted (ctx_clear (ui_ctx u)) = [].
Proof. apply ui_draw_fresh_throws. reflexivity. Defined.
