(* ===== verification/Render.v ===== *)
(** The WebGL renderer of [src/src/Drawer.js], in [Module Drawer]: its
    module state ([gameData], [scene_position], [last_tick], the projection
    matrix [pMatrix], the viewport [init] takes from the canvas) and its
    operations [getShader], [initShaders], [init], [updateGameData],
    [getGameVar], [clear], [drawScene], [drawCuboid] and [drawObject].
    The page and the driver are a [GLEnv]: the script element
    [getElementById] finds and whether a source compiles.  What [gl] draws is kept as
    the list of [drawArrays] calls since the last [gl.clear]: the
    model-view translation and projection uploaded by [setMatrixUniforms],
    the vertex buffer and the number of vertices.  The model-view matrices
    of the code are translations ([getInitialMatrix] then [mat4.translate]),
    so a translation vector stands for each of them; the projection is
    [mat4.perspective] with its aspect and clip planes (the field of view,
    [Math.PI / 2], is the same in every call and is left out).  The
    theorems: the loop that draws the scene lines terminates after a number
    of rounds given in closed form; the scroll offset [scene_position]
    stays in [(0, SCENE_LINE_STEP]] and is reset when the tick goes back (a
    restart); one frame of [Game.draw] paints the scene box with its 16
    lines, then every object in id order, under the perspective for
    [SCENE_DEPTH]; [getShader] returns [null] exactly on its three error
    paths. *)

From S2P Require Import Prelude Entity Hud.
From stdpp Require Import base gmap strings.
Open Scope Q_scope.
Open Scope game_scope.

Module Drawer.

(** ** Constants (lines 5-8) *)

Definition SCENE_HEIGHT : Q := 3.
Definition SCENE_LINE_STEP : Q := 2.

(** A point, a translation or a vertex: [x, y, z]. *)
Definition Vec3 : Type := (Q * Q * Q)%type.

(** [CAM_POSITION = [0, 2, 3]]. *)
Definition CAM_POSITION : Vec3 := (0, 2, 3).

(** [pMatrix]: [mat4.create()] is the identity until the first [clear]. *)
Inductive Proj : Type :=
| ProjIdentity
| Perspective (aspect near far : Q).

(** One [gl.drawArrays(gl.LINES, 0, items)] with the model-view
    translation and projection uploaded before it and the buffer bound. *)
Record DrawCall : Type := mkDrawCall {
  dc_mv : Vec3;
  dc_proj : Proj;
  dc_vertices : list Q;
  dc_items : nat
}.

Record DrawerState : Type := mkDrawer {
  dr_gameData : gmap string JsVal;
  dr_scene_position : Q;
  dr_last_tick : Q;
  dr_pMatrix : Proj;
  dr_viewportWidth : Q;
  dr_viewportHeight : Q;
  dr_screen : list DrawCall
}.

(** The module's initial state (lines 10-16), before [init]. *)
Definition dr_initial : DrawerState :=
  mkDrawer ∅ SCENE_LINE_STEP 0 ProjIdentity 0 0 [].

(** [init(canvas)]: the viewport is the canvas' size; the shaders and the
    background colour are [gl] state that no drawing here depends on. *)
Definition dr_init (canvasWidth canvasHeight : Q) (d : DrawerState) : DrawerState :=
  mkDrawer (dr_gameData d) (dr_scene_position d) (dr_last_tick d) (dr_pMatrix d)
           canvasWidth canvasHeight (dr_screen d).

(** [updateGameData(data)]: [Object.assign(gameData, data)]. *)
Definition dr_updateGameData (data : gmap string JsVal) (d : DrawerState) : DrawerState :=
  mkDrawer (data ∪ dr_gameData d) (dr_scene_position d) (dr_last_tick d) (dr_pMatrix d)
           (dr_viewportWidth d) (dr_viewportHeight d) (dr_screen d).

(** [getGameVar(name)]: the value, or the thrown [Error]. *)
Definition dr_getGameVar (name : string) (d : DrawerState) : JsVal + string :=
  match dr_gameData d !! name with
  | Some v => inl v
  | None => inr GAME_VAR_ERROR
  end.

(** The numeric value of a game variable in the arithmetic of
    [drawScene] and [clear].  Every key they read holds a number in the
    objects [getGameData] builds; a string is read as the decimal number it
    spells, and one that spells none (where JavaScript would compute [NaN])
    as [0]. *)
Definition js_num (v : JsVal) : Q :=
  match v with
  | JNum q => q
  | JStr s => match read_decimal s with Some n => inject_Z n | None => 0 end
  end.

(** [getInitialMatrix()]: the translation by [-CAM_POSITION]. *)
Definition getInitialMatrix : Vec3 :=
  let '(x, y, z) := CAM_POSITION in (- x, - y, - z).

(** [mat4.translate(out, m, v)] on a translation [m]. *)
Definition mat4_translate (m v : Vec3) : Vec3 :=
  let '(mx, my, mz) := m in let '(x, y, z) := v in (mx + x, my + y, mz + z).

(** How a JavaScript call that may throw ends. *)
Inductive DOutcome : Type :=
| DDone (d : DrawerState)
| DThrown (d : DrawerState) (msg : string).

Definition set_screen (s : list DrawCall) (d : DrawerState) : DrawerState :=
  mkDrawer (dr_gameData d) (dr_scene_position d) (dr_last_tick d) (dr_pMatrix d)
           (dr_viewportWidth d) (dr_viewportHeight d) s.

(** [setMatrixUniforms(mvMatrix); gl.drawArrays(gl.LINES, 0, items)]. *)
Definition drawArrays (mv : Vec3) (verts : list Q) (items : nat) (d : DrawerState) : DrawerState :=
  set_screen (dr_screen d ++ [mkDrawCall mv (dr_pMatrix d) verts items]) d.

(** [clear()]: the viewport and [gl.clear], then the projection for the
    current [SCENE_DEPTH]. *)
Definition dr_clear (d : DrawerState) : DOutcome :=
  let d := set_screen [] d in
  match dr_getGameVar "SCENE_DEPTH" d with
  | inr m => DThrown d m
  | inl depth =>
      DDone (mkDrawer (dr_gameData d) (dr_scene_position d) (dr_last_tick d)
               (Perspective (dr_viewportWidth d / dr_viewportHeight d) (1 # 10) (js_num depth))
               (dr_viewportWidth d) (dr_viewportHeight d) (dr_screen d))
  end.

(** The vertices of [drawCuboid] for the half sizes [w], [h], [d]: the
    front face, the back face, and the four edges between them. *)
Definition cuboid_vertices (w h d : Q) : list Q :=
  [ - w;   h; d;     w;   h; d;
      w;   h; d;     w; - h; d;
      w; - h; d;   - w; - h; d;
    - w; - h; d;   - w;   h; d;
    - w;   h; - d;   w;   h; - d;
      w;   h; - d;   w; - h; - d;
      w; - h; - d; - w; - h; - d;
    - w; - h; - d; - w;   h; - d;
    - w;   h; d;   - w;   h; - d;
      w;   h; d;     w;   h; - d;
      w; - h; d;     w; - h; - d;
    - w; - h; d;   - w; - h; - d ].

(** [drawCuboid(x, y, z, width, height, depth)]. *)
Definition drawCuboid (x y z width height depth : Q) (d : DrawerState) : DrawerState :=
  let w := width / 2 in
  let h := height / 2 in
  let dd := depth / 2 in
  drawArrays (mat4_translate getInitialMatrix (x, y, z)) (cuboid_vertices w h dd) 24 d.

(** [drawObject(gameObject)]: the scene's [z] axis points away from the
    camera, so the object's [z] is negated. *)
Definition drawObject (o : GameObject) (d : DrawerState) : DrawerState :=
  drawCuboid (go_x o) (go_y o) (- go_z o) (width o) (type_height (go_type o)) (depth o) d.

(** The initial vertices of [drawScene]: the back rectangle and the four
    side edges. *)
Definition scene_vertices (w h d : Q) : list Q :=
  [ - w; h; - d;   w; h; - d;
      w; h; - d;   w; 0; - d;
      w; 0; - d; - w; 0; - d;
    - w; 0; - d; - w; h; - d;
    - w; h; d;   - w; h; - d;
      w; h; d;     w; h; - d;
      w; 0; d;     w; 0; - d;
    - w; 0; d;   - w; 0; - d ].

(** The rectangle the loop of [drawScene] appends at depth [z]. *)
Definition line_vertices (w h z : Q) : list Q :=
  [ - w; 0; z;   - w; h; z;
    - w; h; z;     w; h; z;
      w; h; z;     w; 0; z;
      w; 0; z;   - w; 0; z ].

(** [for (let i = -2; i < d; i += SCENE_LINE_STEP)] from the round at
    [i]: [None] when the fuel runs out before the loop ends. *)
Fixpoint scene_loop (fuel : nat) (i depth pos w h : Q) (verts : list Q) (items : nat)
  : option (list Q * nat) :=
  if i <q depth then
    match fuel with
    | O => None
    | S fuel =>
        scene_loop fuel (i + SCENE_LINE_STEP) depth pos w h
                   (verts ++ line_vertices w h (- i - pos)) (items + 8)
    end
  else Some (verts, items).

(** The number of rounds of that loop from [i]. *)
Definition line_count (i depth : Q) : nat :=
  Z.to_nat (Qceiling ((depth - i) / SCENE_LINE_STEP)).

Definition set_scroll (pos tick : Q) (d : DrawerState) : DrawerState :=
  mkDrawer (dr_gameData d) pos tick (dr_pMatrix d)
           (dr_viewportWidth d) (dr_viewportHeight d) (dr_screen d).

(** Lines 184-195: the scroll offset after the tick moved from [last] to
    [current] at [speed]; a tick that went back means a restart. *)
Definition next_scene_position (pos last current speed : Q) : Q :=
  let diff := current - last in
  let restarted := diff <q 0 in
  let diff := if restarted then 0 else diff in
  let pos := if restarted then SCENE_LINE_STEP else pos in
  let pos := pos - speed * diff in
  if pos <=q 0 then SCENE_LINE_STEP else pos.

(** [drawScene()].  The names are read in the order [SCENE_LEFT_BORDER],
    [SCENE_RIGHT_BORDER], [SCENE_DEPTH], [tick], [speed]; a missing one
    throws the same [Error], after the reset of [scene_position] when it is
    [speed].  The loop is given the number of rounds it makes as fuel. *)
Definition drawScene (d : DrawerState) : DOutcome :=
  match dr_getGameVar "SCENE_LEFT_BORDER" d, dr_getGameVar "SCENE_RIGHT_BORDER" d,
        dr_getGameVar "SCENE_DEPTH" d, dr_getGameVar "tick" d with
  | inl l, inl r, inl dv, inl t =>
      let w := (js_num l - js_num r) / 2 in
      let h := SCENE_HEIGHT in
      let depth := js_num dv in
      let current_tick := js_num t in
      match dr_getGameVar "speed" d with
      | inr m =>
          let pos := if current_tick - dr_last_tick d <q 0 then SCENE_LINE_STEP
                     else dr_scene_position d in
          DThrown (set_scroll pos (dr_last_tick d) d) m
      | inl sp =>
          let pos := next_scene_position (dr_scene_position d) (dr_last_tick d)
                       current_tick (js_num sp) in
          let d := set_scroll pos current_tick d in
          match scene_loop (line_count (-2) depth) (-2) depth pos w h
                           (scene_vertices w h depth) 16 with
          | Some (verts, items) => DDone (drawArrays getInitialMatrix verts items d)
          | None => DDone d
          end
      end
  | _, _, _, _ => DThrown d GAME_VAR_ERROR
  end.

(** The renderer's half of [draw()] in [src/src/Game.js]:
    [Drawer.updateGameData(getGameData())], [Drawer.clear()],
    [Drawer.drawScene()] and [Drawer.drawObject] on each object in key
    order.  Neither call throws there ([dr_frame_spec]). *)
Definition dr_frame (gd : GameData) (objs : list GameObject) (d : DrawerState) : DrawerState :=
  let d := dr_updateGameData (gameData_obj gd) d in
  match dr_clear d with
  | DThrown d _ => d
  | DDone d =>
      match drawScene d with
      | DThrown d _ => d
      | DDone d => fold_left (fun d o => drawObject o d) objs d
      end
  end.

(** ** Start-up: [getShader], [initShaders], [init] (lines 18-73, 107-118) *)

(** A child node of a [<script>] element: its [nodeType] and
    [textContent]. *)
Record DomNode : Type := mkDomNode { nodeType : Z; textContent : string }.

(** A [<script>] element: its [type] attribute and its child nodes. *)
Record ShaderScript : Type := mkShaderScript {
  script_type : string;
  script_children : list DomNode
}.

(** [gl.FRAGMENT_SHADER], [gl.VERTEX_SHADER]. *)
Inductive ShaderKind : Type := FRAGMENT_SHADER | VERTEX_SHADER.

(** A compiled shader: its kind and its source. *)
Record Shader : Type := mkShader { sh_kind : ShaderKind; sh_source : string }.

(** What [init] finds on the page: [document.getElementById] on the
    script elements, and whether the driver compiles a source
    ([gl.COMPILE_STATUS]). *)
Record GLEnv : Type := mkGLEnv {
  getElementById : string -> option ShaderScript;
  compiles : ShaderKind -> string -> bool
}.

(** The [TypeError] of a call on [null]: [gl.viewportWidth = ...] with no
    context, [gl.attachShader(program, null)] with no shader. *)
Definition TYPE_ERROR : string := "TypeError".

(** The loop of lines 24-31: the text of the text nodes ([nodeType 3]),
    in order. *)
Definition shader_text (children : list DomNode) : string :=
  fold_left (fun str k => if (nodeType k =? 3)%Z then (str ++ textContent k)%string else str)
            children "".

(** Lines 33-40: the kind of shader a script's [type] names. *)
Definition script_kind (type : string) : option ShaderKind :=
  if String.eqb type "x-shader/x-fragment" then Some FRAGMENT_SHADER
  else if String.eqb type "x-shader/x-vertex" then Some VERTEX_SHADER
  else None.

(** [getShader(id)]: [None] is the [null] it returns for a missing
    element, an unknown [type] or a source that does not compile. *)
Definition getShader (g : GLEnv) (id : string) : option Shader :=
  match getElementById g id with
  | None => None
  | Some sc =>
      let str := shader_text (script_children sc) in
      match script_kind (script_type sc) with
      | None => None
      | Some k => if compiles g k str then Some (mkShader k str) else None
      end
  end.

(** [initShaders()]: both shaders are attached to the program; attaching
    [null] throws.  A failed link is only logged, and the program is used
    anyway. *)
Definition initShaders (g : GLEnv) : option (Shader * Shader) :=
  let fragmentShader := getShader g "shader-fs" in
  let vertexShader := getShader g "shader-vs" in
  match vertexShader, fragmentShader with
  | Some v, Some f => Some (v, f)
  | _, _ => None
  end.

(** [init(canvas)] as the browser runs it: [webgl] says whether
    [getContext] returned a context.  Without one the message is logged
    and the next line throws; with one the viewport is set before
    [initShaders], which throws when a shader is missing. *)
Definition dr_init_checked (webgl : bool) (g : GLEnv) (canvasWidth canvasHeight : Q)
  (d : DrawerState) : DOutcome :=
  if negb webgl then DThrown d TYPE_ERROR
  else
    let d := dr_init canvasWidth canvasHeight d in
    match initShaders g with
    | None => DThrown d TYPE_ERROR
    | Some _ => DDone d
    end.

(** ** The loop of [drawScene] *)

(** The rectangles of [n] rounds of the loop from [i]. *)
Fixpoint scene_lines (n : nat) (i pos w h : Q) : list Q :=
  match n with
  | O => []
  | S n => line_vertices w h (- i - pos) ++ scene_lines n (i + SCENE_LINE_STEP) pos w h
  end.

Lemma line_count_step (i depth : Q) :
  i < depth -> line_count i depth = S (line_count (i + SCENE_LINE_STEP) depth).
Proof.
  intro H. unfold line_count, SCENE_LINE_STEP, Qdiv. change (/ 2) with (1 # 2).
  set (c := Qceiling ((depth - i) * (1 # 2))).
  pose proof (Qle_ceiling ((depth - i) * (1 # 2))) as U.
  pose proof (Qceiling_lt ((depth - i) * (1 # 2))) as L. fold c in U, L.
  assert (P : (0 < c)%Z) by (rewrite Zlt_Qlt; change (inject_Z 0) with 0; lra).
  rewrite (Qceiling_between _ (c - 1)); [lia | |].
  - unfold Z.sub in *. rewrite inject_Z_plus, inject_Z_opp in *.
    change (inject_Z 1) with 1 in *. lra.
  - unfold Z.sub. rewrite inject_Z_plus, inject_Z_opp. change (inject_Z 1) with 1. lra.
Qed.

Lemma line_count_stop (i depth : Q) : depth <= i -> line_count i depth = O.
Proof.
  intro H. unfold line_count, SCENE_LINE_STEP, Qdiv. change (/ 2) with (1 # 2).
  assert (C : (Qceiling ((depth - i) * (1 # 2)) <= 0)%Z).
  { rewrite <- (Qceiling_Z 0). apply Qceiling_resp_le. change (inject_Z 0) with 0. lra. }
  lia.
Qed.

(** C21. The scene-line loop of [drawScene] terminates: given at least as
    much fuel as the closed-form count [line_count i depth] it returns,
    having appended one rectangle per round, [8] vertices each, at the
    depths [-i - pos], [-(i + 2) - pos], and so on. *)
Theorem scene_loop_total (fuel : nat) (i depth pos w h : Q) (verts : list Q) (items : nat) :
  (line_count i depth <= fuel)%nat ->
  scene_loop fuel i depth pos w h verts items =
  Some (verts ++ scene_lines (line_count i depth) i pos w h, (items + 8 * line_count i depth)%nat).
Proof.
  revert i verts items. induction fuel as [|fuel IH]; intros i verts items Hf; cbn [scene_loop].
  all: destruct (i <q depth) eqn:E; [apply Qltb_spec in E | apply Qltb_false in E].
  - rewrite line_count_step in Hf by exact E. lia.
  - rewrite line_count_stop by exact E. cbn. rewrite app_nil_r, Nat.add_0_r. reflexivity.
  - rewrite line_count_step in * by exact E. rewrite IH by lia. cbn [scene_lines].
    rewrite app_assoc. f_equal. f_equal. lia.
  - rewrite line_count_stop by exact E. cbn. rewrite app_nil_r, Nat.add_0_r. reflexivity.
Qed.

(** ** The scroll offset *)

(** The offset after a frame is in [(0, SCENE_LINE_STEP]] when it was
    at most [SCENE_LINE_STEP] and the speed is not negative. *)
Lemma next_scene_position_range (pos last current speed : Q) :
  0 <= speed -> pos <= SCENE_LINE_STEP ->
  0 < next_scene_position pos last current speed <= SCENE_LINE_STEP.
Proof.
  intros Hs Hp. unfold next_scene_position, SCENE_LINE_STEP in *.
  destruct (current - last <q 0) eqn:R; [apply Qltb_spec in R | apply Qltb_false in R].
  all: match goal with |- context [if ?c <=q 0 then _ else _] => set (v := c) end.
  all: destruct (v <=q 0) eqn:V; [apply Qleb_spec in V | apply Qleb_false in V].
  all: try assert (0 <= speed * (current - last)) by (apply Qmult_le_0_compat; lra).
  all: subst v; lra.
Qed.

(** C22. The scroll offset of the scene lines stays in
    [(0, SCENE_LINE_STEP]] while the speed is not negative, and a tick that
    went back (a restarted game) puts it back to [SCENE_LINE_STEP]. *)
Theorem scene_position_bounds (pos last current speed : Q) :
  0 <= speed -> pos <= SCENE_LINE_STEP ->
  let pos' := next_scene_position pos last current speed in
  0 < pos' /\ pos' <= SCENE_LINE_STEP /\ (current < last -> pos' == SCENE_LINE_STEP).
Proof.
  intros Hs Hp. cbv zeta. pose proof (next_scene_position_range pos last current speed Hs Hp).
  split; [apply H|split; [apply H|intro Hl]].
  unfold next_scene_position. rewrite (proj2 (Qltb_spec _ _)) by lra.
  destruct (SCENE_LINE_STEP - speed * 0 <=q 0); [reflexivity|].
  setoid_rewrite Qmult_0_r. unfold SCENE_LINE_STEP. reflexivity.
Qed.

(** ** One frame *)

(** The [drawArrays] call of [drawObject o] under the projection [p]. *)
Definition object_call (p : Proj) (o : GameObject) : DrawCall :=
  mkDrawCall (mat4_translate getInitialMatrix (go_x o, go_y o, - go_z o)) p
    (cuboid_vertices (width o / 2) (type_height (go_type o) / 2) (depth o / 2)) 24.

Lemma fold_drawObject (objs : list GameObject) (d : DrawerState) :
  let d' := fold_left (fun d o => drawObject o d) objs d in
  dr_screen d' = dr_screen d ++ map (object_call (dr_pMatrix d)) objs /\
  dr_scene_position d' = dr_scene_position d /\ dr_last_tick d' = dr_last_tick d /\
  dr_pMatrix d' = dr_pMatrix d.
Proof.
  revert d. induction objs as [|o objs IH]; intro d; cbn zeta in *.
  - rewrite app_nil_r. auto.
  - cbn [fold_left]. destruct (IH (drawObject o d)) as (A & B & C & D).
    rewrite A, B, C, D. cbn. rewrite <- app_assoc. auto.
Qed.


Lemma dr_clear_ok (d : DrawerState) (dp : Q) :
  dr_gameData d !! "SCENE_DEPTH" = Some (JNum dp) ->
  dr_clear d =
    DDone (mkDrawer (dr_gameData d) (dr_scene_position d) (dr_last_tick d)
             (Perspective (dr_viewportWidth d / dr_viewportHeight d) (1 # 10) dp)
             (dr_viewportWidth d) (dr_viewportHeight d) []).
Proof. intro H. unfold dr_clear, dr_getGameVar. cbn [dr_gameData set_screen]. rewrite H. reflexivity. Qed.

Lemma drawScene_ok (d : DrawerState) (l r dp t sp : Q) :
  dr_gameData d !! "SCENE_LEFT_BORDER" = Some (JNum l) ->
  dr_gameData d !! "SCENE_RIGHT_BORDER" = Some (JNum r) ->
  dr_gameData d !! "SCENE_DEPTH" = Some (JNum dp) ->
  dr_gameData d !! "tick" = Some (JNum t) ->
  dr_gameData d !! "speed" = Some (JNum sp) ->
  let w := (l - r) / 2 in
  let pos := next_scene_position (dr_scene_position d) (dr_last_tick d) t sp in
  let n := line_count (-2) dp in
  drawScene d =
    DDone (drawArrays getInitialMatrix
             (scene_vertices w SCENE_HEIGHT dp ++ scene_lines n (-2) pos w SCENE_HEIGHT)
             (16 + 8 * n) (set_scroll pos t d)).
Proof.
  intros H1 H2 H3 H4 H5. cbv zeta. unfold drawScene, dr_getGameVar.
  rewrite H1, H2, H3, H4, H5. cbn [js_num]. rewrite scene_loop_total by lia. reflexivity.
Qed.

(** [dr_frame_unfold] runs [clear] and [drawScene] of a frame on the
    snapshot [getGameData] builds. *)
Ltac dr_frame_unfold :=
  unfold dr_frame;
  rewrite (dr_clear_ok _ SCENE_DEPTH) by (apply snapshot_lookup; reflexivity);
  erewrite drawScene_ok by (apply snapshot_lookup; reflexivity).

(** The scroll state a frame leaves. *)
Lemma dr_frame_scroll (gd : GameData) (objs : list GameObject) (d : DrawerState) :
  dr_scene_position (dr_frame gd objs d) =
    next_scene_position (dr_scene_position d) (dr_last_tick d) (inject_Z (gd_tick gd)) (gd_speed gd) /\
  dr_last_tick (dr_frame gd objs d) = inject_Z (gd_tick gd).
Proof.
  dr_frame_unfold.
  match goal with |- context [fold_left _ objs ?d0] => set (d1 := d0) end.
  destruct (fold_drawObject objs d1) as (_ & B & C & _). rewrite B, C. subst d1. split; reflexivity.
Qed.

(** C8. One frame of the renderer in [Game.draw], after
    [Drawer.updateGameData(getGameData())]: neither [clear] nor
    [drawScene] throws; the screen holds exactly the scene (its box and
    the [16] lines of a [SCENE_DEPTH] of [30], [144] vertices, scrolled by
    the new [scene_position]) and then one cuboid per game object in key
    order, all under the perspective of the viewport's aspect with the far
    plane at [SCENE_DEPTH]; [last_tick] becomes the snapshot's tick. *)
Theorem dr_frame_spec (gd : GameData) (objs : list GameObject) (d : DrawerState) :
  let d' := dr_frame gd objs d in
  let P := Perspective (dr_viewportWidth d / dr_viewportHeight d) (1 # 10) SCENE_DEPTH in
  let pos := next_scene_position (dr_scene_position d) (dr_last_tick d)
               (inject_Z (gd_tick gd)) (gd_speed gd) in
  let w := (SCENE_LEFT_BORDER - SCENE_RIGHT_BORDER) / 2 in
  dr_screen d' =
    mkDrawCall getInitialMatrix P
      (scene_vertices w SCENE_HEIGHT SCENE_DEPTH ++ scene_lines 16 (-2) pos w SCENE_HEIGHT) 144
    :: map (object_call P) objs /\
  dr_scene_position d' = pos /\ dr_last_tick d' = inject_Z (gd_tick gd) /\ dr_pMatrix d' = P.
Proof.
  cbv zeta. dr_frame_unfold.
  match goal with |- context [fold_left _ objs ?d0] => set (d1 := d0) end.
  destruct (fold_drawObject objs d1) as (A & B & C & D). rewrite A, B, C, D. subst d1.
  change (line_count (-2) SCENE_DEPTH) with 16%nat. cbn. splits; reflexivity.
Qed.

(** C34. [getShader] returns [null] exactly on its three error paths: no
    element with that id, a [type] that names no shader, a source the
    driver does not compile; otherwise it returns the shader of the kind
    the [type] names, compiled from the text of the script. *)
Theorem getShader_spec (g : GLEnv) (id : string) :
  (getShader g id = None <->
   match getElementById g id with
   | None => True
   | Some sc => script_kind (script_type sc) = None \/
       exists k, script_kind (script_type sc) = Some k /\
                 compiles g k (shader_text (script_children sc)) = false
   end) /\
  (forall sh, getShader g id = Some sh ->
   exists sc, getElementById g id = Some sc /\ script_kind (script_type sc) = Some (sh_kind sh) /\
     sh_source sh = shader_text (script_children sc) /\ compiles g (sh_kind sh) (sh_source sh) = true).
Proof.
  unfold getShader. destruct (getElementById g id) as [sc|]; [|split; [tauto|discriminate]].
  destruct (script_kind (script_type sc)) as [k|] eqn:K; [|split; [tauto|discriminate]].
  destruct (compiles g k _) eqn:C; split.
  - split; [discriminate|]. intros [D|(k' & D & F)]; [discriminate|]. injection D as <-. congruence.
  - intros sh E. injection E as <-. exists sc. cbn. auto.
  - split; [intros _; right; exists k; auto|reflexivity].
  - discriminate.
Qed.

Lemma scene_position_bounds_witness :
  let pos' := next_scene_position 1 750 3 (1 # 25) in
  0 < pos' /\ pos' <= SCENE_LINE_STEP /\ (3 < 750 -> pos' == SCENE_LINE_STEP).
Proof. apply scene_position_bounds; unfold SCENE_LINE_STEP; lra. Defined.

Lemma scene_loop_total_witness :
  scene_loop 16 (-2) 30 1 (-3) 3 [] 16 =
  Some (scene_lines (line_count (-2) 30) (-2) 1 (-3) 3, (16 + 8 * line_count (-2) 30)%nat).
Proof. apply scene_loop_total. vm_compute. lia. Defined.

(** A page with the fragment shader's script only. *)
Definition demo_gl : GLEnv :=
  mkGLEnv (fun id => if String.eqb id "shader-fs"
                     then Some (mkShaderScript "x-shader/x-fragment" [mkDomNode 3 "void main() {}"])
                     else None)
          (fun _ _ => true).

Lemma getShader_spec_witness :
  getShader demo_gl "shader-fs" = Some (mkShader FRAGMENT_SHADER "void main() {}") /\
  getShader demo_gl "shader-vs" = None.
Proof. split; [reflexivity|]. apply (proj2 (proj1 (getShader_spec demo_gl "shader-vs"))). exact I. Defined.

End Drawer.
