(* ===== verification/State.v ===== *)
(** The state of the [Game] closure of [src/src/Game.js] (lines 57-79)
    and of the part of the browser it touches, the object store operations
    [createGameObject], [destroyGameObject] (lines 81-90), [getCar]
    (154-157), [getGameData] (159-171), and the well-formedness of the
    store: ids strictly increasing (the enumeration order of integer keys)
    and below the next id.  Inserting a fresh object keeps the store
    well formed and appends it; a destroy only records the id. *)

From S2P Require Import Prelude Entity Hud Render.
From Stdlib Require Import DecimalString DecimalNat Sorted.

(** What the closure reaches outside itself: [listeners] (the [keydown]
    and [keyup] handlers on [document]; adding the same handler twice
    registers it once), the ids of the active [setInterval] timers that run
    [tick] and of the pending [requestAnimationFrame] requests for [draw],
    the ids last stored in [gameInterval] and [animationFrame], the id
    source of the timers, [window.localStorage] ([None]: unavailable;
    [Some None]: no ['maxScore'] key), the snapshots passed to
    [gameDataCallback], the canvas [init] stored in [canvas] (with the
    size of the page's two canvases), the module state of [UI]
    ([src/src/UI.js], file [Hud]) and of [Drawer] ([src/src/Drawer.js],
    file [Render]), and the cursor into [Math.random]. *)
Record Env : Type := mkEnv {
  listeners : bool;
  intervals : list nat;
  gameInterval : nat;
  frames : list nat;
  animationFrame : nat;
  timer_seq : nat;
  storage : option (option Z);
  callback_log : list GameData;
  canvas : option (Q * Q);
  hud : UIState;
  drawer : Drawer.DrawerState;
  rng_pos : nat
}.

(** The closure's variables.  Before the first [start] most of them are
    [undefined] in JavaScript; [init_world] gives them the values [start]
    would.  The page never reads them before [start], but the module's API
    allows [stop] (or [restart]) first: in JavaScript its [drawUI] then
    throws, [difficulty] being [undefined] in the HUD's [gameData], while
    the model's [stop] completes.  The theorems over sessions only read
    states after a [start]. *)
Record World : Type := mkWorld {
  gameDataCallback : bool;
  score : Q;
  maxScore : JsScore;
  isGameOver : bool;
  tickIndex : Z;
  gameObjects : list GameObject;
  toDestroy : list nat;
  gameObjectId : nat;
  gameMode : GameMode;
  leftKeyPressed : bool;
  rightKeyPressed : bool;
  difficulty : Z;
  nextObstacleIn : Z;
  obstacleInterval : Z;
  nextHumanIn : Z;
  speed : Q;
  strafeSpeed : Q;
  env : Env
}.

(** ** Field updates *)

Definition set_listeners (v : bool) (e : Env) : Env :=
  mkEnv v (intervals e) (gameInterval e) (frames e) (animationFrame e) (timer_seq e) (storage e) (callback_log e) (canvas e) (hud e) (drawer e) (rng_pos e).

Definition set_intervals (v : list nat) (e : Env) : Env :=
  mkEnv (listeners e) v (gameInterval e) (frames e) (animationFrame e) (timer_seq e) (storage e) (callback_log e) (canvas e) (hud e) (drawer e) (rng_pos e).

Definition set_gameInterval (v : nat) (e : Env) : Env :=
  mkEnv (listeners e) (intervals e) v (frames e) (animationFrame e) (timer_seq e) (storage e) (callback_log e) (canvas e) (hud e) (drawer e) (rng_pos e).

Definition set_frames (v : list nat) (e : Env) : Env :=
  mkEnv (listeners e) (intervals e) (gameInterval e) v (animationFrame e) (timer_seq e) (storage e) (callback_log e) (canvas e) (hud e) (drawer e) (rng_pos e).

Definition set_animationFrame (v : nat) (e : Env) : Env :=
  mkEnv (listeners e) (intervals e) (gameInterval e) (frames e) v (timer_seq e) (storage e) (callback_log e) (canvas e) (hud e) (drawer e) (rng_pos e).

Definition set_timer_seq (v : nat) (e : Env) : Env :=
  mkEnv (listeners e) (intervals e) (gameInterval e) (frames e) (animationFrame e) v (storage e) (callback_log e) (canvas e) (hud e) (drawer e) (rng_pos e).

Definition set_storage (v : option (option Z)) (e : Env) : Env :=
  mkEnv (listeners e) (intervals e) (gameInterval e) (frames e) (animationFrame e) (timer_seq e) v (callback_log e) (canvas e) (hud e) (drawer e) (rng_pos e).

Definition set_callback_log (v : list GameData) (e : Env) : Env :=
  mkEnv (listeners e) (intervals e) (gameInterval e) (frames e) (animationFrame e) (timer_seq e) (storage e) v (canvas e) (hud e) (drawer e) (rng_pos e).

Definition set_canvas (v : option (Q * Q)) (e : Env) : Env :=
  mkEnv (listeners e) (intervals e) (gameInterval e) (frames e) (animationFrame e) (timer_seq e) (storage e) (callback_log e) v (hud e) (drawer e) (rng_pos e).

Definition set_hud (v : UIState) (e : Env) : Env :=
  mkEnv (listeners e) (intervals e) (gameInterval e) (frames e) (animationFrame e) (timer_seq e) (storage e) (callback_log e) (canvas e) v (drawer e) (rng_pos e).

Definition set_drawer (v : Drawer.DrawerState) (e : Env) : Env :=
  mkEnv (listeners e) (intervals e) (gameInterval e) (frames e) (animationFrame e) (timer_seq e) (storage e) (callback_log e) (canvas e) (hud e) v (rng_pos e).

Definition set_rng_pos (v : nat) (e : Env) : Env :=
  mkEnv (listeners e) (intervals e) (gameInterval e) (frames e) (animationFrame e) (timer_seq e) (storage e) (callback_log e) (canvas e) (hud e) (drawer e) v.

Definition set_gameDataCallback (v : bool) (w : World) : World :=
  mkWorld v (score w) (maxScore w) (isGameOver w) (tickIndex w) (gameObjects w) (toDestroy w) (gameObjectId w) (gameMode w) (leftKeyPressed w) (rightKeyPressed w) (difficulty w) (nextObstacleIn w) (obstacleInterval w) (nextHumanIn w) (speed w) (strafeSpeed w) (env w).

Definition set_score (v : Q) (w : World) : World :=
  mkWorld (gameDataCallback w) v (maxScore w) (isGameOver w) (tickIndex w) (gameObjects w) (toDestroy w) (gameObjectId w) (gameMode w) (leftKeyPressed w) (rightKeyPressed w) (difficulty w) (nextObstacleIn w) (obstacleInterval w) (nextHumanIn w) (speed w) (strafeSpeed w) (env w).

Definition set_maxScore (v : JsScore) (w : World) : World :=
  mkWorld (gameDataCallback w) (score w) v (isGameOver w) (tickIndex w) (gameObjects w) (toDestroy w) (gameObjectId w) (gameMode w) (leftKeyPressed w) (rightKeyPressed w) (difficulty w) (nextObstacleIn w) (obstacleInterval w) (nextHumanIn w) (speed w) (strafeSpeed w) (env w).

Definition set_isGameOver (v : bool) (w : World) : World :=
  mkWorld (gameDataCallback w) (score w) (maxScore w) v (tickIndex w) (gameObjects w) (toDestroy w) (gameObjectId w) (gameMode w) (leftKeyPressed w) (rightKeyPressed w) (difficulty w) (nextObstacleIn w) (obstacleInterval w) (nextHumanIn w) (speed w) (strafeSpeed w) (env w).

Definition set_tickIndex (v : Z) (w : World) : World :=
  mkWorld (gameDataCallback w) (score w) (maxScore w) (isGameOver w) v (gameObjects w) (toDestroy w) (gameObjectId w) (gameMode w) (leftKeyPressed w) (rightKeyPressed w) (difficulty w) (nextObstacleIn w) (obstacleInterval w) (nextHumanIn w) (speed w) (strafeSpeed w) (env w).

Definition set_gameObjects (v : list GameObject) (w : World) : World :=
  mkWorld (gameDataCallback w) (score w) (maxScore w) (isGameOver w) (tickIndex w) v (toDestroy w) (gameObjectId w) (gameMode w) (leftKeyPressed w) (rightKeyPressed w) (difficulty w) (nextObstacleIn w) (obstacleInterval w) (nextHumanIn w) (speed w) (strafeSpeed w) (env w).

Definition set_toDestroy (v : list nat) (w : World) : World :=
  mkWorld (gameDataCallback w) (score w) (maxScore w) (isGameOver w) (tickIndex w) (gameObjects w) v (gameObjectId w) (gameMode w) (leftKeyPressed w) (rightKeyPressed w) (difficulty w) (nextObstacleIn w) (obstacleInterval w) (nextHumanIn w) (speed w) (strafeSpeed w) (env w).

Definition set_gameObjectId (v : nat) (w : World) : World :=
  mkWorld (gameDataCallback w) (score w) (maxScore w) (isGameOver w) (tickIndex w) (gameObjects w) (toDestroy w) v (gameMode w) (leftKeyPressed w) (rightKeyPressed w) (difficulty w) (nextObstacleIn w) (obstacleInterval w) (nextHumanIn w) (speed w) (strafeSpeed w) (env w).

Definition set_gameMode (v : GameMode) (w : World) : World :=
  mkWorld (gameDataCallback w) (score w) (maxScore w) (isGameOver w) (tickIndex w) (gameObjects w) (toDestroy w) (gameObjectId w) v (leftKeyPressed w) (rightKeyPressed w) (difficulty w) (nextObstacleIn w) (obstacleInterval w) (nextHumanIn w) (speed w) (strafeSpeed w) (env w).

Definition set_leftKeyPressed (v : bool) (w : World) : World :=
  mkWorld (gameDataCallback w) (score w) (maxScore w) (isGameOver w) (tickIndex w) (gameObjects w) (toDestroy w) (gameObjectId w) (gameMode w) v (rightKeyPressed w) (difficulty w) (nextObstacleIn w) (obstacleInterval w) (nextHumanIn w) (speed w) (strafeSpeed w) (env w).

Definition set_rightKeyPressed (v : bool) (w : World) : World :=
  mkWorld (gameDataCallback w) (score w) (maxScore w) (isGameOver w) (tickIndex w) (gameObjects w) (toDestroy w) (gameObjectId w) (gameMode w) (leftKeyPressed w) v (difficulty w) (nextObstacleIn w) (obstacleInterval w) (nextHumanIn w) (speed w) (strafeSpeed w) (env w).

Definition set_difficulty (v : Z) (w : World) : World :=
  mkWorld (gameDataCallback w) (score w) (maxScore w) (isGameOver w) (tickIndex w) (gameObjects w) (toDestroy w) (gameObjectId w) (gameMode w) (leftKeyPressed w) (rightKeyPressed w) v (nextObstacleIn w) (obstacleInterval w) (nextHumanIn w) (speed w) (strafeSpeed w) (env w).

Definition set_nextObstacleIn (v : Z) (w : World) : World :=
  mkWorld (gameDataCallback w) (score w) (maxScore w) (isGameOver w) (tickIndex w) (gameObjects w) (toDestroy w) (gameObjectId w) (gameMode w) (leftKeyPressed w) (rightKeyPressed w) (difficulty w) v (obstacleInterval w) (nextHumanIn w) (speed w) (strafeSpeed w) (env w).

Definition set_obstacleInterval (v : Z) (w : World) : World :=
  mkWorld (gameDataCallback w) (score w) (maxScore w) (isGameOver w) (tickIndex w) (gameObjects w) (toDestroy w) (gameObjectId w) (gameMode w) (leftKeyPressed w) (rightKeyPressed w) (difficulty w) (nextObstacleIn w) v (nextHumanIn w) (speed w) (strafeSpeed w) (env w).

Definition set_nextHumanIn (v : Z) (w : World) : World :=
  mkWorld (gameDataCallback w) (score w) (maxScore w) (isGameOver w) (tickIndex w) (gameObjects w) (toDestroy w) (gameObjectId w) (gameMode w) (leftKeyPressed w) (rightKeyPressed w) (difficulty w) (nextObstacleIn w) (obstacleInterval w) v (speed w) (strafeSpeed w) (env w).

Definition set_speed (v : Q) (w : World) : World :=
  mkWorld (gameDataCallback w) (score w) (maxScore w) (isGameOver w) (tickIndex w) (gameObjects w) (toDestroy w) (gameObjectId w) (gameMode w) (leftKeyPressed w) (rightKeyPressed w) (difficulty w) (nextObstacleIn w) (obstacleInterval w) (nextHumanIn w) v (strafeSpeed w) (env w).

Definition set_strafeSpeed (v : Q) (w : World) : World :=
  mkWorld (gameDataCallback w) (score w) (maxScore w) (isGameOver w) (tickIndex w) (gameObjects w) (toDestroy w) (gameObjectId w) (gameMode w) (leftKeyPressed w) (rightKeyPressed w) (difficulty w) (nextObstacleIn w) (obstacleInterval w) (nextHumanIn w) (speed w) v (env w).

Definition set_env (v : Env) (w : World) : World :=
  mkWorld (gameDataCallback w) (score w) (maxScore w) (isGameOver w) (tickIndex w) (gameObjects w) (toDestroy w) (gameObjectId w) (gameMode w) (leftKeyPressed w) (rightKeyPressed w) (difficulty w) (nextObstacleIn w) (obstacleInterval w) (nextHumanIn w) (speed w) (strafeSpeed w) v.

(** ** The object store *)

(** The key of an object in [gameObjects]: [gameObjectId.toString()]. *)
Definition key_of (n : nat) : string := NilZero.string_of_uint (Nat.to_uint n).

(** [gameObjects[id]]. *)
Fixpoint obj_lookup (n : nat) (l : list GameObject) : option GameObject :=
  match l with
  | [] => None
  | o :: l' => if Nat.eqb (go_id o) n then Some o else obj_lookup n l'
  end.

(** [gameObjects[id] = o]: a JavaScript object enumerates integer keys in
    ascending order, so the entry goes to its numeric position, replacing
    an entry with the same key. *)
Fixpoint obj_insert (o : GameObject) (l : list GameObject) : list GameObject :=
  match l with
  | [] => [o]
  | p :: l' =>
      if Nat.ltb (go_id o) (go_id p) then o :: l
      else if Nat.eqb (go_id o) (go_id p) then o :: l'
      else p :: obj_insert o l'
  end.

(** An assignment to a field of the stored object [gameObjects[id]]. *)
Definition obj_update (n : nat) (f : GameObject -> GameObject) (l : list GameObject)
  : list GameObject :=
  map (fun o => if Nat.eqb (go_id o) n then f o else o) l.

(** [delete gameObjects[id]]. *)
Definition obj_delete (n : nat) (l : list GameObject) : list GameObject :=
  filter (fun o => negb (Nat.eqb (go_id o) n)) l.

Definition ids (l : list GameObject) : list nat := map go_id l.

(** [createGameObject(gameObj)]. *)
Definition createGameObject (o : GameObject) (w : World) : World :=
  let n := gameObjectId w in
  set_gameObjectId (S n) (set_gameObjects (obj_insert (with_id o n) (gameObjects w)) w).

(** [destroyGameObject(gameObj)]: only marks the id. *)
Definition destroyGameObject (o : GameObject) (w : World) : World :=
  set_toDestroy (toDestroy w ++ [go_id o]) w.

(** [getCar()]: [gameObjects[1]], [undefined] when absent. *)
Definition getCar (w : World) : option GameObject := obj_lookup 1 (gameObjects w).

(** [getGameData()]; [gameOver: +isGameOver]. *)
Definition getGameData (w : World) : GameData :=
  mkGameData (speed w) (Qfloor (score w)) (tickIndex w) (maxScore w) (difficulty w)
    (if isGameOver w then 1%Z else 0%Z).

Definition update_env (f : Env -> Env) (w : World) : World := set_env (f (env w)) w.

(** The fields the difficulty schedule constrains, and with them the two
    fields of the score ledger and of the reap. *)
Definition knobs (w : World) : Z * Z * Q * Q * Z :=
  (tickIndex w, difficulty w, speed w, strafeSpeed w, obstacleInterval w).
Definition ledger (w : World) : (Z * Z * Q * Q * Z) * Q * list nat :=
  (knobs w, score w, toDestroy w).

(** The interval timers: the registered ids and the id [gameInterval]
    holds. *)
Definition timers (w : World) : list nat * nat := (intervals (env w), gameInterval (env w)).

(** What only [stop], [start], [setCallback] and [draw] change among the
    fields a tick could reach: [isGameOver], whether a callback is set, the
    timers and the renderer's state. *)
Definition outside (w : World) : bool * bool * (list nat * nat) * Drawer.DrawerState :=
  (isGameOver w, gameDataCallback w, timers w, drawer (env w)).

(** [wsimpl] computes field reads of updated worlds and nothing else. *)
Ltac wsimpl :=
  cbn [set_listeners set_intervals set_gameInterval set_frames
    set_animationFrame set_timer_seq set_storage set_callback_log set_canvas
    set_hud set_drawer set_rng_pos set_gameDataCallback set_score set_maxScore
    set_isGameOver set_tickIndex set_gameObjects set_toDestroy
    set_gameObjectId set_gameMode set_leftKeyPressed set_rightKeyPressed
    set_difficulty set_nextObstacleIn set_obstacleInterval set_nextHumanIn
    set_speed set_strafeSpeed set_env listeners intervals gameInterval
    frames animationFrame timer_seq storage callback_log canvas hud drawer
    rng_pos gameDataCallback score maxScore isGameOver tickIndex gameObjects
    toDestroy gameObjectId gameMode leftKeyPressed rightKeyPressed
    difficulty nextObstacleIn obstacleInterval nextHumanIn speed strafeSpeed
    env update_env] in *.

(** ** Well-formed stores: ids positive, strictly increasing, below the next id *)

Definition store_wf (next : nat) (l : list GameObject) : Prop :=
  Sorted lt (ids l) /\ Forall (fun n => 0 < n < next)%nat (ids l).

(** ** Lemmas on keys and the store *)

(** The decimal string of an id reads back as that id, so distinct ids
    have distinct keys. *)
Lemma key_of_parse (n : nat) :
  option_map Nat.of_uint (NilZero.uint_of_string (key_of n)) = Some n.
Proof.
  unfold key_of. destruct (Decimal.uint_eq_dec (Nat.to_uint n) Decimal.Nil) as [E|E].
  - rewrite E. simpl. f_equal. rewrite <- (DecimalNat.Unsigned.of_to n), E. reflexivity.
  - rewrite (NilZero.usu _ E). simpl. f_equal. apply DecimalNat.Unsigned.of_to.
Qed.

Lemma key_of_inj (a b : nat) : key_of a = key_of b -> a = b.
Proof.
  intro H. pose proof (key_of_parse a) as Ha. rewrite H, key_of_parse in Ha.
  congruence.
Qed.

Lemma obj_insert_fresh (o : GameObject) (l : list GameObject) :
  Forall (fun n => n < go_id o)%nat (ids l) -> obj_insert o l = l ++ [o].
Proof.
  induction l as [|p l IH]; simpl; intro H; [reflexivity|].
  inversion H as [|? ? Hp Hl]; subst.
  destruct (Nat.ltb_spec (go_id o) (go_id p)); [lia|].
  destruct (Nat.eqb_spec (go_id o) (go_id p)); [lia|].
  rewrite IH by exact Hl. reflexivity.
Qed.

Lemma ids_app (l l' : list GameObject) : ids (l ++ l') = ids l ++ ids l'.
Proof. apply map_app. Qed.

Lemma Sorted_lt_snoc (l : list nat) (n : nat) :
  Sorted lt l -> Forall (fun m => m < n)%nat l -> Sorted lt (l ++ [n]).
Proof.
  intros Hs Hf. apply Sorted_StronglySorted in Hs; [|intros a b c; lia].
  apply StronglySorted_Sorted.
  induction Hs as [|a l Hs IH Ha]; simpl; [repeat constructor|].
  inversion Hf as [|? ? Han Hl]; subst.
  constructor; [exact (IH Hl)|]. apply Forall_app. split; [exact Ha|]. constructor; [lia|constructor].
Qed.

Lemma Sorted_lt_filter {A} (g : A -> nat) (f : A -> bool) (l : list A) :
  Sorted lt (map g l) -> Sorted lt (map g (filter f l)).
Proof.
  intros Hs. apply Sorted_StronglySorted in Hs; [|intros a b c; lia].
  apply StronglySorted_Sorted.
  induction l as [|x l IH]; simpl in *; [constructor|].
  inversion Hs as [|? ? Hs' Hx]; subst.
  destruct (f x); simpl; [|exact (IH Hs')].
  constructor; [exact (IH Hs')|].
  rewrite Forall_forall in *. intros y Hy. apply in_map_iff in Hy as [z [<- Hz]].
  apply filter_In in Hz. apply Hx. apply in_map. tauto.
Qed.

Lemma Forall_filter_map {A} (P : nat -> Prop) (g : A -> nat) (f : A -> bool) (l : list A) :
  Forall P (map g l) -> Forall P (map g (filter f l)).
Proof.
  rewrite !Forall_forall. intros H y Hy. apply in_map_iff in Hy as [z [<- Hz]].
  apply filter_In in Hz. apply H, in_map. tauto.
Qed.

Lemma ids_obj_update (n : nat) (f : GameObject -> GameObject) (l : list GameObject) :
  (forall o, go_id (f o) = go_id o) -> ids (obj_update n f l) = ids l.
Proof.
  intro Hf. unfold ids, obj_update. rewrite map_map. apply map_ext.
  intro o. destruct (Nat.eqb (go_id o) n); auto.
Qed.

Lemma store_wf_mono (n m : nat) (l : list GameObject) :
  (n <= m)%nat -> store_wf n l -> store_wf m l.
Proof.
  intros Hle [Hs Hf]. split; [exact Hs|].
  eapply Forall_impl; [|exact Hf]. simpl. lia.
Qed.

(** [createGameObject] appends the new object under the next id and keeps
    the store well formed. *)
Lemma createGameObject_store (o : GameObject) (w : World) :
  (0 < gameObjectId w)%nat -> store_wf (gameObjectId w) (gameObjects w) ->
  gameObjects (createGameObject o w) = gameObjects w ++ [with_id o (gameObjectId w)] /\
  gameObjectId (createGameObject o w) = S (gameObjectId w) /\
  store_wf (gameObjectId (createGameObject o w)) (gameObjects (createGameObject o w)).
Proof.
  intros Hpos [Hs Hf]. unfold createGameObject; simpl.
  rewrite obj_insert_fresh.
  - split; [reflexivity|]. split; [reflexivity|]. split.
    + rewrite ids_app. apply Sorted_lt_snoc; [exact Hs|].
      eapply Forall_impl; [|exact Hf]. simpl. lia.
    + rewrite ids_app. apply Forall_app. split.
      * eapply Forall_impl; [|exact Hf]. simpl. lia.
      * constructor; [simpl; lia | constructor].
  - eapply Forall_impl; [|exact Hf]. simpl. lia.
Qed.

Lemma obj_lookup_update (n : nat) (f : GameObject -> GameObject) (l : list GameObject) :
  (forall o, go_id (f o) = go_id o) ->
  obj_lookup n (obj_update n f l) = option_map f (obj_lookup n l).
Proof.
  intro Hf. induction l as [|o l IH]; simpl; [reflexivity|].
  destruct (Nat.eqb_spec (go_id o) n) as [E|E]; simpl.
  - rewrite Hf. rewrite (proj2 (Nat.eqb_eq _ _) E). reflexivity.
  - rewrite (proj2 (Nat.eqb_neq _ _) E). exact IH.
Qed.

Lemma obj_lookup_In (n : nat) (l : list GameObject) (o : GameObject) :
  obj_lookup n l = Some o -> In o l /\ go_id o = n.
Proof.
  induction l as [|p l IH]; simpl; [discriminate|].
  destruct (Nat.eqb_spec (go_id p) n) as [E|E].
  - intros [= <-]. tauto.
  - intro H. destruct (IH H). tauto.
Qed.

Lemma Sorted_lt_app (xs ys : list nat) (a b : nat) :
  Sorted lt (xs ++ ys) -> In a xs -> In b ys -> (a < b)%nat.
Proof.
  intros Hs Ha Hb. apply Sorted_StronglySorted in Hs; [|intros x y z; lia].
  induction xs as [|x xs IH]; simpl in *; [contradiction|].
  inversion Hs as [|? ? Hs' Hx]; subst. destruct Ha as [<-|Ha]; [|exact (IH Hs' Ha)].
  rewrite Forall_forall in Hx. apply Hx, in_or_app. right. exact Hb.
Qed.

Lemma obj_lookup_map (n : nat) (g : GameObject -> GameObject) (l : list GameObject) :
  (forall o, go_id (g o) = go_id o) -> obj_lookup n (map g l) = option_map g (obj_lookup n l).
Proof.
  intro Hg. induction l as [|o l IH]; simpl; [reflexivity|].
  rewrite Hg. destruct (Nat.eqb (go_id o) n); [reflexivity|exact IH].
Qed.

Lemma obj_lookup_app (n : nat) (l l' : list GameObject) (o : GameObject) :
  obj_lookup n l = Some o -> obj_lookup n (l ++ l') = Some o.
Proof.
  induction l as [|p l IH]; simpl; [discriminate|].
  destruct (Nat.eqb (go_id p) n); [tauto|exact IH].
Qed.

Lemma obj_lookup_filter (n : nat) (f : GameObject -> bool) (l : list GameObject) (o : GameObject) :
  obj_lookup n l = Some o -> f o = true -> obj_lookup n (filter f l) = Some o.
Proof.
  induction l as [|p l IH]; simpl; [discriminate|].
  destruct (Nat.eqb_spec (go_id p) n) as [E|E].
  - intros [= ->] Hf. rewrite Hf. simpl. rewrite (proj2 (Nat.eqb_eq _ _) E). reflexivity.
  - intros H Hf. destruct (f p); simpl; [rewrite (proj2 (Nat.eqb_neq _ _) E)|]; auto.
Qed.

Lemma obj_lookup_ids (n : nat) (l : list GameObject) :
  In n (ids l) -> exists o, obj_lookup n l = Some o.
Proof.
  induction l as [|p l IH]; simpl; [tauto|].
  destruct (Nat.eqb_spec (go_id p) n); [eauto|]. intros [E|H]; [contradiction|exact (IH H)].
Qed.

Lemma Forall_obj_update (P : GameObject -> Prop) (n : nat) (f : GameObject -> GameObject)
    (l : list GameObject) :
  (forall o, In o l -> go_id o = n -> P o -> P (f o)) -> Forall P l -> Forall P (obj_update n f l).
Proof.
  intros Hf Hl. apply Forall_map, Forall_forall. intros o Ho.
  pose proof (proj1 (Forall_forall _ _) Hl o Ho) as Hp.
  destruct (Nat.eqb_spec (go_id o) n); [apply Hf|]; assumption.
Qed.

Lemma Forall_filter {A} (P : A -> Prop) (f : A -> bool) (l : list A) :
  Forall P l -> Forall P (filter f l).
Proof. rewrite !Forall_forall. intros H x Hx. apply filter_In in Hx. apply H, Hx. Qed.

#[export] Hint Resolve Sorted_lt_filter Forall_filter_map store_wf_mono : game.
#[export] Hint Rewrite ids_app : game_rw.

(** ** A decision procedure for [store_wf] *)

Fixpoint sorted_ltb (l : list nat) : bool :=
  match l with
  | a :: ((b :: _) as t) => Nat.ltb a b && sorted_ltb t
  | _ => true
  end.

Definition store_wfb (next : nat) (l : list GameObject) : bool :=
  sorted_ltb (ids l) && forallb (fun n => Nat.ltb 0 n && Nat.ltb n next) (ids l).

Lemma sorted_ltb_spec (l : list nat) : sorted_ltb l = true -> Sorted lt l.
Proof.
  induction l as [|a [|b l] IH]; simpl; intro H; [constructor|repeat constructor|].
  apply Bool.andb_true_iff in H as [Hab H]. constructor; [exact (IH H)|].
  constructor. apply Nat.ltb_lt, Hab.
Qed.

Lemma store_wfb_spec (next : nat) (l : list GameObject) :
  store_wfb next l = true -> store_wf next l.
Proof.
  unfold store_wfb. intro H. apply Bool.andb_true_iff in H as [Hs Hf].
  split; [apply sorted_ltb_spec, Hs|].
  apply Forall_forall. intros n Hn. eapply forallb_forall in Hf; [|exact Hn].
  apply Bool.andb_true_iff in Hf as [H1 H2]. apply Nat.ltb_lt in H1, H2. lia.
Qed.

Lemma store_wf_NoDup (next : nat) (l : list GameObject) : store_wf next l -> NoDup (ids l).
Proof.
  intros [Hs _]. apply Sorted_StronglySorted in Hs; [|intros a b c; lia].
  induction Hs as [|a l' Hs IH Ha]; constructor; [|exact IH].
  intro Hin. rewrite Forall_forall in Ha. specialize (Ha a Hin). lia.
Qed.

(** ** A sample world: a session one tick after [start], the car alone *)

Definition sample_env : Env :=
  mkEnv true [1%nat] 1 [2%nat] 2 3 (Some None) [] (Some (640, 480)) ui_initial Drawer.dr_initial 0.

Definition sample_world : World :=
  mkWorld false 0 (ScoreNum 0) false 0 [mkGameObject 1 OBJECT_TYPE_CAR 0 0 0] [] 2 MODE_ROBOCAR
          false false 0 0 INITIAL_OBSTACLE_INTERVAL 0 INITIAL_SPEED INITIAL_STRAFE_SPEED sample_env.
