(* ===== verification/Difficulty.v ===== *)
(** The difficulty controller, [updateDifficulty] of [src/src/Game.js]
    (lines 245-255), and its schedule invariant: in every state the tick
    loop reaches, [difficulty = min (tickIndex / 750) 9] and the speed, the
    strafe speed and the obstacle interval are the affine functions of it
    that [start] and the increments produce.  Consequences: the level rises
    by exactly one per threshold crossing, never past 9, and the obstacle
    interval never drops below 230 ticks. *)

From S2P Require Import Prelude Entity State.

(** [updateDifficulty()]. *)
Definition updateDifficulty (w : World) : World :=
  let new_difficulty := (tickIndex w / DIFFICULTY_UPDATE_INTERVAL)%Z in
  if (new_difficulty <=? MAX_DIFFICULTY)%Z && (difficulty w <? new_difficulty)%Z then
    let w := set_difficulty new_difficulty w in
    let w := set_speed (speed w + SPEED_INCREMENT) w in
    let w := set_strafeSpeed (strafeSpeed w + STRAFE_SPEED_INCREMENT) w in
    set_obstacleInterval (obstacleInterval w + OBSTACLE_INTERVAL_DECREMENT) w
  else w.

(** The level the schedule prescribes at tick [t]. *)
Definition level_at (t : Z) : Z := Z.min (t / DIFFICULTY_UPDATE_INTERVAL) MAX_DIFFICULTY.

(** The progression invariant. *)
Definition progression_inv (w : World) : Prop :=
  (0 <= tickIndex w)%Z /\
  difficulty w = level_at (tickIndex w) /\
  speed w == INITIAL_SPEED + inject_Z (difficulty w) * SPEED_INCREMENT /\
  strafeSpeed w == INITIAL_STRAFE_SPEED + inject_Z (difficulty w) * STRAFE_SPEED_INCREMENT /\
  obstacleInterval w = (INITIAL_OBSTACLE_INTERVAL + difficulty w * OBSTACLE_INTERVAL_DECREMENT)%Z.

(** ** Lemmas *)

(** The invariant reads only the schedule's fields. *)
Lemma progression_inv_knobs (w w' : World) :
  knobs w' = knobs w -> progression_inv w -> progression_inv w'.
Proof.
  unfold knobs, progression_inv. intros E. injection E as E1 E2 E3 E4 E5.
  rewrite E1, E2, E3, E4, E5. tauto.
Qed.

Lemma div_succ_bounds (t : Z) :
  (0 <= t)%Z -> (t / 750 <= (t + 1) / 750 <= t / 750 + 1)%Z.
Proof.
  intro Ht. split; [apply Z.div_le_mono; lia|].
  assert (750 * ((t + 1) / 750) <= t + 1)%Z by (apply Z.mul_div_le; lia).
  pose proof (Z.mod_pos_bound t 750 ltac:(lia)). pose proof (Z.div_mod t 750 ltac:(lia)).
  lia.
Qed.

Lemma level_at_succ (t : Z) :
  (0 <= t)%Z -> level_at (t + 1) = level_at t \/ level_at (t + 1) = (level_at t + 1)%Z.
Proof.
  intro Ht. pose proof (div_succ_bounds t Ht).
  unfold level_at, DIFFICULTY_UPDATE_INTERVAL, MAX_DIFFICULTY. lia.
Qed.

Lemma level_at_bounds (t : Z) : (0 <= t)%Z -> (0 <= level_at t <= MAX_DIFFICULTY)%Z.
Proof.
  intro Ht. unfold level_at, DIFFICULTY_UPDATE_INTERVAL, MAX_DIFFICULTY.
  pose proof (Z.div_pos t 750 Ht ltac:(lia)). lia.
Qed.

(** The three increments, in the order the code applies them. *)
Lemma updateDifficulty_fields (w : World) :
  let nd := (tickIndex w / DIFFICULTY_UPDATE_INTERVAL)%Z in
  ((nd <= MAX_DIFFICULTY)%Z /\ (difficulty w < nd)%Z /\
   updateDifficulty w =
     set_obstacleInterval (obstacleInterval w + OBSTACLE_INTERVAL_DECREMENT)
       (set_strafeSpeed (strafeSpeed w + STRAFE_SPEED_INCREMENT)
         (set_speed (speed w + SPEED_INCREMENT) (set_difficulty nd w))))
  \/ (~ ((nd <= MAX_DIFFICULTY)%Z /\ (difficulty w < nd)%Z) /\ updateDifficulty w = w).
Proof.
  simpl. unfold updateDifficulty.
  destruct (Z.leb_spec (tickIndex w / DIFFICULTY_UPDATE_INTERVAL) MAX_DIFFICULTY);
  destruct (Z.ltb_spec (difficulty w) (tickIndex w / DIFFICULTY_UPDATE_INTERVAL));
  simpl; [left; repeat split; assumption | right; split; [lia | reflexivity]..].
Qed.

Lemma updateDifficulty_tick (w : World) : tickIndex (updateDifficulty w) = tickIndex w.
Proof. destruct (updateDifficulty_fields w) as [(_ & _ & ->) | (_ & ->)]; reflexivity. Qed.

(** [updateDifficulty] touches the schedule's fields only. *)
Lemma updateDifficulty_store (w : World) :
  gameObjects (updateDifficulty w) = gameObjects w /\
  gameObjectId (updateDifficulty w) = gameObjectId w /\
  score (updateDifficulty w) = score w /\ toDestroy (updateDifficulty w) = toDestroy w.
Proof. destruct (updateDifficulty_fields w) as [(_ & _ & ->) | (_ & ->)]; repeat split. Qed.

(** One tick of the schedule keeps the progression invariant. *)
Lemma progression_inv_step (w : World) :
  progression_inv w ->
  progression_inv (updateDifficulty (set_tickIndex (tickIndex w + 1) w)).
Proof.
  intros (Ht & Hd & Hs & Hss & Hi).
  pose proof (level_at_bounds (tickIndex w) Ht) as Hb.
  pose proof (level_at_succ (tickIndex w) Ht) as Hl.
  pose proof (div_succ_bounds (tickIndex w) Ht) as Hdiv.
  destruct (updateDifficulty_fields (set_tickIndex (tickIndex w + 1) w))
    as [(H1 & H2 & ->) | (H1 & ->)]; unfold progression_inv; wsimpl.
  - unfold level_at, INITIAL_OBSTACLE_INTERVAL, OBSTACLE_INTERVAL_DECREMENT,
      DIFFICULTY_UPDATE_INTERVAL, MAX_DIFFICULTY in *.
    assert (Hd1 : ((tickIndex w + 1) / 750 = difficulty w + 1)%Z) by lia.
    repeat split; try lia.
    + rewrite Hs, Hd1. unfold INITIAL_SPEED, SPEED_INCREMENT. qsolve.
    + rewrite Hss, Hd1. unfold INITIAL_STRAFE_SPEED, STRAFE_SPEED_INCREMENT. qsolve.
  - unfold level_at, DIFFICULTY_UPDATE_INTERVAL, MAX_DIFFICULTY in *.
    repeat split; try assumption; lia.
Qed.

(** C12. The difficulty schedule: starting a tick ([tickIndex++]) and
    running [updateDifficulty] keeps [difficulty = min (tickIndex / 750) 9],
    with speed [0.04 + 0.007 d], strafe speed [0.025 + 0.0015 d] and obstacle
    interval [500 - 30 d]; the level never decreases and rises by at most
    one per tick, so the increments are applied exactly once per level. *)
Theorem updateDifficulty_schedule (w : World) :
  progression_inv w ->
  let w' := updateDifficulty (set_tickIndex (tickIndex w + 1) w) in
  progression_inv w' /\ (difficulty w' = difficulty w \/ difficulty w' = difficulty w + 1)%Z.
Proof.
  intros Hinv. cbv zeta. pose proof (progression_inv_step w Hinv) as Hs.
  split; [exact Hs|]. destruct Hs as (_ & Hd' & _). destruct Hinv as (Ht & Hd & _).
  rewrite Hd', Hd, updateDifficulty_tick. wsimpl. apply level_at_succ. exact Ht.
Qed.

(** Bounds that follow from the schedule: [0 <= difficulty <= 9] and the
    obstacle interval stays within [[230, 500]] ticks. *)
Lemma progression_bounds (w : World) :
  progression_inv w ->
  (0 <= difficulty w <= MAX_DIFFICULTY)%Z /\ (230 <= obstacleInterval w <= 500)%Z.
Proof.
  intros (Ht & Hd & _ & _ & Hi).
  pose proof (level_at_bounds _ Ht) as Hb. rewrite <- Hd in Hb.
  rewrite Hi. unfold INITIAL_OBSTACLE_INTERVAL, OBSTACLE_INTERVAL_DECREMENT, MAX_DIFFICULTY in *.
  lia.
Qed.

(** Tick 749 of the sample world moves to level 1. *)
Lemma updateDifficulty_schedule_witness :
  progression_inv (set_tickIndex 749 sample_world) /\
  (progression_inv (updateDifficulty (set_tickIndex (749 + 1) (set_tickIndex 749 sample_world))) /\
   (difficulty (updateDifficulty (set_tickIndex (749 + 1) (set_tickIndex 749 sample_world))) = 0 \/
    difficulty (updateDifficulty (set_tickIndex (749 + 1) (set_tickIndex 749 sample_world))) = 0 + 1)%Z) /\
  difficulty (updateDifficulty (set_tickIndex (749 + 1) (set_tickIndex 749 sample_world))) = 1%Z.
Proof.
  assert (H : progression_inv (set_tickIndex 749 sample_world)) by (unfold progression_inv; concrete).
  split; [exact H|]. split; [apply (updateDifficulty_schedule _ H)|reflexivity].
Defined.
