(* ===== verification/Movement.v ===== *)
(** Movement phases of a tick in [src/src/Game.js]: [updateCar] (lines
    257-266: steer by the key flags, then clamp into the lane), the walk of
    the humans at the end of [updateHumans] (lines 350-365: step by the
    signed speed, clamp at a lane border and reverse), and
    [updateGameObjects] (lines 368-376: every object but the car scrolls
    toward the viewer by [speed]).  [updateCar] and [updateGameObjects]
    read [getCar()] and throw a [TypeError] when the car is missing; they
    return [None] then. *)

From S2P Require Import Prelude Entity State.

(** ** [updateCar] *)

(** The steered position, before the clamp. *)
Definition steer (left right : bool) (strafe x : Q) : Q :=
  let x := if left then x - strafe else x in
  if right then x + strafe else x.

Definition updateCar (w : World) : option World :=
  match getCar w with
  | None => None
  | Some car =>
      let x := steer (leftKeyPressed w) (rightKeyPressed w) (strafeSpeed w) (go_x car) in
      let x := Qmax (SCENE_LEFT_BORDER + width car / 2)
                    (Qmin (SCENE_RIGHT_BORDER - width car / 2) x) in
      Some (set_gameObjects (obj_update 1 (fun o => with_x o x) (gameObjects w)) w)
  end.

(** ** The walk of the humans *)

(** One human's step: [x += speed], then the two border checks in order. *)
Definition walkHuman (o : GameObject) : GameObject :=
  let o := with_x o (go_x o + go_speed o) in
  let o := if go_x o <q SCENE_LEFT_BORDER + HUMAN_WIDTH / 2
           then with_speed (with_x o (SCENE_LEFT_BORDER + HUMAN_WIDTH / 2)) (go_speed o * -1)
           else o in
  if SCENE_RIGHT_BORDER - HUMAN_WIDTH / 2 <q go_x o
  then with_speed (with_x o (SCENE_RIGHT_BORDER - HUMAN_WIDTH / 2)) (go_speed o * -1)
  else o.

(** [Object.keys(gameObjects).forEach]: only humans move. *)
Definition walkHumans (l : list GameObject) : list GameObject :=
  map (fun o => if type_eqb (go_type o) OBJECT_TYPE_HUMAN then walkHuman o else o) l.

(** ** [updateGameObjects] *)

(** [if (id === car.id) return; gameObjects[id].z -= speed]: the car is
    looked up once per key, so an empty store never touches it. *)
Definition updateGameObjects (w : World) : option World :=
  match gameObjects w with
  | [] => Some w
  | _ =>
      match getCar w with
      | None => None
      | Some car =>
          Some (set_gameObjects
                  (map (fun o => if String.eqb (key_of (go_id o)) (key_of (go_id car))
                                 then o else with_z o (go_z o - speed w))
                       (gameObjects w)) w)
      end
  end.

(** ** Lemmas *)

Lemma getCar_update (w : World) (f : GameObject -> GameObject) :
  (forall o, go_id (f o) = go_id o) ->
  getCar (set_gameObjects (obj_update 1 f (gameObjects w)) w) = option_map f (getCar w).
Proof. intro Hf. unfold getCar. wsimpl. apply obj_lookup_update. exact Hf. Qed.

(** [updateCar] throws exactly when the car is missing. *)
Lemma updateCar_error (w : World) : updateCar w = None <-> getCar w = None.
Proof. unfold updateCar. destruct (getCar w); split; congruence. Qed.

(** C15. Lane containment of the car: when the car is present, [updateCar]
    succeeds, the car's new position is the steered position clamped into
    [[SCENE_LEFT_BORDER + CAR_WIDTH / 2, SCENE_RIGHT_BORDER - CAR_WIDTH / 2]],
    and so lies inside that interval whatever the keys and the strafe speed. *)
Theorem updateCar_lane (w : World) (car : GameObject) :
  getCar w = Some car -> go_type car = OBJECT_TYPE_CAR ->
  exists w' car',
    updateCar w = Some w' /\ getCar w' = Some car' /\
    go_x car' = clamp (SCENE_LEFT_BORDER + CAR_WIDTH / 2) (SCENE_RIGHT_BORDER - CAR_WIDTH / 2)
                  (steer (leftKeyPressed w) (rightKeyPressed w) (strafeSpeed w) (go_x car)) /\
    SCENE_LEFT_BORDER + CAR_WIDTH / 2 <= go_x car' <= SCENE_RIGHT_BORDER - CAR_WIDTH / 2.
Proof.
  intros Hc Ht. unfold updateCar. rewrite Hc.
  eexists; eexists; split; [reflexivity|].
  rewrite getCar_update by reflexivity. rewrite Hc. split; [reflexivity|].
  unfold width. rewrite Ht. simpl. split; [reflexivity|].
  apply clamp_bounds. unfold SCENE_LEFT_BORDER, SCENE_RIGHT_BORDER, CAR_WIDTH. qsolve.
Qed.

Definition HUMAN_LEFT : Q := SCENE_LEFT_BORDER + HUMAN_WIDTH / 2.
Definition HUMAN_RIGHT : Q := SCENE_RIGHT_BORDER - HUMAN_WIDTH / 2.

(** [walk_cases] runs through the two border checks of [walkHuman]. *)
Ltac walk_cases :=
  cbv zeta; unfold walkHuman, HUMAN_LEFT, HUMAN_RIGHT;
  assert (Hlr : SCENE_LEFT_BORDER + HUMAN_WIDTH / 2 < SCENE_RIGHT_BORDER - HUMAN_WIDTH / 2)
    by (unfold SCENE_LEFT_BORDER, SCENE_RIGHT_BORDER, HUMAN_WIDTH; qsolve);
  set (L := SCENE_LEFT_BORDER + HUMAN_WIDTH / 2) in *;
  set (R := SCENE_RIGHT_BORDER - HUMAN_WIDTH / 2) in *;
  simpl; qcase; cbn [go_x go_speed with_x with_speed] in *; qcase;
  cbn [go_x go_speed go_id go_type go_z with_x with_speed] in *;
  repeat split; intros; try qsolve; reflexivity.

(** A walking human keeps its id, type and depth and ends between the
    lane's inner borders. *)
Lemma walkHuman_frame (o : GameObject) :
  let o' := walkHuman o in
  HUMAN_LEFT <= go_x o' <= HUMAN_RIGHT /\
  go_id o' = go_id o /\ go_type o' = go_type o /\ go_z o' = go_z o.
Proof. walk_cases. Qed.

(** C16. The bounce of a human: its step [x + speed] is kept when it stays
    within the lane's inner borders; past a border the human is put exactly
    on that border and its speed is reversed on the same tick.  In every
    case the new position lies between the borders. *)
Theorem walkHuman_bounce (o : GameObject) :
  let x1 := go_x o + go_speed o in
  let o' := walkHuman o in
  (x1 < HUMAN_LEFT -> go_x o' = HUMAN_LEFT /\ go_speed o' == - go_speed o) /\
  (HUMAN_RIGHT < x1 -> go_x o' = HUMAN_RIGHT /\ go_speed o' == - go_speed o) /\
  (HUMAN_LEFT <= x1 <= HUMAN_RIGHT -> go_x o' = x1 /\ go_speed o' = go_speed o) /\
  HUMAN_LEFT <= go_x o' <= HUMAN_RIGHT /\
  go_id o' = go_id o /\ go_type o' = go_type o /\ go_z o' = go_z o.
Proof.
  pose proof (walkHuman_frame o) as F. cbv zeta in F |- *.
  splits; try apply F; clear F; walk_cases.
Qed.

Lemma ids_walkHumans (l : list GameObject) : ids (walkHumans l) = ids l.
Proof.
  unfold ids, walkHumans. rewrite map_map. apply map_ext. intro o.
  destruct (type_eqb (go_type o) OBJECT_TYPE_HUMAN); [|reflexivity].
  apply (walkHuman_frame o).
Qed.

(** After the walk every human stands between the lane's inner borders. *)
Lemma walkHumans_lane (l : list GameObject) :
  Forall (fun o => go_type o = OBJECT_TYPE_HUMAN -> HUMAN_LEFT <= go_x o <= HUMAN_RIGHT)
         (walkHumans l).
Proof.
  apply Forall_forall. intros o Ho Ht. unfold walkHumans in Ho.
  apply in_map_iff in Ho as [p [<- Hp]].
  unfold type_eqb in *. destruct (ObjectType_eq_dec (go_type p) OBJECT_TYPE_HUMAN).
  - apply (walkHuman_frame p).
  - congruence.
Qed.

(** [updateGameObjects] with the car present: every other object's depth
    drops by [speed]; the car and the ids are untouched. *)
Lemma updateGameObjects_spec (w : World) (car : GameObject) :
  getCar w = Some car ->
  updateGameObjects w =
    Some (set_gameObjects
            (map (fun o => if Nat.eqb (go_id o) 1 then o else with_z o (go_z o - speed w))
                 (gameObjects w)) w).
Proof.
  intro Hc. unfold updateGameObjects.
  pose proof (obj_lookup_In _ _ _ Hc) as [_ Hid].
  destruct (gameObjects w) as [|o l] eqn:E; [unfold getCar in Hc; rewrite E in Hc; discriminate|].
  rewrite Hc, <- E. do 2 f_equal. apply map_ext. intro p.
  rewrite Hid. destruct (Nat.eqb_spec (go_id p) 1) as [->|Hne].
  - rewrite String.eqb_refl. reflexivity.
  - destruct (String.eqb_spec (key_of (go_id p)) (key_of 1)) as [Hk|]; [|reflexivity].
    apply key_of_inj in Hk. contradiction.
Qed.

#[export] Hint Rewrite ids_walkHumans : game_rw.

(** The sample car steered left at full strafe speed. *)
(** Both phases only rewrite the store. *)
Lemma updateCar_outside (w w' : World) : updateCar w = Some w' -> outside w' = outside w.
Proof. unfold updateCar. destruct (getCar w); intro E; inversion E; reflexivity. Qed.

Lemma updateGameObjects_outside (w w' : World) : updateGameObjects w = Some w' -> outside w' = outside w.
Proof.
  unfold updateGameObjects. destruct (gameObjects w); [intro E; inversion E; reflexivity|].
  destruct (getCar w); intro E; inversion E; reflexivity.
Qed.

Lemma updateCar_lane_witness :
  getCar (set_leftKeyPressed true sample_world) = Some (mkGameObject 1 OBJECT_TYPE_CAR 0 0 0) /\
  exists w' car',
    updateCar (set_leftKeyPressed true sample_world) = Some w' /\ getCar w' = Some car' /\
    go_x car' = clamp (SCENE_LEFT_BORDER + CAR_WIDTH / 2) (SCENE_RIGHT_BORDER - CAR_WIDTH / 2)
                  (steer true false INITIAL_STRAFE_SPEED 0) /\
    SCENE_LEFT_BORDER + CAR_WIDTH / 2 <= go_x car' <= SCENE_RIGHT_BORDER - CAR_WIDTH / 2.
Proof.
  split; [reflexivity|].
  apply (updateCar_lane (set_leftKeyPressed true sample_world) (mkGameObject 1 OBJECT_TYPE_CAR 0 0 0));
    reflexivity.
Defined.
