(* ===== verification/Spawner.v ===== *)
(** The spawner of [src/src/Game.js]: [updateObstacles] (lines 268-312)
    and [updateHumans] (lines 314-366), split as the code reads into the
    countdown guard, the creation block ([spawnObstacles], [spawnHuman]) and,
    for humans, the walk of [Movement.walkHumans].  Random draws are taken
    from the world's cursor in program order.  The theorems: a batch of
    obstacles has between 1 and 5 members, always fewer than the 6 lane
    slots, all inside the lane, and re-arms the countdown to the current
    interval; a human is created only where it overlaps no live obstacle,
    and a rejected candidate leaves the countdown expired so that the next
    tick retries. *)

From S2P Require Import Prelude Entity Random State Movement.

Section Spawner.
Variable rnd : Rng.

(** A random helper run on the world's cursor. *)
Definition draw {A} (f : nat -> A * nat) (w : World) : A * World :=
  let '(a, c) := f (rng_pos (env w)) in (a, update_env (set_rng_pos c) w).

(** ** Obstacles *)

(** The interpolated bounds, rounded: [Math.round(min)], [Math.round(max)]. *)
Definition obstacle_count_min (d : Z) : Z :=
  Qround_js (inject_Z (SCALE_HIGH_MIN_OBSTACLES_COUNT - SCALE_LOW_MIN_OBSTACLES_COUNT)
               / inject_Z MAX_DIFFICULTY * inject_Z d + inject_Z SCALE_LOW_MIN_OBSTACLES_COUNT).
Definition obstacle_count_max (d : Z) : Z :=
  Qround_js (inject_Z (SCALE_HIGH_MAX_OBSTACLES_COUNT - SCALE_LOW_MAX_OBSTACLES_COUNT)
               / inject_Z MAX_DIFFICULTY * inject_Z d + inject_Z SCALE_LOW_MAX_OBSTACLES_COUNT).

(** [Math.floor((SCENE_RIGHT_BORDER - SCENE_LEFT_BORDER) / OBSTACLE_WIDTH)]. *)
Definition max_obstacles_count : Z :=
  Qfloor ((SCENE_RIGHT_BORDER - SCENE_LEFT_BORDER) / OBSTACLE_WIDTH).

(** [obstacles.push(i < count ? 1 : 0)] for [i < max_obstacles_count]. *)
Definition slot_flags (count : Z) : JsArray :=
  map (fun i => Some (if (Z.of_nat i <? count)%Z then 1%Z else 0%Z))
      (seq 0 (Z.to_nat max_obstacles_count)).

(** The second loop, over the values [obstacles[i]] it reads: one
    obstacle per truthy slot [i], at the slot's
    centre and [SCENE_DEPTH], offset by [+-OBSTACLE_WIDTH * i] when the
    batch is stair-like (one [randomBool()] per obstacle). *)
Fixpoint placeObstacles (slots : list (option Z)) (i : nat) (stairLike : bool) (w : World) : World :=
  match slots with
  | [] => w
  | s :: rest =>
      let w :=
        if truthy s then
          let x := SCENE_LEFT_BORDER + OBSTACLE_WIDTH / 2 + OBSTACLE_WIDTH * inject_Z (Z.of_nat i) in
          let '(z, w) :=
            if stairLike then
              let inc := OBSTACLE_WIDTH * inject_Z (Z.of_nat i) in
              let '(b, w) := draw (randomBool rnd) w in
              (SCENE_DEPTH + (if b then inc * -1 else inc), w)
            else (SCENE_DEPTH, w) in
          let w := createGameObject (Obstacle x z) w in
          set_nextObstacleIn (obstacleInterval w) w
        else w in
      placeObstacles rest (S i) stairLike w
  end.

(** The block under [if (nextObstacleIn <= 0)]. *)
Definition spawnObstacles (w : World) : World :=
  let min := obstacle_count_min (difficulty w) in
  let max := obstacle_count_max (difficulty w) in
  let '(count, w) := draw (randomInt rnd (inject_Z min) (Some (inject_Z (max + 1)))) w in
  let '(obstacles, w) := draw (shuffle rnd (slot_flags count)) w in
  let '(stairLike, w) := draw (randomBool rnd) w in
  placeObstacles (map (js_get obstacles) (seq 0 (Z.to_nat max_obstacles_count))) 0 stairLike w.

Definition updateObstacles (w : World) : World :=
  if (tickIndex w <? FIRST_OBSTACLE_TICK)%Z then w
  else
    let w := set_nextObstacleIn (nextObstacleIn w - 1) w in
    if (nextObstacleIn w <=? 0)%Z then spawnObstacles w else w.

(** ** Humans *)

(** The candidate and its test against every obstacle. *)
Definition collidesWithObstacle (h : GameObject) (l : list GameObject) : bool :=
  existsb (fun o => type_eqb (go_type o) OBJECT_TYPE_OBSTACLE && checkCollision h o) l.

(** The block under [if (nextHumanIn <= 0)]. *)
Definition spawnHuman (w : World) : World :=
  let max := SCENE_RIGHT_BORDER - HUMAN_WIDTH / 2 in
  let min := SCENE_LEFT_BORDER + HUMAN_WIDTH / 2 in
  let '(x, w) := draw (random rnd min (Some max)) w in
  let z := SCENE_DEPTH in
  let '(human_speed, w) := draw (random rnd HUMAN_MIN_SPEED (Some HUMAN_MAX_SPEED)) w in
  let '(b, w) := draw (randomBool rnd) w in
  let human_speed := if b then human_speed * -1 else human_speed in
  let human := Human x z human_speed in
  if negb (collidesWithObstacle human (gameObjects w)) then
    let w := createGameObject human w in
    let '(n, w) := draw (randomInt rnd (inject_Z MIN_HUMAN_INTERVAL)
                                       (Some (inject_Z MAX_HUMAN_INTERVAL))) w in
    set_nextHumanIn n w
  else w.

Definition updateHumans (w : World) : World :=
  if (tickIndex w <? FIRST_HUMAN_TICK)%Z then w
  else
    let w := set_nextHumanIn (nextHumanIn w - 1) w in
    let w := if (nextHumanIn w <=? 0)%Z then spawnHuman w else w in
    set_gameObjects (walkHumans (gameObjects w)) w.

End Spawner.

(** ** Lemmas *)

Section SpawnerFacts.
Variable rnd : Rng.

Lemma draw_fields {A} (f : nat -> A * nat) (w : World) :
  gameObjects (snd (draw f w)) = gameObjects w /\
  gameObjectId (snd (draw f w)) = gameObjectId w /\
  obstacleInterval (snd (draw f w)) = obstacleInterval w /\
  nextObstacleIn (snd (draw f w)) = nextObstacleIn w /\
  nextHumanIn (snd (draw f w)) = nextHumanIn w /\
  difficulty (snd (draw f w)) = difficulty w /\
  tickIndex (snd (draw f w)) = tickIndex w.
Proof. unfold draw. destruct (f (rng_pos (env w))). repeat split. Qed.

Definition occupied (slots : list (option Z)) : nat :=
  length (filter truthy slots).

(** An obstacle at the centre of slot [k]. *)
Definition at_slot (lo hi : nat) (o : GameObject) : Prop :=
  go_type o = OBJECT_TYPE_OBSTACLE /\
  exists k : nat, (lo <= k < hi)%nat /\
    go_x o = SCENE_LEFT_BORDER + OBSTACLE_WIDTH / 2 + OBSTACLE_WIDTH * inject_Z (Z.of_nat k).

Lemma at_slot_mono (lo lo' hi hi' : nat) (o : GameObject) :
  (lo' <= lo)%nat -> (hi <= hi')%nat -> at_slot lo hi o -> at_slot lo' hi' o.
Proof. intros H1 H2 [Ht [k [Hk Hx]]]. split; [exact Ht|]. exists k. split; [lia|exact Hx]. Qed.

(** The placement loop appends one obstacle per occupied slot, each at
    the centre of its slot, and re-arms the countdown when it places one. *)
Lemma placeObstacles_spec (slots : list (option Z)) (i : nat) (stairLike : bool) (w : World) :
  (0 < gameObjectId w)%nat -> store_wf (gameObjectId w) (gameObjects w) ->
  let w' := placeObstacles rnd slots i stairLike w in
  exists new,
    gameObjects w' = gameObjects w ++ new /\
    length new = occupied slots /\
    Forall (at_slot i (i + length slots)) new /\
    gameObjectId w' = (gameObjectId w + length new)%nat /\
    store_wf (gameObjectId w') (gameObjects w') /\
    obstacleInterval w' = obstacleInterval w /\
    (new <> [] -> nextObstacleIn w' = obstacleInterval w) /\
    (new = [] -> nextObstacleIn w' = nextObstacleIn w).
Proof.
  revert i w. induction slots as [|s rest IH]; intros i w Hpos Hwf; simpl.
  - exists []. rewrite app_nil_r.
    split; [reflexivity|]. split; [reflexivity|]. split; [constructor|].
    split; [simpl; lia|]. split; [exact Hwf|]. split; [reflexivity|].
    split; [congruence|reflexivity].
  - unfold occupied; simpl. destruct (truthy s); simpl; cycle 1.
    + destruct (IH (S i) w Hpos Hwf) as (new & H1 & H2 & H3 & H4 & H5 & H6 & H7 & H8).
      exists new. split; [exact H1|]. split; [exact H2|]. split.
      * eapply Forall_impl; [|exact H3]. intros o. apply at_slot_mono; simpl; lia.
      * tauto.
    + set (x := SCENE_LEFT_BORDER + OBSTACLE_WIDTH / 2 + OBSTACLE_WIDTH * inject_Z (Z.of_nat i)).
      set (zw := if stairLike then _ else _).
      assert (Hzw : gameObjects (snd zw) = gameObjects w /\ gameObjectId (snd zw) = gameObjectId w /\
                    obstacleInterval (snd zw) = obstacleInterval w).
      { unfold zw. destruct stairLike; [|repeat split].
        destruct (draw (randomBool rnd) w) as [b wb] eqn:Ed.
        pose proof (draw_fields (randomBool rnd) w) as Hd. rewrite Ed in Hd. simpl in Hd |- *.
        tauto. }
      destruct zw as [z w1]. simpl in Hzw. destruct Hzw as (Hz1 & Hz2 & Hz3).
      rewrite <- Hz2 in Hpos. rewrite <- Hz1, <- Hz2 in Hwf.
      destruct (createGameObject_store (Obstacle x z) w1 Hpos Hwf) as (C1 & C2 & C3).
      set (w2 := set_nextObstacleIn _ _).
      assert (Hpos2 : (0 < gameObjectId w2)%nat) by (unfold w2; wsimpl; lia).
      assert (Hwf2 : store_wf (gameObjectId w2) (gameObjects w2)) by (unfold w2; wsimpl; exact C3).
      destruct (IH (S i) w2 Hpos2 Hwf2) as (new & H1 & H2 & H3 & H4 & H5 & H6 & H7 & H8).
      exists (with_id (Obstacle x z) (gameObjectId w1) :: new).
      unfold w2 in *; wsimpl. rewrite C1 in H1. rewrite C2 in H4.
      split; [|split; [|split; [|split; [|split; [|split; [|split]]]]]].
      * rewrite H1, Hz1, <- app_assoc. reflexivity.
      * simpl. rewrite H2. reflexivity.
      * constructor.
        -- split; [reflexivity|]. exists i. split; [lia|reflexivity].
        -- eapply Forall_impl; [|exact H3]. intros o. apply at_slot_mono; simpl; lia.
      * rewrite H4, <- Hz2. simpl. lia.
      * exact H5.
      * rewrite H6. unfold obstacleInterval at 1. simpl. exact Hz3.
      * intros _. destruct new as [|o new].
        -- rewrite H8 by reflexivity. unfold createGameObject. wsimpl. exact Hz3.
        -- rewrite H7 by discriminate. unfold createGameObject. wsimpl. exact Hz3.
      * discriminate.
Qed.

Lemma draw_fst {A} (f : nat -> A * nat) (w : World) :
  fst (draw f w) = fst (f (rng_pos (env w))).
Proof. unfold draw. destruct (f (rng_pos (env w))). reflexivity. Qed.

(** Over the difficulty range the rounded bounds satisfy
    [1 <= min <= max <= 5]. *)
Lemma obstacle_count_range (d : Z) :
  (0 <= d <= MAX_DIFFICULTY)%Z ->
  (1 <= obstacle_count_min d <= obstacle_count_max d /\ obstacle_count_max d <= 5)%Z.
Proof.
  unfold MAX_DIFFICULTY. intro Hd.
  assert (d = 0 \/ d = 1 \/ d = 2 \/ d = 3 \/ d = 4 \/ d = 5 \/ d = 6 \/ d = 7 \/ d = 8 \/ d = 9)%Z
    as Hc by lia.
  repeat destruct Hc as [->|Hc]; [..|subst]; vm_compute; repeat split; discriminate.
Qed.

Lemma slot_flags_occupied (c : Z) :
  (0 <= c <= 6)%Z -> occupied (slot_flags c) = Z.to_nat c /\ length (slot_flags c) = 6%nat.
Proof.
  intro Hc.
  assert (c = 0 \/ c = 1 \/ c = 2 \/ c = 3 \/ c = 4 \/ c = 5 \/ c = 6)%Z as H by lia.
  repeat destruct H as [->|H]; [..|subst]; split; reflexivity.
Qed.

(** Slot centres lie in the lane, half an obstacle inside each border. *)
Lemma at_slot_lane (o : GameObject) :
  at_slot 0 6 o ->
  SCENE_LEFT_BORDER + OBSTACLE_WIDTH / 2 <= go_x o <= SCENE_RIGHT_BORDER - OBSTACLE_WIDTH / 2.
Proof.
  intros [_ [k [Hk ->]]].
  assert (0 <= inject_Z (Z.of_nat k) <= 5).
  { split; [change 0 with (inject_Z 0)|change 5 with (inject_Z 5)]; rewrite <- Zle_Qle; lia. }
  unfold SCENE_LEFT_BORDER, SCENE_RIGHT_BORDER, OBSTACLE_WIDTH. qsolve.
Qed.

(** The spawner never touches the schedule, the score or the marks. *)
Lemma draw_ledger {A} (f : nat -> A * nat) (w : World) : ledger (snd (draw f w)) = ledger w.
Proof. unfold draw. destruct (f (rng_pos (env w))). reflexivity. Qed.

Lemma placeObstacles_ledger (slots : list (option Z)) (i : nat) (stairLike : bool) (w : World) :
  ledger (placeObstacles rnd slots i stairLike w) = ledger w.
Proof.
  revert i w. induction slots as [|s rest IH]; intros i w; simpl; [reflexivity|].
  rewrite IH. destruct (truthy s); [|reflexivity].
  set (zw := if stairLike then _ else _).
  assert (E : ledger (snd zw) = ledger w).
  { unfold zw. destruct stairLike; reflexivity. }
  destruct zw as [z w1]. exact E.
Qed.

Lemma spawnObstacles_ledger (w : World) : ledger (spawnObstacles rnd w) = ledger w.
Proof.
  unfold spawnObstacles.
  repeat match goal with
         | |- context [draw ?f ?w0] =>
             let E := fresh "E" in pose proof (draw_ledger f w0) as E; destruct (draw f w0); cbn [snd] in E
         end.
  rewrite placeObstacles_ledger. congruence.
Qed.

Lemma spawnHuman_ledger (w : World) : ledger (spawnHuman rnd w) = ledger w.
Proof.
  unfold spawnHuman.
  repeat match goal with
         | |- context [draw ?f ?w0] =>
             let E := fresh "E" in pose proof (draw_ledger f w0) as E; destruct (draw f w0); cbn [snd] in E
         end.
  lazymatch goal with |- ledger (if ?c then _ else _) = _ => destruct c end; [|congruence].
  change (ledger (createGameObject _ ?w0)) with (ledger w0) in *.
  change (ledger (set_nextHumanIn _ ?w0)) with (ledger w0). congruence.
Qed.

(** The spawner moves only the cursor of [Math.random] in the
    environment: the timers, the renderer and [isGameOver] are left alone. *)
Lemma draw_outside {A} (f : nat -> A * nat) (w : World) : outside (snd (draw f w)) = outside w.
Proof. unfold draw. destruct (f (rng_pos (env w))). reflexivity. Qed.

Ltac outside_draws :=
  repeat match goal with
         | |- context [draw ?f ?w0] =>
             let E := fresh "E" in pose proof (draw_outside f w0) as E; destruct (draw f w0); cbn [snd] in E
         end.

Lemma placeObstacles_outside (slots : list (option Z)) (i : nat) (stairLike : bool) (w : World) :
  outside (placeObstacles rnd slots i stairLike w) = outside w.
Proof.
  revert i w. induction slots as [|s rest IH]; intros i w; simpl; [reflexivity|].
  rewrite IH. destruct (truthy s); [|reflexivity].
  destruct stairLike; reflexivity.
Qed.

Lemma updateObstacles_outside (w : World) : outside (updateObstacles rnd w) = outside w.
Proof.
  unfold updateObstacles. destruct (tickIndex w <? FIRST_OBSTACLE_TICK)%Z; [reflexivity|].
  destruct (_ <=? 0)%Z; [|reflexivity]. unfold spawnObstacles.
  outside_draws. rewrite placeObstacles_outside. unfold outside, timers in *. wsimpl. congruence.
Qed.

Lemma updateHumans_outside (w : World) : outside (updateHumans rnd w) = outside w.
Proof.
  unfold updateHumans. destruct (tickIndex w <? FIRST_HUMAN_TICK)%Z; [reflexivity|].
  destruct (_ <=? 0)%Z; [|reflexivity]. unfold spawnHuman.
  outside_draws. unfold createGameObject, outside, timers in *. destruct (negb _); wsimpl; congruence.
Qed.

Hypothesis Hrnd : rng_ok rnd.

Lemma spawnObstacles_batch (w : World) :
  (0 <= difficulty w <= MAX_DIFFICULTY)%Z ->
  (0 < gameObjectId w)%nat -> store_wf (gameObjectId w) (gameObjects w) ->
  let w' := spawnObstacles rnd w in
  exists new,
    gameObjects w' = gameObjects w ++ new /\
    (1 <= length new <= 5)%nat /\
    Forall (at_slot 0 6) new /\
    nextObstacleIn w' = obstacleInterval w /\
    gameObjectId w' = (gameObjectId w + length new)%nat /\
    store_wf (gameObjectId w') (gameObjects w').
Proof.
  intros Hd Hpos Hwf. unfold spawnObstacles. cbv zeta.
  destruct (obstacle_count_range _ Hd) as [[Hmin Hmm] Hmax].
  set (fcount := randomInt rnd _ _).
  pose proof (draw_fst fcount w) as Ec. pose proof (draw_fields fcount w) as F1.
  destruct (draw fcount w) as [count w1]. cbn [fst snd] in Ec, F1.
  assert (Hcount : (obstacle_count_min (difficulty w) <= count <= obstacle_count_max (difficulty w))%Z).
  { rewrite Ec. unfold fcount.
    pose proof (randomInt_range rnd Hrnd (obstacle_count_min (difficulty w))
                  (obstacle_count_max (difficulty w) + 1) (rng_pos (env w)) ltac:(lia)). lia. }
  destruct (slot_flags_occupied count ltac:(lia)) as [Occ Len].
  set (fshuf := shuffle rnd (slot_flags count)).
  pose proof (draw_fst fshuf w1) as Es. pose proof (draw_fields fshuf w1) as F2.
  destruct (draw fshuf w1) as [obstacles w2]. cbn [fst snd] in Es, F2.
  assert (Hperm : Permutation obstacles (slot_flags count)).
  { rewrite Es. unfold fshuf, shuffle. apply (shuffle_loop_perm rnd Hrnd). lia. }
  assert (Hocc : occupied obstacles = Z.to_nat count).
  { rewrite <- Occ. apply Permutation_filter_length. exact Hperm. }
  assert (Hlen : length obstacles = 6%nat) by (rewrite (Permutation_length Hperm); exact Len).
  replace (map (js_get obstacles) (seq 0 (Z.to_nat max_obstacles_count))) with obstacles
    by (rewrite <- (js_get_seq obstacles), Hlen; reflexivity).
  pose proof (draw_fields (randomBool rnd) w2) as F3.
  destruct (draw (randomBool rnd) w2) as [stairLike w3]. cbn [fst snd] in F3.
  destruct F1 as (A1 & B1 & C1 & _), F2 as (A2 & B2 & C2 & _), F3 as (A3 & B3 & C3 & _).
  assert (Hpos3 : (0 < gameObjectId w3)%nat) by congruence.
  assert (Hwf3 : store_wf (gameObjectId w3) (gameObjects w3)) by congruence.
  destruct (placeObstacles_spec obstacles 0 stairLike w3 Hpos3 Hwf3)
    as (new & H1 & H2 & H3 & H4 & H5 & H6 & H7 & H8).
  exists new. rewrite Hlen in H3. simpl in H3.
  split; [congruence|]. split; [rewrite H2, Hocc; lia|]. split; [exact H3|].
  split; [rewrite H7; [congruence|]; intros ->; simpl in H2; lia|].
  split; [congruence|exact H5].
Qed.

(** C14. One batch of obstacles: once the obstacle phase is active and the
    countdown expires, [updateObstacles] appends between 1 and 5
    obstacles, always fewer than the 6 slots of the lane, each centred
    in a slot inside the lane, and re-arms the countdown to the current
    obstacle interval. *)
Theorem updateObstacles_batch (w : World) :
  (0 <= difficulty w <= MAX_DIFFICULTY)%Z ->
  (0 < gameObjectId w)%nat -> store_wf (gameObjectId w) (gameObjects w) ->
  (FIRST_OBSTACLE_TICK <= tickIndex w)%Z -> (nextObstacleIn w <= 1)%Z ->
  let w' := updateObstacles rnd w in
  exists new,
    gameObjects w' = gameObjects w ++ new /\
    (1 <= length new <= 5)%nat /\ (5 < Z.to_nat max_obstacles_count)%nat /\
    Forall (fun o => go_type o = OBJECT_TYPE_OBSTACLE /\
                     SCENE_LEFT_BORDER + OBSTACLE_WIDTH / 2 <= go_x o <=
                     SCENE_RIGHT_BORDER - OBSTACLE_WIDTH / 2) new /\
    nextObstacleIn w' = obstacleInterval w.
Proof.
  intros Hd Hpos Hwf Ht Hn. unfold updateObstacles.
  destruct (Z.ltb_spec (tickIndex w) FIRST_OBSTACLE_TICK) as [|_]; [lia|].
  wsimpl. destruct (Z.leb_spec (nextObstacleIn w - 1) 0) as [_|]; [|lia].
  destruct (spawnObstacles_batch (set_nextObstacleIn (nextObstacleIn w - 1) w) Hd Hpos Hwf)
    as (new & H1 & H2 & H3 & H4 & _).
  exists new. split; [exact H1|]. split; [lia|]. split; [vm_compute; lia|]. split; [|exact H4].
  eapply Forall_impl; [|exact H3]. intros o Ho. split; [apply Ho|]. apply at_slot_lane, Ho.
Qed.

(** Outside its active window the obstacle phase leaves the world as it
    is; before the countdown expires it only decrements it. *)
Lemma updateObstacles_idle (w : World) :
  ((tickIndex w < FIRST_OBSTACLE_TICK)%Z -> updateObstacles rnd w = w) /\
  ((FIRST_OBSTACLE_TICK <= tickIndex w)%Z -> (1 < nextObstacleIn w)%Z ->
   updateObstacles rnd w = set_nextObstacleIn (nextObstacleIn w - 1) w).
Proof.
  unfold updateObstacles. split; intros Ht.
  - destruct (Z.ltb_spec (tickIndex w) FIRST_OBSTACLE_TICK); [reflexivity|lia].
  - intro Hn. destruct (Z.ltb_spec (tickIndex w) FIRST_OBSTACLE_TICK); [lia|].
    wsimpl. destruct (Z.leb_spec (nextObstacleIn w - 1) 0); [lia|reflexivity].
Qed.

(** The obstacle phase in every case: it appends a (possibly empty) batch
    of obstacles at slot centres under fresh ids and leaves the schedule,
    the score and the marks alone. *)
Lemma updateObstacles_grows (w : World) :
  (0 <= difficulty w <= MAX_DIFFICULTY)%Z ->
  (0 < gameObjectId w)%nat -> store_wf (gameObjectId w) (gameObjects w) ->
  let w' := updateObstacles rnd w in
  exists new,
    gameObjects w' = gameObjects w ++ new /\ Forall (at_slot 0 6) new /\
    gameObjectId w' = (gameObjectId w + length new)%nat /\
    store_wf (gameObjectId w') (gameObjects w') /\ ledger w' = ledger w.
Proof.
  intros Hd Hpos Hwf. unfold updateObstacles.
  destruct (tickIndex w <? FIRST_OBSTACLE_TICK)%Z;
    [exists []; rewrite app_nil_r, Nat.add_0_r; repeat split; auto; apply Hwf|].
  set (w1 := set_nextObstacleIn (nextObstacleIn w - 1)%Z w).
  destruct (nextObstacleIn w1 <=? 0)%Z;
    [|exists []; rewrite app_nil_r, Nat.add_0_r; repeat split; auto; apply Hwf].
  destruct (spawnObstacles_batch w1 Hd Hpos Hwf) as (new & H1 & _ & H3 & _ & H5 & H6).
  exists new. rewrite spawnObstacles_ledger. split; [exact H1|split; [exact H3|split; [exact H5|split; [exact H6|reflexivity]]]].
Qed.

End SpawnerFacts.

Lemma checkCollision_with_id (h o : GameObject) (n : nat) :
  checkCollision (with_id h n) o = checkCollision h o.
Proof. reflexivity. Qed.

Lemma collidesWithObstacle_false (h : GameObject) (l : list GameObject) :
  collidesWithObstacle h l = false ->
  Forall (fun o => go_type o = OBJECT_TYPE_OBSTACLE -> checkCollision h o = false) l.
Proof.
  intro H. apply Forall_forall. intros o Ho Ht.
  destruct (checkCollision h o) eqn:E; [|reflexivity].
  assert (collidesWithObstacle h l = true) as C.
  { apply existsb_exists. exists o. split; [exact Ho|]. rewrite Ht, E. reflexivity. }
  congruence.
Qed.

(** The two outcomes of [spawnHuman]: the candidate is dropped, or it is
    appended under the next id. *)
Lemma spawnHuman_cases (rnd : Rng) (w : World) :
  (0 < gameObjectId w)%nat -> store_wf (gameObjectId w) (gameObjects w) ->
  let w' := spawnHuman rnd w in
  exists h,
    go_type h = OBJECT_TYPE_HUMAN /\ go_z h = SCENE_DEPTH /\
    (collidesWithObstacle h (gameObjects w) = true ->
       gameObjects w' = gameObjects w /\ gameObjectId w' = gameObjectId w /\
       nextHumanIn w' = nextHumanIn w) /\
    (collidesWithObstacle h (gameObjects w) = false ->
       gameObjects w' = gameObjects w ++ [with_id h (gameObjectId w)] /\
       gameObjectId w' = S (gameObjectId w)).
Proof.
  intros Hpos Hwf. unfold spawnHuman. cbv zeta.
  pose proof (draw_fields (random rnd (SCENE_LEFT_BORDER + HUMAN_WIDTH / 2)
                                 (Some (SCENE_RIGHT_BORDER - HUMAN_WIDTH / 2))) w) as F1.
  destruct (draw _ w) as [x w1]. cbn [fst snd] in F1.
  pose proof (draw_fields (random rnd HUMAN_MIN_SPEED (Some HUMAN_MAX_SPEED)) w1) as F2.
  destruct (draw _ w1) as [hs w2]. cbn [fst snd] in F2.
  pose proof (draw_fields (randomBool rnd) w2) as F3.
  destruct (draw _ w2) as [b w3]. cbn [fst snd] in F3.
  destruct F1 as (A1 & B1 & _ & _ & N1 & _), F2 as (A2 & B2 & _ & _ & N2 & _),
           F3 as (A3 & B3 & _ & _ & N3 & _).
  set (h := Human x SCENE_DEPTH (if b then hs * -1 else hs)).
  exists h. split; [reflexivity|]. split; [reflexivity|].
  assert (E3 : gameObjects w3 = gameObjects w) by congruence.
  assert (I3 : gameObjectId w3 = gameObjectId w) by congruence.
  rewrite E3. split.
  - intros Hc. rewrite Hc. cbn [negb]. split; [exact E3|split; congruence].
  - intros Hc. rewrite Hc. cbn [negb].
    assert (Hpos3 : (0 < gameObjectId w3)%nat) by congruence.
    assert (Hwf3 : store_wf (gameObjectId w3) (gameObjects w3)) by congruence.
    destruct (createGameObject_store h w3 Hpos3 Hwf3) as (C1 & C2 & _).
    pose proof (draw_fields (randomInt rnd (inject_Z MIN_HUMAN_INTERVAL)
                                     (Some (inject_Z MAX_HUMAN_INTERVAL))) (createGameObject h w3)) as F4.
    destruct (draw _ (createGameObject h w3)) as [n w4]. cbn [fst snd] in F4.
    destruct F4 as (A4 & B4 & _).
    wsimpl. split.
    + rewrite A4, C1, E3, I3. reflexivity.
    + rewrite B4, C2, I3. reflexivity.
Qed.


(** C13. Spawn exclusion: [spawnHuman] draws a candidate human at depth
    [SCENE_DEPTH]; when the candidate overlaps a live obstacle nothing is
    created and the countdown is not re-armed (the next tick retries),
    otherwise the human is appended under the next id and overlaps no
    obstacle of the store. *)
Theorem spawnHuman_exclusion (rnd : Rng) (w : World) :
  (0 < gameObjectId w)%nat -> store_wf (gameObjectId w) (gameObjects w) ->
  let w' := spawnHuman rnd w in
  exists h,
    go_type h = OBJECT_TYPE_HUMAN /\ go_z h = SCENE_DEPTH /\
    (collidesWithObstacle h (gameObjects w) = true ->
       gameObjects w' = gameObjects w /\ gameObjectId w' = gameObjectId w /\
       nextHumanIn w' = nextHumanIn w) /\
    (collidesWithObstacle h (gameObjects w) = false ->
       gameObjects w' = gameObjects w ++ [with_id h (gameObjectId w)] /\
       gameObjectId w' = S (gameObjectId w) /\
       Forall (fun o => go_type o = OBJECT_TYPE_OBSTACLE ->
                        checkCollision (with_id h (gameObjectId w)) o = false) (gameObjects w)).
Proof.
  intros Hpos Hwf. destruct (spawnHuman_cases rnd w Hpos Hwf) as (h & Ht & Hz & Hyes & Hno).
  exists h. splits; [exact Ht|exact Hz|exact Hyes|intros Hc]. splits; try apply (Hno Hc).
  apply collidesWithObstacle_false in Hc.
  eapply Forall_impl; [|exact Hc]. intros o Ho. rewrite checkCollision_with_id. exact Ho.
Qed.

(** The human phase in every case, before the walk: at most one human is
    appended under the next id. *)
Lemma spawnHuman_grows (rnd : Rng) (w : World) :
  (0 < gameObjectId w)%nat -> store_wf (gameObjectId w) (gameObjects w) ->
  let w' := spawnHuman rnd w in
  exists new,
    gameObjects w' = gameObjects w ++ new /\
    Forall (fun o => go_type o = OBJECT_TYPE_HUMAN) new /\
    gameObjectId w' = (gameObjectId w + length new)%nat /\
    store_wf (gameObjectId w') (gameObjects w') /\ ledger w' = ledger w.
Proof.
  intros Hpos Hwf.
  destruct (spawnHuman_cases rnd w Hpos Hwf) as (h & Ht & _ & Hyes & Hno).
  cbv zeta. rewrite (spawnHuman_ledger rnd).
  destruct (collidesWithObstacle h (gameObjects w)).
  - destruct (Hyes eq_refl) as (G & I & _). exists [].
    rewrite G, I, app_nil_r, Nat.add_0_r. splits; first [reflexivity | assumption | constructor].
  - destruct (Hno eq_refl) as (G & I). exists [with_id h (gameObjectId w)].
    destruct (createGameObject_store h w Hpos Hwf) as (C1 & C2 & C3).
    rewrite G, I. rewrite C1, C2 in C3. simpl. rewrite Nat.add_1_r.
    splits; first [reflexivity | assumption | constructor; [exact Ht | constructor]].
Qed.

Lemma updateHumans_grows (rnd : Rng) (w : World) :
  (0 < gameObjectId w)%nat -> store_wf (gameObjectId w) (gameObjects w) ->
  let w' := updateHumans rnd w in
  exists new,
    ((new = [] /\ gameObjects w' = gameObjects w) \/
     gameObjects w' = walkHumans (gameObjects w ++ new)) /\
    Forall (fun o => go_type o = OBJECT_TYPE_HUMAN) new /\
    gameObjectId w' = (gameObjectId w + length new)%nat /\
    store_wf (gameObjectId w') (gameObjects w') /\ ledger w' = ledger w.
Proof.
  intros Hpos Hwf. unfold updateHumans.
  destruct (tickIndex w <? FIRST_HUMAN_TICK)%Z;
    [exists []; rewrite Nat.add_0_r; splits; first [left; split; reflexivity | reflexivity | assumption | constructor]|].
  set (w1 := set_nextHumanIn (nextHumanIn w - 1)%Z w).
  assert (G1 : exists new,
    gameObjects (if (nextHumanIn w1 <=? 0)%Z then spawnHuman rnd w1 else w1) = gameObjects w ++ new /\
    Forall (fun o => go_type o = OBJECT_TYPE_HUMAN) new /\
    gameObjectId (if (nextHumanIn w1 <=? 0)%Z then spawnHuman rnd w1 else w1) =
      (gameObjectId w + length new)%nat /\
    store_wf (gameObjectId (if (nextHumanIn w1 <=? 0)%Z then spawnHuman rnd w1 else w1))
             (gameObjects (if (nextHumanIn w1 <=? 0)%Z then spawnHuman rnd w1 else w1)) /\
    ledger (if (nextHumanIn w1 <=? 0)%Z then spawnHuman rnd w1 else w1) = ledger w).
  { destruct (nextHumanIn w1 <=? 0)%Z; [apply (spawnHuman_grows rnd w1 Hpos Hwf)|].
    exists []. rewrite app_nil_r, Nat.add_0_r. splits; first [reflexivity | assumption | constructor]. }
  destruct G1 as (new & H1 & H2 & H3 & [Hs Hf] & H5).
  exists new. wsimpl. rewrite H1 in *. unfold store_wf. rewrite ids_walkHumans.
  splits; auto.
Qed.


(** ** Concrete runs *)

(** Tick 1000 of the sample session: the first batch of obstacles. *)
Definition first_batch_world : World := set_tickIndex 1000 sample_world.

Lemma updateObstacles_batch_witness :
  exists new,
    gameObjects (updateObstacles rng_half first_batch_world) = gameObjects first_batch_world ++ new /\
    (1 <= length new <= 5)%nat /\ (5 < Z.to_nat max_obstacles_count)%nat /\
    Forall (fun o => go_type o = OBJECT_TYPE_OBSTACLE /\
                     SCENE_LEFT_BORDER + OBSTACLE_WIDTH / 2 <= go_x o <=
                     SCENE_RIGHT_BORDER - OBSTACLE_WIDTH / 2) new /\
    nextObstacleIn (updateObstacles rng_half first_batch_world) = obstacleInterval first_batch_world.
Proof.
  apply (updateObstacles_batch rng_half rng_half_ok first_batch_world).
  - concrete.
  - concrete.
  - apply store_wfb_spec. reflexivity.
  - concrete.
  - concrete.
Defined.

(** Tick 500 of the sample session: the first human. *)
Lemma spawnHuman_exclusion_witness :
  exists h,
    go_type h = OBJECT_TYPE_HUMAN /\ go_z h = SCENE_DEPTH /\
    (collidesWithObstacle h (gameObjects sample_world) = true ->
       gameObjects (spawnHuman rng_half sample_world) = gameObjects sample_world /\
       gameObjectId (spawnHuman rng_half sample_world) = gameObjectId sample_world /\
       nextHumanIn (spawnHuman rng_half sample_world) = nextHumanIn sample_world) /\
    (collidesWithObstacle h (gameObjects sample_world) = false ->
       gameObjects (spawnHuman rng_half sample_world) =
         gameObjects sample_world ++ [with_id h (gameObjectId sample_world)] /\
       gameObjectId (spawnHuman rng_half sample_world) = S (gameObjectId sample_world) /\
       Forall (fun o => go_type o = OBJECT_TYPE_OBSTACLE ->
                        checkCollision (with_id h (gameObjectId sample_world)) o = false)
              (gameObjects sample_world)).
Proof.
  apply (spawnHuman_exclusion rng_half sample_world).
  - concrete.
  - apply store_wfb_spec. reflexivity.
Defined.
