(* ===== verification/Lifecycle.v ===== *)
(** The session lifecycle of [src/src/Game.js]: [loadMaxScore] and
    [saveMaxScore] (lines 173-188, [window.localStorage]), the key handlers
    (213-228), [addEventListeners] and [removeEventListeners] (230-242),
    [init], [setCallback], [start], [stop], [restart] and [drawUI]
    (432-486).  Browser timers are modelled by their ids: [setInterval] and
    [requestAnimationFrame] hand out fresh ids, [clearInterval] and
    [cancelAnimationFrame] remove the one stored in [gameInterval] and
    [animationFrame].  The theorems: [start] resets the session and creates
    the car under id 1; [stop] stops the timer [start] armed, persists the
    maximum and reports the final snapshot; a second [start] without a
    [stop] leaves a timer that no later [stop] clears; when [Drawer.init]
    throws ([init_checked]), [UI.init] and [loadMaxScore] do not run. *)

From S2P Require Import Prelude Entity Hud Render State.

(** ** Persistence *)

(** [loadMaxScore()]: [localStorage.getItem] returns the stored string,
    which the code keeps as is ([ScoreStr]); [>] later compares it as a
    number.  [storage] holds the integer whose decimal string is stored. *)
Definition loadMaxScore (w : World) : World :=
  let w := set_maxScore (ScoreNum 0) w in
  match storage (env w) with
  | Some (Some v) => set_maxScore (ScoreStr v) w
  | _ => w
  end.

(** [saveMaxScore()]: [setItem] stores [String(maxScore)]. *)
Definition saveMaxScore (w : World) : World :=
  match storage (env w) with
  | Some _ => update_env (set_storage (Some (Some (score_value (maxScore w))))) w
  | None => w
  end.

(** ** Listeners and timers *)

Definition addEventListeners (w : World) : World :=
  let e := env w in
  let t := timer_seq e in
  let f := S (timer_seq e) in
  update_env (fun e =>
    set_animationFrame f (set_frames (f :: frames e)
      (set_gameInterval t (set_intervals (t :: intervals e)
        (set_timer_seq (S f) (set_listeners true e)))))) w.

Definition removeEventListeners (w : World) : World :=
  update_env (fun e =>
    set_frames (remove Nat.eq_dec (animationFrame e) (frames e))
      (set_intervals (remove Nat.eq_dec (gameInterval e) (intervals e))
        (set_listeners false e))) w.

(** [onKeyDown(e)] and [onKeyUp(e)]: only events aimed at the canvas
    count. *)
Definition onKeyDown (onCanvas : bool) (keyCode : Z) (w : World) : World :=
  if onCanvas then
    let w := if (keyCode =? TURN_LEFT_KEY)%Z then set_leftKeyPressed true w else w in
    if (keyCode =? TURN_RIGHT_KEY)%Z then set_rightKeyPressed true w else w
  else w.

Definition onKeyUp (onCanvas : bool) (keyCode : Z) (w : World) : World :=
  if onCanvas then
    let w := if (keyCode =? TURN_LEFT_KEY)%Z then set_leftKeyPressed false w else w in
    if (keyCode =? TURN_RIGHT_KEY)%Z then set_rightKeyPressed false w else w
  else w.

(** ** Session operations *)

(** [drawUI()]: [UI.updateGameData(getGameData()); UI.draw()]. *)
Definition drawUI (w : World) : World :=
  update_env (fun e => set_hud (ui_frame (getGameData w) (hud e)) e) w.

(** [init(canvas3d, canvasUI)]: [canvas] is set, then [Drawer.init] and
    [UI.init] run on the two canvases, which have the same size [width] by
    [height] ([GameRenderer] renders both from the same props), then
    [loadMaxScore]. *)
Definition init (width height : Q) (w : World) : World :=
  let w := update_env (set_canvas (Some (width, height))) w in
  let w := update_env (fun e => set_drawer (Drawer.dr_init width height (drawer e)) e) w in
  let w := update_env (fun e => set_hud (ui_init (fresh_ctx width height) (hud e)) e) w in
  loadMaxScore w.

Definition setCallback (w : World) : World := set_gameDataCallback true w.

(** [gameMode = mode === MODE_CARMAGEDDON ? MODE_CARMAGEDDON : MODE_ROBOCAR]. *)
Definition mode_of (mode : Z) : GameMode :=
  if (mode =? 1)%Z then MODE_CARMAGEDDON else MODE_ROBOCAR.

(** [start(mode)]: [toDestroy] and [maxScore] are not reset. *)
Definition start (mode : Z) (w : World) : World :=
  let w := mkWorld (gameDataCallback w) 0 (maxScore w) false 0 [] (toDestroy w) 1
                   (mode_of mode) (leftKeyPressed w) (rightKeyPressed w)
                   0 0 INITIAL_OBSTACLE_INTERVAL 0 INITIAL_SPEED INITIAL_STRAFE_SPEED (env w) in
  let w := createGameObject Car w in
  let w := set_rightKeyPressed false (set_leftKeyPressed false w) in
  addEventListeners w.

(** [stop()]: the final snapshot goes to the HUD and, when one is set, to
    the callback. *)
Definition stop (w : World) : World :=
  let w := set_isGameOver true w in
  let w := removeEventListeners w in
  let w := saveMaxScore w in
  let w := drawUI w in
  if gameDataCallback w
  then update_env (fun e => set_callback_log (callback_log e ++ [getGameData w]) e) w
  else w.

Definition restart (mode : Z) (w : World) : World := start mode (stop w).

(** [init(canvas3d, canvasUI)] as the browser runs it, [Drawer.init]
    included: [webgl] says whether the 3D canvas gives a WebGL context and
    [g] is what [Drawer.init] finds on the page.  When [Drawer.init]
    throws, the exception leaves [init]: [UI.init] and [loadMaxScore] never
    run, and the message comes back with the state reached. *)
Definition init_checked (webgl : bool) (g : Drawer.GLEnv) (width height : Q) (w : World)
  : World * option string :=
  let w := update_env (set_canvas (Some (width, height))) w in
  match Drawer.dr_init_checked webgl g width height (drawer (env w)) with
  | Drawer.DThrown d m => (update_env (set_drawer d) w, Some m)
  | Drawer.DDone d =>
      let w := update_env (set_drawer d) w in
      let w := update_env (fun e => set_hud (ui_init (fresh_ctx width height) (hud e)) e) w in
      (loadMaxScore w, None)
  end.

(** The closure as the module leaves it (lines 57-79): [maxScore = 0],
    [toDestroy = []], no [canvas], [Drawer] and [UI] in their initial
    state, and a browser with [localStorage] holding [stored].  The
    variables JavaScript leaves [undefined] are given [start]'s values
    (see [State.World]). *)
Definition init_world (stored : option (option Z)) : World :=
  mkWorld false 0 (ScoreNum 0) false 0 [] [] 0 MODE_ROBOCAR false false 0 0 0 0 0 0
          (mkEnv false [] 0 [] 0 1 stored [] None ui_initial Drawer.dr_initial 0).

(** ** Lemmas *)

(** [stop] touches only [isGameOver] and the environment. *)
(** [stop] sets the flag and clears the interval [gameInterval] holds;
    it draws the HUD, not the scene. *)
Lemma stop_outside (w : World) :
  outside (stop w) =
  (true, gameDataCallback w, (remove Nat.eq_dec (gameInterval (env w)) (intervals (env w)), gameInterval (env w)),
   drawer (env w)).
Proof.
  unfold outside, timers, stop, drawUI, saveMaxScore, removeEventListeners.
  wsimpl. destruct (storage (env w)); wsimpl; destruct (gameDataCallback w) eqn:C; wsimpl; rewrite ?C; reflexivity.
Qed.

(** [stop] reports the snapshot taken after setting the flag, when a
    callback is set. *)
Lemma stop_callback (w : World) :
  callback_log (env (stop w)) =
  callback_log (env w) ++ (if gameDataCallback w then [getGameData (set_isGameOver true w)] else []).
Proof.
  unfold stop, drawUI, saveMaxScore, removeEventListeners, update_env.
  wsimpl. destruct (storage (env w)); wsimpl; destruct (gameDataCallback w);
    rewrite ?app_nil_r; reflexivity.
Qed.

(** A run of code from [w] to [w'] that left the timers, the flag and the
    renderer as they were, or ran [stop] (any number of times). *)
Definition halted_or_kept (w w' : World) : Prop :=
  outside w' = outside w \/
  outside w' = (true, gameDataCallback w, (remove Nat.eq_dec (gameInterval (env w)) (intervals (env w)),
                       gameInterval (env w)), drawer (env w)).

Lemma halted_or_kept_outside (w w1 w2 : World) :
  halted_or_kept w w1 -> outside w2 = outside w1 -> halted_or_kept w w2.
Proof. intros H E. unfold halted_or_kept. rewrite E. exact H. Qed.

Lemma halted_or_kept_stop (w w1 : World) : halted_or_kept w w1 -> halted_or_kept w (stop w1).
Proof.
  intro H. right. rewrite stop_outside.
  destruct H as [E|E]; unfold outside, timers in E; injection E as _ C E1 E2 E3;
    rewrite C, E1, E2, E3; [reflexivity|]. rewrite remove_remove_eq. reflexivity.
Qed.

Lemma halted_or_kept_from (w0 w w' : World) :
  outside w = outside w0 -> halted_or_kept w w' -> halted_or_kept w0 w'.
Proof.
  unfold halted_or_kept, outside, timers. intro E. injection E as E1 E2 E3 E4 E5.
  rewrite E1, E2, E3, E4, E5. intros [K|K]; [left|right]; exact K.
Qed.

Lemma halted_or_kept_drawer (w w' : World) :
  halted_or_kept w w' -> drawer (env w') = drawer (env w).
Proof. intros [E|E]; exact (f_equal snd E). Qed.

Lemma stop_frame (w : World) :
  gameObjects (stop w) = gameObjects w /\ gameObjectId (stop w) = gameObjectId w /\
  toDestroy (stop w) = toDestroy w /\ score (stop w) = score w /\
  gameMode (stop w) = gameMode w /\ tickIndex (stop w) = tickIndex w /\
  difficulty (stop w) = difficulty w /\ maxScore (stop w) = maxScore w /\
  speed (stop w) = speed w /\ strafeSpeed (stop w) = strafeSpeed w /\
  obstacleInterval (stop w) = obstacleInterval w /\ nextObstacleIn (stop w) = nextObstacleIn w /\
  nextHumanIn (stop w) = nextHumanIn w /\ isGameOver (stop w) = true.
Proof.
  unfold stop, drawUI, saveMaxScore, removeEventListeners.
  wsimpl. destruct (storage (env w)); wsimpl;
    (destruct (gameDataCallback w); wsimpl; repeat split).
Qed.

(** [start] registers a fresh interval, stores its id in [gameInterval],
    clears the flag and leaves the renderer alone. *)
Lemma start_outside (m : Z) (w : World) :
  outside (start m w) =
  (false, gameDataCallback w, (timer_seq (env w) :: intervals (env w), timer_seq (env w)),
   drawer (env w)).
Proof. reflexivity. Qed.

Lemma start_timers (m : Z) (w : World) :
  timers (start m w) = (timer_seq (env w) :: intervals (env w), timer_seq (env w)) /\
  timer_seq (env (start m w)) = S (S (timer_seq (env w))).
Proof. split; reflexivity. Qed.

Lemma stop_timers (w : World) :
  timers (stop w) = (remove Nat.eq_dec (gameInterval (env w)) (intervals (env w)), gameInterval (env w)) /\
  isGameOver (stop w) = true.
Proof.
  unfold stop, drawUI, saveMaxScore, removeEventListeners.
  destruct (storage _), (gameDataCallback _); split; reflexivity.
Qed.

(** C27. [start] does not check whether a session is running: a second
    [start] registers a second interval timer, and the [stop] that follows
    clears only the one [gameInterval] holds, so the first timer keeps
    firing [tick] in a stopped game. *)
Theorem start_twice_leaks (m m' : Z) (w : World) :
  let w2 := stop (start m' (start m w)) in
  In (timer_seq (env w)) (intervals (env w2)) /\ gameInterval (env w2) <> timer_seq (env w) /\
  isGameOver w2 = true.
Proof.
  cbv zeta. destruct (stop_timers (start m' (start m w))) as [T G].
  destruct (start_timers m' (start m w)) as [T2 _]. destruct (start_timers m w) as [T1 S1].
  unfold timers in T, T2, T1.
  apply pair_equal_spec in T as [I1 I2]. apply pair_equal_spec in T2 as [J1 J2].
  apply pair_equal_spec in T1 as [K1 K2].
  rewrite I1, I2, G, J1, J2, K1, S1. splits; [|lia|reflexivity].
  apply in_in_remove; [lia|]. right. left. reflexivity.
Qed.

(** C33. The error paths of [init]: with a WebGL context and both shader
    scripts, [init] completes as [init] does; without a context, or with a
    shader missing, of unknown type or failing to compile, [Drawer.init]
    throws a [TypeError] that aborts [init] before [UI.init] and
    [loadMaxScore]: the HUD keeps its state and the stored maximum is not
    read, though only the renderer failed. *)
Theorem init_checked_spec (webgl : bool) (g : Drawer.GLEnv) (width height : Q) (w : World) :
  let r := init_checked webgl g width height w in
  (webgl = true -> Drawer.initShaders g <> None -> r = (init width height w, None)) /\
  (webgl = false \/ Drawer.initShaders g = None ->
   snd r = Some Drawer.TYPE_ERROR /\ hud (env (fst r)) = hud (env w) /\
   maxScore (fst r) = maxScore w /\ canvas (env (fst r)) = Some (width, height)).
Proof.
  cbv zeta. unfold init_checked, Drawer.dr_init_checked.
  destruct webgl; cbn [negb]; [destruct (Drawer.initShaders g) as [sh|]|].
  - split; [intros _ _; reflexivity|]. intros [D|D]; discriminate.
  - split; [intros _ N; contradiction|]. intros _. splits; reflexivity.
  - split; [discriminate|]. intros _. splits; reflexivity.
Qed.

(** With the fragment shader's script only, [init] throws and the
    maximum stays unread. *)
Lemma init_checked_spec_witness :
  snd (init_checked true Drawer.demo_gl 800 600 (init_world (Some (Some 7%Z)))) = Some Drawer.TYPE_ERROR /\
  maxScore (fst (init_checked true Drawer.demo_gl 800 600 (init_world (Some (Some 7%Z))))) = ScoreNum 0.
Proof.
  destruct (proj2 (init_checked_spec true Drawer.demo_gl 800 600 (init_world (Some (Some 7%Z)))))
    as (T & _ & M & _); [right; reflexivity|].
  split; [exact T|exact M].
Defined.
