(* ===== verification/Collision.v ===== *)
(** The collision engine of [src/src/Game.js]: the [onCollide] handlers of
    [Car], [Human] and the default of [GameObject] (lines 114-150) and
    [handleCollisions] (lines 378-398).  The pass takes the keys once, then
    visits the ordered pairs [(i, k)] of that snapshot and skips those with
    [k <= i], a comparison of the two decimal strings.  The pass is written
    once for any key order given by the class [PairOrder]; the string order
    of the code and the numeric order are its instances.  The theorems: for
    any such order every unordered pair of distinct objects is tested
    exactly once; no object leaves the store during the pass; and in any
    world where the car overlaps one object only, the pass is the car's
    response to it, whichever of the two orders the string comparison
    visits (the spec's scenarios A, B and C). *)

From S2P Require Import Prelude Entity Hud State Lifecycle.

(** ** Responses *)

(** [obj.onCollide(anotherObj)] for the object [self] of the store. *)
Definition onCollide (self other : GameObject) (w : World) : World :=
  match go_type self with
  | OBJECT_TYPE_CAR =>
      let w := if type_eqb (go_type other) OBJECT_TYPE_OBSTACLE then stop w else w in
      if type_eqb (go_type other) OBJECT_TYPE_HUMAN then
        let inc := match gameMode w with
                   | MODE_ROBOCAR => MODE_SCORE_DECREMENT
                   | MODE_CARMAGEDDON => MODE_SCORE_INCREMENT
                   end in
        let w := set_score (score w + inject_Z inc) w in
        let w := update_env (fun e => set_hud (addScore inc (hud e)) e) w in
        destroyGameObject other w
      else w
  | OBJECT_TYPE_HUMAN =>
      if type_eqb (go_type other) OBJECT_TYPE_OBSTACLE
      then set_gameObjects (obj_update (go_id self) (fun o => with_speed o (go_speed o * -1))
                                       (gameObjects w)) w
      else w
  | OBJECT_TYPE_OBSTACLE => w
  end.

(** ** The order on keys *)

(** [k <= i] on strings: lexicographic, by character code. *)
Definition key_le (a b : string) : bool :=
  match String.compare a b with
  | Gt => false
  | _ => true
  end.

(** What the pass needs of the comparison [le k i] that makes it skip a
    pair: reflexive, and on distinct ids true in exactly one direction. *)
Class PairOrder (le : nat -> nat -> bool) : Prop := {
  pair_order_refl : forall a, le a a = true;
  pair_order_total : forall a b, a <> b -> le a b = negb (le b a)
}.

(** The order of the code: the keys' strings. *)
Definition string_key_le (a b : nat) : bool := key_le (key_of a) (key_of b).

(** ** The pass *)

Section Pass.
Variable le : nat -> nat -> bool.

(** The test of one pair and the two responses, [obj1]'s first. *)
Definition testPair (i k : nat) (w : World) : World :=
  match obj_lookup i (gameObjects w), obj_lookup k (gameObjects w) with
  | Some obj1, Some obj2 =>
      if checkCollision obj1 obj2
      then onCollide obj2 obj1 (onCollide obj1 obj2 w)
      else w
  | _, _ => w
  end.

(** The body of the inner [forEach]: [if (k <= i) return]. *)
Definition collidePair (i k : nat) (w : World) : World :=
  if le k i then w else testPair i k w.

Definition collidePass (keys : list nat) (w : World) : World :=
  fold_left (fun w i => fold_left (fun w k => collidePair i k w) keys w) keys w.

Definition handleCollisionsWith (w : World) : World :=
  let keys := ids (gameObjects w) in
  if (length keys <? 2)%nat then w else collidePass keys w.

(** The pairs the pass goes on to test, in order. *)
Definition visited_pairs (keys : list nat) : list (nat * nat) :=
  flat_map (fun i => flat_map (fun k => if le k i then [] else [(i, k)]) keys) keys.

End Pass.

(** [handleCollisions()]. *)
Definition handleCollisions (w : World) : World := handleCollisionsWith string_key_le w.

(** ** The two orders are [PairOrder]s *)

Lemma string_compare_refl (s : string) : String.compare s s = Eq.
Proof.
  pose proof (String.compare_antisym s s) as H.
  destruct (String.compare s s); simpl in H; congruence.
Qed.

#[export] Instance string_key_order : PairOrder string_key_le.
Proof.
  split.
  - intro a. unfold string_key_le, key_le. rewrite string_compare_refl. reflexivity.
  - intros a b Hne. unfold string_key_le, key_le.
    rewrite (String.compare_antisym (key_of b) (key_of a)).
    destruct (String.compare (key_of a) (key_of b)) eqn:E; simpl; try reflexivity.
    apply String.compare_eq_iff, key_of_inj in E. contradiction.
Qed.

#[export] Instance numeric_key_order : PairOrder Nat.leb.
Proof.
  split.
  - intro a. apply Nat.leb_refl.
  - intros a b Hne. destruct (Nat.leb_spec a b), (Nat.leb_spec b a); simpl; lia.
Qed.

(** ** The pairs a pass visits *)

Section PairFacts.
Context (le : nat -> nat -> bool) `{PairOrder le}.

Lemma in_visited_pairs (keys : list nat) (a b : nat) :
  In (a, b) (visited_pairs le keys) <-> In a keys /\ In b keys /\ le b a = false.
Proof.
  unfold visited_pairs. rewrite in_flat_map. split.
  - intros [i [Hi Hin]]. apply in_flat_map in Hin as [k [Hk Hin]].
    destruct (le k i) eqn:E; [contradiction|]. destruct Hin as [[= <- <-]|[]]. tauto.
  - intros (Ha & Hb & Hle). exists a. split; [exact Ha|].
    apply in_flat_map. exists b. split; [exact Hb|]. rewrite Hle. left. reflexivity.
Qed.

Lemma visited_pairs_NoDup (keys : list nat) : NoDup keys -> NoDup (visited_pairs le keys).
Proof.
  intro Hk. unfold visited_pairs.
  assert (Inner : forall i, NoDup (flat_map (fun k => if le k i then [] else [(i, k)]) keys)).
  { intro i. clear - Hk. induction Hk as [|k ks Hk Hks IH]; simpl; [constructor|].
    destruct (le k i); simpl; [exact IH|]. constructor; [|exact IH].
    intro Hin. apply in_flat_map in Hin as [k' [Hk' Hin]].
    destruct (le k' i); [contradiction|]. destruct Hin as [[= ->]|[]]. contradiction. }
  assert (Gen : forall outer, NoDup outer ->
            NoDup (flat_map (fun i => flat_map (fun k => if le k i then [] else [(i, k)]) keys) outer)).
  { induction 1 as [|i rest Hi Hrest IH]; simpl; [constructor|].
    apply NoDup_app; [apply Inner|exact IH|].
    intros [a b] Hin1 Hin2.
    apply in_flat_map in Hin1 as [k [_ Hin1]]. destruct (le k i); [contradiction|].
    destruct Hin1 as [[= <- <-]|[]].
    apply in_flat_map in Hin2 as [i' [Hi' Hin2]]. apply in_flat_map in Hin2 as [k' [_ Hin2]].
    destruct (le k' i'); [contradiction|]. destruct Hin2 as [[= <- _]|[]]. contradiction. }
  exact (Gen keys Hk).
Qed.

(** Every unordered pair of distinct keys is visited in exactly one of
    its two orientations, and no key is paired with itself. *)
Lemma visited_pairs_once (keys : list nat) (a b : nat) :
  In a keys -> In b keys ->
  (a = b -> ~ In (a, b) (visited_pairs le keys)) /\
  (a <> b -> (In (a, b) (visited_pairs le keys) <-> ~ In (b, a) (visited_pairs le keys))).
Proof.
  intros Ha Hb. rewrite !in_visited_pairs. split.
  - intros -> (_ & _ & E). rewrite pair_order_refl in E. discriminate.
  - intros Hne. rewrite (pair_order_total b a) by congruence.
    destruct (le a b); simpl; intuition discriminate.
Qed.

End PairFacts.

(** ** The pass as a fold over the visited pairs *)

Lemma fold_left_flat_map {A B C} (f : A -> C -> A) (g : B -> list C) (l : list B) (a : A) :
  fold_left f (flat_map g l) a = fold_left (fun a x => fold_left f (g x) a) l a.
Proof.
  revert a. induction l as [|x l IH]; intro a; simpl; [reflexivity|].
  rewrite fold_left_app. apply IH.
Qed.

Lemma collidePass_pairs (le : nat -> nat -> bool) (keys : list nat) (w : World) :
  collidePass le keys w =
  fold_left (fun w ik => testPair (fst ik) (snd ik) w) (visited_pairs le keys) w.
Proof.
  unfold collidePass, visited_pairs. rewrite fold_left_flat_map.
  assert (Inner : forall i w, fold_left (fun w k => collidePair le i k w) keys w =
            fold_left (fun w ik => testPair (fst ik) (snd ik) w)
                      (flat_map (fun k => if le k i then [] else [(i, k)]) keys) w).
  { intros i. induction keys as [|k ks IH]; intro w0; simpl; [reflexivity|].
    unfold collidePair at 2. destruct (le k i); simpl; apply IH. }
  assert (Gen : forall outer w,
    fold_left (fun w i => fold_left (fun w k => collidePair le i k w) keys w) outer w =
    fold_left (fun a i => fold_left (fun w ik => testPair (fst ik) (snd ik) w)
                            (flat_map (fun k => if le k i then [] else [(i, k)]) keys) a) outer w).
  { induction outer as [|i rest IH]; intro w0; simpl; [reflexivity|]. rewrite Inner. apply IH. }
  apply Gen.
Qed.

(** ** The pass moves and removes nothing *)

(** What the pass never changes of an object: id, type and position. *)
Definition frozen (o : GameObject) : nat * ObjectType * Q * Q :=
  (go_id o, go_type o, go_x o, go_z o).

Definition marked_ok (l0 : list GameObject) (n : nat) : Prop :=
  exists o, In o l0 /\ go_id o = n /\ go_type o = OBJECT_TYPE_HUMAN.

Lemma frozen_obj_update (n : nat) (l : list GameObject) :
  map frozen (obj_update n (fun o => with_speed o (go_speed o * -1)) l) = map frozen l.
Proof.
  unfold obj_update. rewrite map_map. apply map_ext. intro o.
  destruct (Nat.eqb (go_id o) n); reflexivity.
Qed.

Lemma onCollide_effect (a b : GameObject) (w : World) :
  map frozen (gameObjects (onCollide a b w)) = map frozen (gameObjects w) /\
  gameObjectId (onCollide a b w) = gameObjectId w /\
  toDestroy (onCollide a b w) =
    toDestroy w ++ (if type_eqb (go_type a) OBJECT_TYPE_CAR && type_eqb (go_type b) OBJECT_TYPE_HUMAN
                    then [go_id b] else []).
Proof.
  unfold onCollide.
  destruct (go_type a); simpl.
  - destruct (type_eqb (go_type b) OBJECT_TYPE_OBSTACLE) eqn:Eo;
      destruct (type_eqb (go_type b) OBJECT_TYPE_HUMAN) eqn:Eh;
      unfold destroyGameObject; wsimpl;
      repeat match goal with |- context [stop ?w] => destruct (stop_frame w) as (S1 & S2 & S3 & _);
                                                        rewrite ?S1, ?S2, ?S3 end;
      rewrite ?app_nil_r; repeat split.
  - rewrite app_nil_r. repeat split.
  - destruct (type_eqb (go_type b) OBJECT_TYPE_OBSTACLE); wsimpl;
      rewrite ?frozen_obj_update, ?app_nil_r; repeat split.
Qed.

Lemma frozen_In (l l0 : list GameObject) (o : GameObject) :
  map frozen l = map frozen l0 -> In o l ->
  exists o0, In o0 l0 /\ go_id o0 = go_id o /\ go_type o0 = go_type o.
Proof.
  intros E Ho. apply (in_map frozen) in Ho. rewrite E in Ho.
  apply in_map_iff in Ho as [o0 [Hf Ho0]]. unfold frozen in Hf. injection Hf as H1 H2 _ _.
  exists o0. tauto.
Qed.

Lemma marks_ok (l l0 : list GameObject) (a o : GameObject) :
  map frozen l = map frozen l0 -> In o l ->
  Forall (marked_ok l0)
    (if type_eqb (go_type a) OBJECT_TYPE_CAR && type_eqb (go_type o) OBJECT_TYPE_HUMAN
     then [go_id o] else []).
Proof.
  intros F Ho.
  destruct (type_eqb (go_type a) OBJECT_TYPE_CAR && type_eqb (go_type o) OBJECT_TYPE_HUMAN) eqn:C;
    [|constructor].
  apply Bool.andb_true_iff in C as [_ C]. unfold type_eqb in C.
  destruct (ObjectType_eq_dec (go_type o) OBJECT_TYPE_HUMAN) as [Ht|]; [|discriminate].
  constructor; [|constructor].
  destruct (frozen_In _ _ _ F Ho) as (o0 & H0 & Hid & Hty).
  exists o0. split; [exact H0|]. split; congruence.
Qed.

(** The invariant of the pass relative to the world [w0] it started from. *)
Definition pass_inv (w0 w : World) : Prop :=
  map frozen (gameObjects w) = map frozen (gameObjects w0) /\
  gameObjectId w = gameObjectId w0 /\
  exists extra, toDestroy w = toDestroy w0 ++ extra /\ Forall (marked_ok (gameObjects w0)) extra.

Lemma testPair_inv (w0 w : World) (i k : nat) : pass_inv w0 w -> pass_inv w0 (testPair i k w).
Proof.
  intros (F & I & extra & D & M). unfold testPair.
  destruct (obj_lookup i (gameObjects w)) as [o1|] eqn:E1; [|split; [exact F|split; [exact I|eauto]]].
  destruct (obj_lookup k (gameObjects w)) as [o2|] eqn:E2; [|split; [exact F|split; [exact I|eauto]]].
  destruct (checkCollision o1 o2); [|split; [exact F|split; [exact I|eauto]]].
  destruct (onCollide_effect o1 o2 w) as (F1 & I1 & D1).
  destruct (onCollide_effect o2 o1 (onCollide o1 o2 w)) as (F2 & I2 & D2).
  apply obj_lookup_In in E1 as [In1 _]. apply obj_lookup_In in E2 as [In2 _].
  split; [congruence|]. split; [congruence|].
  exists (extra ++ (if type_eqb (go_type o1) OBJECT_TYPE_CAR && type_eqb (go_type o2) OBJECT_TYPE_HUMAN
                    then [go_id o2] else [])
                ++ (if type_eqb (go_type o2) OBJECT_TYPE_CAR && type_eqb (go_type o1) OBJECT_TYPE_HUMAN
                    then [go_id o1] else [])).
  split; [rewrite D2, D1, D, <- !app_assoc; reflexivity|].
  apply Forall_app. split; [exact M|]. apply Forall_app.
  split; eapply marks_ok; eassumption.
Qed.

(** A property every pair test keeps holds after the whole pass. *)
Lemma handleCollisions_preserve (P : World -> Prop) (w : World) :
  (forall i k w, P w -> P (testPair i k w)) -> P w -> P (handleCollisions w).
Proof.
  intros Hstep HP. unfold handleCollisions, handleCollisionsWith.
  destruct (length (ids (gameObjects w)) <? 2)%nat; [exact HP|]. rewrite collidePass_pairs.
  generalize (visited_pairs string_key_le (ids (gameObjects w))) as ps.
  intro ps. induction ps as [|p ps IH] in w, HP |- *; simpl; [exact HP|]. apply IH, Hstep, HP.
Qed.

(** The responses never touch the difficulty schedule. *)
Lemma onCollide_knobs (a b : GameObject) (w : World) : knobs (onCollide a b w) = knobs w.
Proof.
  unfold onCollide, destroyGameObject, knobs.
  destruct (go_type a);
    [destruct (type_eqb (go_type b) OBJECT_TYPE_OBSTACLE), (type_eqb (go_type b) OBJECT_TYPE_HUMAN)
    | |destruct (type_eqb (go_type b) OBJECT_TYPE_OBSTACLE)]; wsimpl; try reflexivity;
    destruct (stop_frame w) as (_ & _ & _ & _ & _ & T & D & _ & S & SS & OI & _);
    rewrite T, D, S, SS, OI; reflexivity.
Qed.

Lemma handleCollisions_knobs (w : World) : knobs (handleCollisions w) = knobs w.
Proof.
  apply (handleCollisions_preserve (fun w' => knobs w' = knobs w)); [|reflexivity].
  intros i k w1 H1. unfold testPair.
  destruct (obj_lookup i (gameObjects w1)), (obj_lookup k (gameObjects w1)); try exact H1.
  destruct (checkCollision _ _); [|exact H1]. rewrite !onCollide_knobs. exact H1.
Qed.

(** The responses touch the timers, the flag and the renderer only
    through [stop]. *)
Lemma onCollide_halted (a b : GameObject) (w0 w : World) :
  halted_or_kept w0 w -> halted_or_kept w0 (onCollide a b w).
Proof.
  intro H. unfold onCollide, destroyGameObject. destruct (go_type a); [|exact H|].
  - set (w1 := if type_eqb (go_type b) OBJECT_TYPE_OBSTACLE then stop w else w).
    assert (H1 : halted_or_kept w0 w1)
      by (unfold w1; destruct (type_eqb _ _); [apply halted_or_kept_stop|]; exact H).
    destruct (type_eqb (go_type b) OBJECT_TYPE_HUMAN); [|exact H1].
    apply (halted_or_kept_outside _ _ _ H1). reflexivity.
  - destruct (type_eqb _ _); [|exact H]. apply (halted_or_kept_outside _ _ _ H). reflexivity.
Qed.

Lemma handleCollisions_halted (w : World) : halted_or_kept w (handleCollisions w).
Proof.
  apply (handleCollisions_preserve (halted_or_kept w)); [|left; reflexivity].
  intros i k w1 H1. unfold testPair.
  destruct (obj_lookup i (gameObjects w1)), (obj_lookup k (gameObjects w1)); try exact H1.
  destruct (checkCollision _ _); [|exact H1]. apply onCollide_halted, onCollide_halted, H1.
Qed.

(** C4. No object is removed or moved during the collision pass: ids,
    types and positions of the store are those it started with, the next
    id is unchanged, and the only destruction requests the pass adds to
    [toDestroy] name humans of the store (removal waits for the reap). *)
Theorem handleCollisions_deferred (w : World) :
  let w' := handleCollisions w in
  map frozen (gameObjects w') = map frozen (gameObjects w) /\
  gameObjectId w' = gameObjectId w /\
  exists extra, toDestroy w' = toDestroy w ++ extra /\ Forall (marked_ok (gameObjects w)) extra.
Proof.
  apply (handleCollisions_preserve (pass_inv w)); [intros i k w1; apply testPair_inv|].
  split; [reflexivity|]. split; [reflexivity|].
  exists []. rewrite app_nil_r. split; constructor.
Qed.

(** ** Pair coverage of [handleCollisions] *)

(** C3. [handleCollisions] runs the pair test over the visited pairs of
    the key snapshot, and although the code compares keys as strings
    (["10" < "9"]), every unordered pair of distinct objects is tested
    exactly once, in one of its two orders, and no object is paired with
    itself. *)
Theorem handleCollisions_pairs (w : World) :
  NoDup (ids (gameObjects w)) ->
  let keys := ids (gameObjects w) in
  let V := visited_pairs string_key_le keys in
  handleCollisions w =
    (if (length keys <? 2)%nat then w
     else fold_left (fun w ik => testPair (fst ik) (snd ik) w) V w) /\
  NoDup V /\
  (forall a b, In (a, b) V -> In a keys /\ In b keys /\ a <> b) /\
  (forall a b, In a keys -> In b keys -> a <> b -> (In (a, b) V <-> ~ In (b, a) V)).
Proof.
  intros Hnd keys V. split; [|split; [|split]].
  - unfold handleCollisions, handleCollisionsWith. fold keys.
    destruct (length keys <? 2)%nat; [reflexivity|]. apply collidePass_pairs.
  - apply (visited_pairs_NoDup string_key_le). exact Hnd.
  - intros a b Hab. pose proof Hab as Hab'. apply in_visited_pairs in Hab as (Ha & Hb & _).
    split; [exact Ha|]. split; [exact Hb|]. intros ->.
    apply (proj1 (visited_pairs_once string_key_le keys b b Ha Hb) eq_refl Hab').
  - intros a b Ha Hb Hne. apply (proj2 (visited_pairs_once string_key_le keys a b Ha Hb) Hne).
Qed.

(** ** A single contact *)

(** The pass compares objects only through their frozen part. *)
Lemma checkCollision_frozen (a a' b b' : GameObject) :
  frozen a = frozen a' -> frozen b = frozen b' -> checkCollision a b = checkCollision a' b'.
Proof.
  unfold frozen. intros Ha Hb. injection Ha as _ Ta Xa Za. injection Hb as _ Tb Xb Zb.
  unfold checkCollision, toRectPoints, width, depth. rewrite Ta, Xa, Za, Tb, Xb, Zb. reflexivity.
Qed.

Lemma frozen_lookup (n : nat) (l l0 : list GameObject) (o : GameObject) :
  map frozen l = map frozen l0 -> obj_lookup n l = Some o ->
  exists o0, obj_lookup n l0 = Some o0 /\ frozen o0 = frozen o.
Proof.
  revert l0. induction l as [|p l IH]; intros [|p0 l0] E H; [discriminate H..|discriminate E|].
  assert (Ep : frozen p = frozen p0) by (apply (f_equal (hd (frozen p))) in E; exact E).
  assert (El : map frozen l = map frozen l0) by (apply (f_equal (@tl _)) in E; exact E).
  assert (Hid : go_id p0 = go_id p) by (unfold frozen in Ep; congruence).
  simpl in H |- *. rewrite Hid.
  destruct (Nat.eqb (go_id p) n); [injection H as <-; eauto|exact (IH l0 El H)].
Qed.

Lemma obj_lookup_unique (l : list GameObject) (o : GameObject) :
  NoDup (ids l) -> In o l -> obj_lookup (go_id o) l = Some o.
Proof.
  induction l as [|p l IH]; intros Hnd Ho; [destruct Ho|]. inversion Hnd as [|? ? Hp Hl]; subst. simpl.
  destruct Ho as [<-|Ho]; [rewrite Nat.eqb_refl; reflexivity|].
  destruct (Nat.eqb_spec (go_id p) (go_id o)) as [E|]; [|exact (IH Hl Ho)].
  exfalso. apply Hp. rewrite E. apply in_map. exact Ho.
Qed.

(** A pair whose two objects do not overlap in the world [w0] is a no-op
    in any world of the pass. *)
Lemma testPair_noop (w0 w : World) (i k : nat) :
  map frozen (gameObjects w) = map frozen (gameObjects w0) ->
  (forall o1 o2, obj_lookup i (gameObjects w0) = Some o1 -> obj_lookup k (gameObjects w0) = Some o2 ->
     checkCollision o1 o2 = false) ->
  testPair i k w = w.
Proof.
  intros F H. unfold testPair.
  destruct (obj_lookup i (gameObjects w)) as [o1|] eqn:E1; [|reflexivity].
  destruct (obj_lookup k (gameObjects w)) as [o2|] eqn:E2; [|reflexivity].
  destruct (frozen_lookup _ _ _ _ F E1) as (p1 & L1 & F1).
  destruct (frozen_lookup _ _ _ _ F E2) as (p2 & L2 & F2).
  rewrite <- (checkCollision_frozen p1 o1 p2 o2 F1 F2), (H p1 p2 L1 L2). reflexivity.
Qed.

(** Obstacles and humans do not respond to the car. *)
Lemma onCollide_to_car (o car : GameObject) (w : World) :
  go_type o <> OBJECT_TYPE_CAR -> go_type car = OBJECT_TYPE_CAR -> onCollide o car w = w.
Proof. intros Ho Hc. unfold onCollide. rewrite Hc. destruct (go_type o); [contradiction|reflexivity..]. Qed.

Section SingleContact.
Variables (w : World) (car o : GameObject).
Hypothesis Hnd : NoDup (ids (gameObjects w)).
Hypothesis Hcar : In car (gameObjects w).
Hypothesis Tcar : go_type car = OBJECT_TYPE_CAR.
Hypothesis Ho : In o (gameObjects w).
Hypothesis To : go_type o <> OBJECT_TYPE_CAR.
Hypothesis Hhit : checkCollision car o = true.
Hypothesis Honly : forall a b, In a (gameObjects w) -> In b (gameObjects w) -> go_id a <> go_id b ->
  checkCollision a b = true -> (a = car /\ b = o) \/ (a = o /\ b = car).

Lemma contact_ids : go_id car <> go_id o.
Proof.
  intro E. apply To. rewrite <- Tcar. f_equal.
  pose proof (obj_lookup_unique _ _ Hnd Hcar) as L1. pose proof (obj_lookup_unique _ _ Hnd Ho) as L2.
  rewrite E in L1. congruence.
Qed.

(** Every visited pair but the contact is a no-op throughout the pass. *)
Lemma other_pairs_noop (p x : nat * nat) (w1 : World) :
  In p (visited_pairs string_key_le (ids (gameObjects w))) ->
  (p = (go_id car, go_id o) \/ p = (go_id o, go_id car)) ->
  In x (visited_pairs string_key_le (ids (gameObjects w))) -> x <> p ->
  map frozen (gameObjects w1) = map frozen (gameObjects w) ->
  testPair (fst x) (snd x) w1 = w1.
Proof.
  intros Hp Ep Hx Hne F. destruct x as [i k]. cbn [fst snd].
  apply (testPair_noop w); [exact F|]. intros o1 o2 L1 L2.
  destruct (checkCollision o1 o2) eqn:C; [exfalso|reflexivity].
  apply obj_lookup_In in L1 as [In1 <-]. apply obj_lookup_In in L2 as [In2 <-].
  pose proof Hx as Hx'. apply in_visited_pairs in Hx' as (K1 & K2 & Lk).
  assert (D : go_id o1 <> go_id o2) by (intro E; rewrite E, pair_order_refl in Lk; discriminate).
  destruct (Honly o1 o2 In1 In2 D C) as [[-> ->]|[-> ->]].
  - destruct Ep as [-> | ->]; [contradiction|].
    apply (proj1 (proj2 (visited_pairs_once string_key_le _ _ _ K1 K2) contact_ids) Hx Hp).
  - destruct Ep as [-> | ->]; [|contradiction].
    apply (proj1 (proj2 (visited_pairs_once string_key_le _ _ _ K2 K1) contact_ids) Hp Hx).
Qed.

Lemma single_contact : handleCollisions w = onCollide car o w.
Proof.
  set (keys := ids (gameObjects w)).
  assert (Kc : In (go_id car) keys) by (apply in_map; exact Hcar).
  assert (Ko : In (go_id o) keys) by (apply in_map; exact Ho).
  unfold handleCollisions, handleCollisionsWith. fold keys.
  destruct (Nat.ltb_spec (length keys) 2) as [Hl|_].
  { exfalso. destruct keys as [|k1 [|k2 ks]] eqn:EK; simpl in Hl; try lia; [destruct Kc|].
    destruct Kc as [E1|[]], Ko as [E2|[]]. apply contact_ids. congruence. }
  rewrite collidePass_pairs.
  assert (Once : In (go_id car, go_id o) (visited_pairs string_key_le keys) \/
                 In (go_id o, go_id car) (visited_pairs string_key_le keys)).
  { destruct (in_dec (fun x y : nat * nat => ltac:(repeat decide equality)) (go_id o, go_id car)
                      (visited_pairs string_key_le keys)) as [Y|N]; [right; exact Y|left].
    apply (proj2 (proj2 (visited_pairs_once string_key_le _ _ _ Kc Ko) contact_ids)). exact N. }
  pose proof (obj_lookup_unique _ _ Hnd Hcar) as Lc. pose proof (obj_lookup_unique _ _ Hnd Ho) as Lo.
  assert (Inv : forall i k, map frozen (gameObjects (testPair i k w)) = map frozen (gameObjects w))
    by (intros i k; apply (testPair_inv w w i k); split; [reflexivity|split; [reflexivity|exists []; rewrite app_nil_r; split; constructor]]).
  destruct Once as [P|P];
    (erewrite (fold_left_single _ (fun w1 => map frozen (gameObjects w1) = map frozen (gameObjects w)) _ _ w);
       [| apply visited_pairs_NoDup; exact Hnd | exact P
        | intros x b Hx Hne F; exact (other_pairs_noop _ x b P ltac:(tauto) Hx Hne F)
        | reflexivity | apply Inv]);
    unfold testPair; cbn [fst snd]; rewrite Lc, Lo.
  - rewrite Hhit. apply onCollide_to_car; assumption.
  - rewrite checkCollision_sym, Hhit, (onCollide_to_car o car w To Tcar). reflexivity.
Qed.

End SingleContact.

(** The gain or loss of a car-human contact in mode [m] (lines 141-146). *)
Definition contact_delta (m : GameMode) : Z :=
  match m with MODE_ROBOCAR => MODE_SCORE_DECREMENT | MODE_CARMAGEDDON => MODE_SCORE_INCREMENT end.

(** C11. Scenarios A, B and C of the spec, in every world: when the car
    overlaps exactly one object [o] and no other two objects overlap, the
    collision pass is the car's response to [o].  An obstacle stops the
    session ([stop]: [isGameOver] set, the callback fired) and leaves the
    score and the marks alone (A); a human changes the score by the mode's
    reward (Carmageddon, B) or penalty (Robocar, C), reports the delta to
    the HUD and marks the human for the reap, the game going on and no
    object leaving the store during the pass. *)
Theorem collision_scenarios (w : World) (car o : GameObject) :
  NoDup (ids (gameObjects w)) ->
  In car (gameObjects w) -> go_type car = OBJECT_TYPE_CAR ->
  In o (gameObjects w) -> go_type o <> OBJECT_TYPE_CAR ->
  checkCollision car o = true ->
  (forall a b, In a (gameObjects w) -> In b (gameObjects w) -> go_id a <> go_id b ->
     checkCollision a b = true -> (a = car /\ b = o) \/ (a = o /\ b = car)) ->
  let w' := handleCollisions w in
  (go_type o = OBJECT_TYPE_OBSTACLE ->
     w' = stop w /\ isGameOver w' = true /\ score w' = score w /\ toDestroy w' = toDestroy w) /\
  (go_type o = OBJECT_TYPE_HUMAN ->
     isGameOver w' = isGameOver w /\ gameObjects w' = gameObjects w /\
     toDestroy w' = toDestroy w ++ [go_id o] /\
     score w' = score w + inject_Z (contact_delta (gameMode w)) /\
     hud (env w') = addScore (contact_delta (gameMode w)) (hud (env w))).
Proof.
  intros Hnd Hcar Tcar Ho To Hhit Honly w'. unfold w'.
  rewrite (single_contact w car o Hnd Hcar Tcar Ho To Hhit Honly).
  unfold onCollide. rewrite Tcar. split; intro T; rewrite T.
  - change (type_eqb OBJECT_TYPE_OBSTACLE OBJECT_TYPE_OBSTACLE) with true.
    change (type_eqb OBJECT_TYPE_OBSTACLE OBJECT_TYPE_HUMAN) with false. cbv iota.
    destruct (stop_frame w) as (_ & _ & D & S & _ & _ & _ & _ & _ & _ & _ & _ & _ & G).
    splits; assumption || reflexivity.
  - change (type_eqb OBJECT_TYPE_HUMAN OBJECT_TYPE_OBSTACLE) with false.
    change (type_eqb OBJECT_TYPE_HUMAN OBJECT_TYPE_HUMAN) with true. cbv iota.
    unfold destroyGameObject, contact_delta. destruct (gameMode w); wsimpl; splits; reflexivity.
Qed.


(** ** Concrete runs *)

(** Ten objects in a row: keys ["1"] to ["10"]. *)
Definition crowd : list GameObject :=
  map (fun n => mkGameObject n (if Nat.eqb n 1 then OBJECT_TYPE_CAR else OBJECT_TYPE_OBSTACLE)
                             (inject_Z (Z.of_nat n)) 10 0) (seq 1 10).

Definition crowd_world : World := set_gameObjectId 11 (set_gameObjects crowd sample_world).

(** With ten keys the pair [{9, 10}] is visited as [(10, 9)]: string order,
    yet once. *)
Lemma handleCollisions_pairs_witness :
  In (10%nat, 9%nat) (visited_pairs string_key_le (ids (gameObjects crowd_world))) /\
  ~ In (9%nat, 10%nat) (visited_pairs string_key_le (ids (gameObjects crowd_world))) /\
  NoDup (visited_pairs string_key_le (ids (gameObjects crowd_world))).
Proof.
  assert (Hnd : NoDup (ids (gameObjects crowd_world)))
    by (apply (store_wf_NoDup 11), store_wfb_spec; reflexivity).
  destruct (handleCollisions_pairs crowd_world Hnd) as (_ & H1 & _ & H3).
  assert (Hin : In (10%nat, 9%nat) (visited_pairs string_key_le (ids (gameObjects crowd_world))))
    by (vm_compute; tauto).
  split; [exact Hin|]. split; [|exact H1].
  apply (H3 10%nat 9%nat); [vm_compute; tauto|vm_compute; tauto|discriminate|exact Hin].
Defined.

(** The car, a human on it and an obstacle further down the lane. *)
Definition contact_world : World :=
  set_gameObjectId 4 (set_gameObjects
    [mkGameObject 1 OBJECT_TYPE_CAR 0 0 0; mkGameObject 2 OBJECT_TYPE_HUMAN 0 0 0;
     mkGameObject 3 OBJECT_TYPE_OBSTACLE 0 30 0] sample_world).

Lemma collision_scenarios_witness :
  toDestroy (handleCollisions contact_world) = toDestroy contact_world ++ [2%nat] /\
  score (handleCollisions contact_world) = score contact_world + inject_Z MODE_SCORE_DECREMENT.
Proof.
  assert (Hnd : NoDup (ids (gameObjects contact_world)))
    by (apply (store_wf_NoDup 4), store_wfb_spec; reflexivity).
  destruct (collision_scenarios contact_world (mkGameObject 1 OBJECT_TYPE_CAR 0 0 0)
              (mkGameObject 2 OBJECT_TYPE_HUMAN 0 0 0) Hnd) as [_ H];
    [left; reflexivity|reflexivity|right; left; reflexivity|discriminate|vm_compute; reflexivity| |].
  - intros a b Ha Hb Hne Hc. cbn in Ha, Hb.
    destruct Ha as [<-|[<-|[<-|[]]]], Hb as [<-|[<-|[<-|[]]]];
      first [left; split; reflexivity | right; split; reflexivity
            | exfalso; apply Hne; reflexivity | vm_compute in Hc; discriminate Hc].
  - destruct (H eq_refl) as (_ & _ & D & S & _). split; [exact D|exact S].
Defined.

