(* ===== verification/Score.v ===== *)
(** The score ledger and the reap phase of [src/src/Game.js]: [updateScore]
    (lines 407-414: baseline growth [(difficulty + 1) / 10], the clamp at
    zero, the running maximum) and [clearGameObjects] (lines 416-430: mark
    the objects behind the viewer, delete every marked id, clear the marks).
    The theorems: the score is non-negative after the update and the
    maximum never decreases; the reap removes exactly the objects marked
    during the tick and those past the threshold, keeps the store well
    formed and empties [toDestroy]. *)

From S2P Require Import Prelude Entity State.

(** [updateScore()]. *)
Definition updateScore (w : World) : World :=
  let s := score w + inject_Z (difficulty w + 1) / 10 in
  let s := Qmax 0 s in
  let w := set_score s w in
  if inject_Z (score_value (maxScore w)) <q s then set_maxScore (ScoreNum (Qfloor s)) w else w.

(** [clearGameObjects()]. *)
Definition clearGameObjects (w : World) : World :=
  let marks := map go_id (filter (fun o => go_z o <q Z_DESTROY_THRESHOLD) (gameObjects w)) in
  let w := set_toDestroy (toDestroy w ++ marks) w in
  let w := set_gameObjects (fold_left (fun l id => obj_delete id l) (toDestroy w) (gameObjects w)) w in
  set_toDestroy [] w.

(** ** Lemmas *)

(** C17. The score ledger: after [updateScore] the score is
    [max 0 (score + (difficulty + 1) / 10)], hence never negative; the
    running maximum never decreases, and it is raised to the floor of the
    score exactly when the score exceeds it. *)
Theorem updateScore_spec (w : World) :
  let w' := updateScore w in
  score w' = Qmax 0 (score w + inject_Z (difficulty w + 1) / 10) /\
  0 <= score w' /\
  (score_value (maxScore w) <= score_value (maxScore w'))%Z /\
  (inject_Z (score_value (maxScore w)) < score w' -> maxScore w' = ScoreNum (Qfloor (score w'))) /\
  (score w' <= inject_Z (score_value (maxScore w)) -> maxScore w' = maxScore w).
Proof.
  cbv zeta. unfold updateScore.
  set (s := Qmax 0 (score w + inject_Z (difficulty w + 1) / 10)).
  assert (Hs : 0 <= s) by apply Q.le_max_l.
  qcase; wsimpl.
  - split; [reflexivity|]. split; [exact Hs|]. split; [|split; [reflexivity|intro; lra]].
    rewrite <- (Qfloor_Z (score_value (maxScore w))). apply Qfloor_resp_le. lra.
  - split; [reflexivity|]. split; [exact Hs|]. split; [lia|]. split; [intro; lra|reflexivity].
Qed.

(** Deleting the ids one by one keeps exactly the objects whose id is not
    among them. *)
Lemma fold_obj_delete (ds : list nat) (l : list GameObject) :
  fold_left (fun l id => obj_delete id l) ds l =
  filter (fun o => negb (existsb (Nat.eqb (go_id o)) ds)) l.
Proof.
  revert l. induction ds as [|d ds IH]; intro l; simpl.
  - induction l as [|o l IHl]; simpl; [reflexivity|]. rewrite <- IHl. reflexivity.
  - rewrite IH. unfold obj_delete. rewrite filter_filter_and.
    apply filter_ext. intro o. rewrite Bool.negb_orb. reflexivity.
Qed.

(** C18. The reap phase removes exactly the objects whose id was marked
    during the tick or whose depth is past [Z_DESTROY_THRESHOLD], keeps the
    others in order (so the store stays well formed) and clears the marks. *)
Theorem clearGameObjects_reap (w : World) :
  let w' := clearGameObjects w in
  gameObjects w' =
    filter (fun o => negb (existsb (Nat.eqb (go_id o))
                             (toDestroy w ++ map go_id (filter (fun p => go_z p <q Z_DESTROY_THRESHOLD)
                                                              (gameObjects w)))))
           (gameObjects w) /\
  toDestroy w' = [] /\
  (store_wf (gameObjectId w) (gameObjects w) -> store_wf (gameObjectId w') (gameObjects w')).
Proof.
  cbv zeta. unfold clearGameObjects. wsimpl. rewrite fold_obj_delete.
  split; [reflexivity|]. split; [reflexivity|].
  intros [Hs Hf]. split; [apply Sorted_lt_filter, Hs|apply Forall_filter_map, Hf].
Qed.

(** Neither phase touches the difficulty schedule. *)
Lemma updateScore_knobs (w : World) : knobs (updateScore w) = knobs w.
Proof. unfold updateScore. match goal with |- context [if ?c then _ else _] => destruct c end; reflexivity. Qed.

Lemma clearGameObjects_knobs (w : World) : knobs (clearGameObjects w) = knobs w.
Proof. reflexivity. Qed.
