(* ===== verification/Tick.v ===== *)
(** The simulation clock and the render loop of [src/src/Game.js]: [tick]
    (lines 501-512) composes the phases in the code's order, [draw]
    (488-499) snapshots the state for the renderer and the HUD and requests
    the next frame.  [session_step] is the browser's view of the closure:
    the exported calls ([init], [setCallback], [start], [stop], [restart]),
    key events while the listeners are registered, a firing of any active
    interval timer (one [tick]) and a firing of a pending frame request
    (one [draw]).  The theorems: in every state reachable from the module's
    initial state the car is at id 1 and inside the lane, ids are sorted and
    fresh, no mark is left between ticks, the difficulty schedule holds, the
    score is non-negative and every human is inside the lane; so a firing
    timer never makes [tick] throw, and frames keep the renderer's scroll
    offset in range; scenario D of the spec holds from any [start]. *)

From S2P Require Import Prelude Entity Random Hud Render State Difficulty Movement Spawner Lifecycle Collision Score.

Section Tick.
Variable rnd : Rng.

(** [tick()]; [None] is the [TypeError] of a missing car. *)
Definition tick (w : World) : option World :=
  let w := set_tickIndex (tickIndex w + 1) w in
  let w := updateDifficulty w in
  match updateCar w with
  | None => None
  | Some w =>
      let w := updateObstacles rnd w in
      let w := updateHumans rnd w in
      match updateGameObjects w with
      | None => None
      | Some w =>
          let w := handleCollisions w in
          let w := updateScore w in
          Some (clearGameObjects w)
      end
  end.

(** The interval timer firing [n] times in a row. *)
Fixpoint run (n : nat) (w : World) : option World :=
  match n with
  | O => Some w
  | S n => match run n w with Some w' => tick w' | None => None end
  end.

End Tick.

(** [draw()]: [Drawer.updateGameData(getGameData())], then the scene and
    every object are drawn from the store, then [drawUI()], then the next
    frame is requested. *)
Definition draw (w : World) : World :=
  let w := update_env (fun e => set_drawer (Drawer.dr_frame (getGameData w) (gameObjects w) (drawer e)) e) w in
  let w := drawUI w in
  let f := timer_seq (env w) in
  update_env (fun e => set_animationFrame f (set_frames (f :: frames e) (set_timer_seq (S f) e))) w.

(** The browser drops a frame request when it fires. *)
Definition fire_frame (f : nat) (w : World) : World :=
  update_env (fun e => set_frames (remove Nat.eq_dec f (frames e)) e) w.

(** One step of a session.  The page calls [init] when the renderer is
    mounted ([GameRenderer.componentDidMount]), before any control can be
    used, so [start], [stop] and [restart] are taken once [canvas] is set
    ([start] ends with [canvas.focus()]). *)
Inductive session_step (rnd : Rng) : World -> World -> Prop :=
| Step_init width height w : session_step rnd w (init width height w)
| Step_setCallback w : session_step rnd w (setCallback w)
| Step_start m w : canvas (env w) <> None -> session_step rnd w (start m w)
| Step_stop w : canvas (env w) <> None -> session_step rnd w (stop w)
| Step_restart m w : canvas (env w) <> None -> session_step rnd w (restart m w)
| Step_keyDown c k w :
    listeners (env w) = true -> session_step rnd w (onKeyDown c k w)
| Step_keyUp c k w :
    listeners (env w) = true -> session_step rnd w (onKeyUp c k w)
| Step_tick t w w' :
    In t (intervals (env w)) -> tick rnd w = Some w' -> session_step rnd w w'
| Step_frame f w :
    In f (frames (env w)) -> session_step rnd w (draw (fire_frame f w)).

Inductive reachable (rnd : Rng) (stored : option (option Z)) : World -> Prop :=
| Reach_init : reachable rnd stored (init_world stored)
| Reach_step w w' : reachable rnd stored w -> session_step rnd w w' -> reachable rnd stored w'.

(** ** The invariant of a running session *)

Definition CAR_LEFT : Q := SCENE_LEFT_BORDER + CAR_WIDTH / 2.
Definition CAR_RIGHT : Q := SCENE_RIGHT_BORDER - CAR_WIDTH / 2.

(** What every stored object satisfies: the car, and only the car, sits
    under id 1, at depth 0 and inside the lane; obstacles stand at slot
    centres; humans stand between the lane's inner borders. *)
Definition obj_ok (o : GameObject) : Prop :=
  (go_id o = 1%nat <-> go_type o = OBJECT_TYPE_CAR) /\
  match go_type o with
  | OBJECT_TYPE_CAR => go_z o = 0 /\ CAR_LEFT <= go_x o <= CAR_RIGHT
  | OBJECT_TYPE_OBSTACLE => at_slot 0 6 o
  | OBJECT_TYPE_HUMAN => HUMAN_LEFT <= go_x o <= HUMAN_RIGHT
  end.

(** The store of a session after [start]. *)
Definition core (w : World) : Prop :=
  (1 < gameObjectId w)%nat /\ store_wf (gameObjectId w) (gameObjects w) /\
  Forall obj_ok (gameObjects w) /\ In 1%nat (ids (gameObjects w)).

(** Within a tick: the store and the schedule. *)
Definition mid (w : World) : Prop := core w /\ progression_inv w.

(** Between ticks: no pending mark and a non-negative score as well. *)
Definition Started (w : World) : Prop := mid w /\ toDestroy w = [] /\ 0 <= score w.

(** Every state of the closure: a started session, or no interval timer
    at all. *)
Definition Inv (w : World) : Prop :=
  Started w \/ (intervals (env w) = [] /\ toDestroy w = []).

(** ** The store lemmas of the invariant *)

Lemma obj_ok_frozen (o o' : GameObject) : frozen o' = frozen o -> obj_ok o -> obj_ok o'.
Proof.
  unfold frozen, obj_ok, at_slot. intro E. injection E as E1 E2 E3 E4.
  rewrite E1, E2, E3, E4. tauto.
Qed.

Lemma Forall_frozen (l l0 : list GameObject) :
  map frozen l = map frozen l0 -> Forall obj_ok l0 -> Forall obj_ok l.
Proof.
  rewrite !Forall_forall. intros E H o Ho.
  apply (in_map frozen) in Ho. rewrite E in Ho. apply in_map_iff in Ho as [o0 [Hf Ho0]].
  apply (obj_ok_frozen o0); [symmetry; exact Hf|exact (H o0 Ho0)].
Qed.

Lemma ids_frozen (l l0 : list GameObject) : map frozen l = map frozen l0 -> ids l = ids l0.
Proof.
  intro E. unfold ids.
  transitivity (map (fun p => fst (fst (fst p))) (map frozen l)); [rewrite map_map; reflexivity|].
  rewrite E, map_map. reflexivity.
Qed.

(** Objects other than the car: their depth does not matter. *)
Lemma obj_ok_with_z (o : GameObject) (z : Q) :
  go_id o <> 1%nat -> obj_ok o -> obj_ok (with_z o z).
Proof.
  unfold obj_ok, at_slot. cbn [go_id go_type go_x go_z with_z].
  intros Hn [Hiff H]. split; [exact Hiff|].
  destruct (go_type o); [exfalso; apply Hn, Hiff; reflexivity|exact H|exact H].
Qed.

(** Objects appended to a store that holds the car have ids above 1. *)
Lemma appended_id (n : nat) (l new : list GameObject) (o : GameObject) :
  store_wf n (l ++ new) -> In 1%nat (ids l) -> In o new -> go_id o <> 1%nat.
Proof.
  intros [Hs _] H1 Ho. rewrite ids_app in Hs.
  pose proof (Sorted_lt_app _ _ _ _ Hs H1 (in_map go_id _ _ Ho)). lia.
Qed.

Lemma core_same (w w' : World) :
  gameObjects w' = gameObjects w -> gameObjectId w' = gameObjectId w -> core w -> core w'.
Proof. unfold core. intros -> ->. tauto. Qed.

Lemma mid_ledger (w w' : World) :
  gameObjects w' = gameObjects w -> gameObjectId w' = gameObjectId w ->
  knobs w' = knobs w -> mid w -> mid w'.
Proof.
  intros E1 E2 E3 [Hc Hp]. split; [eapply core_same|eapply progression_inv_knobs]; eassumption.
Qed.

Lemma ledger_knobs (w w' : World) : ledger w' = ledger w -> knobs w' = knobs w.
Proof. intro E. exact (f_equal (fun p => fst (fst p)) E). Qed.

(** ** The phases of [tick] against the invariant *)

Lemma tick_difficulty_mid (w : World) :
  mid w ->
  let w1 := updateDifficulty (set_tickIndex (tickIndex w + 1) w) in
  mid w1 /\ score w1 = score w /\ toDestroy w1 = toDestroy w.
Proof.
  intros [Hc Hp]. cbv zeta.
  destruct (updateDifficulty_store (set_tickIndex (tickIndex w + 1)%Z w)) as (E1 & E2 & E3 & E4).
  split; [split|split; assumption].
  - exact (core_same _ _ E1 E2 Hc).
  - apply progression_inv_step, Hp.
Qed.

(** The car found under id 1 is the car. *)
Lemma core_car (w : World) :
  core w -> exists car, getCar w = Some car /\ In car (gameObjects w) /\
                        go_id car = 1%nat /\ go_type car = OBJECT_TYPE_CAR.
Proof.
  intros (_ & _ & Hok & H1). destruct (obj_lookup_ids 1 _ H1) as [car Hc].
  destruct (obj_lookup_In _ _ _ Hc) as [Hin Hid]. exists car. splits; try assumption.
  apply (proj1 (Forall_forall _ _) Hok car Hin), Hid.
Qed.

Lemma updateCar_mid (w : World) :
  mid w -> exists w', updateCar w = Some w' /\ mid w' /\ ledger w' = ledger w.
Proof.
  intros [Hc Hp]. destruct (core_car w Hc) as (car & Hcar & _ & _ & Ht).
  destruct Hc as (Hn & Hwf & Hok & H1).
  unfold updateCar. rewrite Hcar. eexists. split; [reflexivity|]. split; [|reflexivity].
  split; [|exact Hp]. unfold core, store_wf. wsimpl. rewrite ids_obj_update by reflexivity.
  splits; try apply Hwf; try assumption.
  apply Forall_obj_update; [|exact Hok]. intros o _ Ho [Hiff Hm].
  assert (To : go_type o = OBJECT_TYPE_CAR) by (apply Hiff, Ho).
  unfold obj_ok. cbn [go_id go_type go_x go_z with_x]. split; [exact Hiff|].
  rewrite To in Hm |- *. split; [apply Hm|].
  unfold width, CAR_LEFT, CAR_RIGHT. rewrite Ht. cbn [type_width].
  apply clamp_bounds. unfold SCENE_LEFT_BORDER, SCENE_RIGHT_BORDER, CAR_WIDTH. qsolve.
Qed.

(** A grown store keeps the invariant when the appended objects are fine
    once their ids are known to be above 1. *)
Lemma core_grow (w w' : World) (new : list GameObject) :
  core w -> gameObjects w' = gameObjects w ++ new ->
  (gameObjectId w <= gameObjectId w')%nat -> store_wf (gameObjectId w') (gameObjects w') ->
  Forall (fun o => go_id o <> 1%nat -> obj_ok o) new -> core w'.
Proof.
  intros (Hn & _ & Hok & H1) G I Hwf Hnew. pose proof Hwf as Hwf'. rewrite G in Hwf'.
  unfold core. rewrite G, ids_app. splits; [lia|rewrite <- G; exact Hwf| |apply in_or_app; left; exact H1].
  apply Forall_app. split; [exact Hok|]. rewrite Forall_forall in Hnew |- *.
  intros o Ho. apply Hnew; [exact Ho|]. eapply appended_id; eassumption.
Qed.

Lemma ledger_fields (w w' : World) :
  ledger w' = ledger w -> score w' = score w /\ toDestroy w' = toDestroy w.
Proof. intro E. split; [exact (f_equal (fun p => snd (fst p)) E)|exact (f_equal snd E)]. Qed.

Lemma existsb_eqb_false (n : nat) (l : list nat) : ~ In n l -> existsb (Nat.eqb n) l = false.
Proof.
  intro H. destruct (existsb (Nat.eqb n) l) eqn:E; [|reflexivity].
  apply existsb_exists in E as [m [Hm Heq]]. apply Nat.eqb_eq in Heq. subst. contradiction.
Qed.

(** The walk keeps every object fine, and puts the humans appended this
    tick inside the lane. *)
Lemma walkHumans_ok (l : list GameObject) :
  Forall (fun o => obj_ok o \/ (go_type o = OBJECT_TYPE_HUMAN /\ go_id o <> 1%nat)) l ->
  Forall obj_ok (walkHumans l).
Proof.
  intro H. unfold walkHumans. apply Forall_map. eapply Forall_impl; [|exact H].
  intros o Ho. unfold type_eqb. destruct (ObjectType_eq_dec (go_type o) OBJECT_TYPE_HUMAN) as [Th|Tn].
  - destruct (walkHuman_frame o) as (Hx & Hi & Hty & _). unfold obj_ok. rewrite Hi, Hty, Th.
    split; [|exact Hx]. split; [|discriminate]. intro H1.
    destruct Ho as [[Hiff _]|[_ Hn]]; [rewrite (proj1 Hiff H1) in Th; discriminate|contradiction].
  - destruct Ho as [Ho|[Th _]]; [exact Ho|contradiction].
Qed.

Section Phases.
Variable rnd : Rng.
Hypothesis Hrnd : rng_ok rnd.

Lemma updateObstacles_mid (w : World) :
  mid w -> mid (updateObstacles rnd w) /\ ledger (updateObstacles rnd w) = ledger w.
Proof.
  intros [Hc Hp]. pose proof Hp as (Ht & Hd & _).
  assert (Hb : (0 <= difficulty w <= MAX_DIFFICULTY)%Z) by (rewrite Hd; apply level_at_bounds, Ht).
  pose proof Hc as (Hn & Hwf & _).
  destruct (updateObstacles_grows rnd Hrnd w Hb ltac:(lia) Hwf) as (new & G & Hs & I & Hwf' & L).
  split; [split|exact L].
  - apply (core_grow w _ new Hc G ltac:(lia) Hwf').
    eapply Forall_impl; [|exact Hs]. intros o Ho Hid. unfold obj_ok.
    rewrite (proj1 Ho). split; [split; [intro; contradiction|discriminate]|exact Ho].
  - exact (progression_inv_knobs _ _ (ledger_knobs _ _ L) Hp).
Qed.

Lemma updateHumans_mid (w : World) :
  mid w -> mid (updateHumans rnd w) /\ ledger (updateHumans rnd w) = ledger w.
Proof.
  intros [Hc Hp]. pose proof Hc as (Hn & Hwf & Hok & H1).
  destruct (updateHumans_grows rnd w ltac:(lia) Hwf) as (new & [[-> G]|G] & Hh & I & Hwf' & L);
    split; try exact L; split; try exact (progression_inv_knobs _ _ (ledger_knobs _ _ L) Hp).
  - simpl in I. rewrite Nat.add_0_r in I. exact (core_same _ _ G I Hc).
  - assert (Hwf2 : store_wf (gameObjectId (updateHumans rnd w)) (gameObjects w ++ new)).
    { unfold store_wf in *. rewrite G, ids_walkHumans in Hwf'. exact Hwf'. }
    unfold core. rewrite G, ids_walkHumans, ids_app.
    splits; [lia|rewrite <- G; exact Hwf'| |apply in_or_app; left; exact H1].
    apply walkHumans_ok, Forall_app. split; [eapply Forall_impl; [|exact Hok]; tauto|].
    rewrite Forall_forall in Hh |- *. intros o Ho. right.
    split; [exact (Hh o Ho)|eapply appended_id; eassumption].
Qed.

Lemma updateGameObjects_mid (w : World) :
  mid w -> exists w', updateGameObjects w = Some w' /\ mid w' /\ ledger w' = ledger w.
Proof.
  intros [Hc Hp]. destruct (core_car w Hc) as (car & Hcar & _).
  rewrite (updateGameObjects_spec w car Hcar). eexists. split; [reflexivity|].
  split; [|reflexivity]. split; [|exact Hp].
  destruct Hc as (Hn & Hwf & Hok & H1).
  set (g := fun o => if Nat.eqb (go_id o) 1 then o else with_z o (go_z o - speed w)).
  assert (Hids : ids (map g (gameObjects w)) = ids (gameObjects w)).
  { unfold ids. rewrite map_map. apply map_ext. intro o. unfold g.
    destruct (Nat.eqb (go_id o) 1); reflexivity. }
  unfold core, store_wf. wsimpl. rewrite Hids. splits; try apply Hwf; try assumption.
  apply Forall_map. eapply Forall_impl; [|exact Hok]. intros o Ho. unfold g.
  destruct (Nat.eqb_spec (go_id o) 1); [exact Ho|apply obj_ok_with_z; assumption].
Qed.

End Phases.

(** The collision pass keeps the store and the schedule; its marks never
    name the car. *)
Lemma handleCollisions_mid (w : World) :
  mid w ->
  mid (handleCollisions w) /\
  exists extra, toDestroy (handleCollisions w) = toDestroy w ++ extra /\ ~ In 1%nat extra.
Proof.
  intros [Hc Hp].
  assert (Hpass : pass_inv w (handleCollisions w)).
  { apply (handleCollisions_preserve (pass_inv w)); [intros i k w1; apply testPair_inv|].
    split; [reflexivity|]. split; [reflexivity|].
    exists []. rewrite app_nil_r. split; constructor. }
  destruct Hpass as (F & I & extra & D & M). destruct Hc as (Hn & Hwf & Hok & H1).
  split; [split|exists extra; split; [exact D|]].
  - unfold core, store_wf in *. rewrite I, (ids_frozen _ _ F).
    splits; try apply Hwf; try assumption. exact (Forall_frozen _ _ F Hok).
  - exact (progression_inv_knobs _ _ (handleCollisions_knobs w) Hp).
  - intro Hin. rewrite Forall_forall in M, Hok. destruct (M 1%nat Hin) as (o & Ho & Hid & Ht).
    destruct (Hok o Ho) as [Hiff _]. rewrite (proj1 Hiff Hid) in Ht. discriminate.
Qed.

Lemma updateScore_mid (w : World) :
  mid w -> mid (updateScore w) /\ toDestroy (updateScore w) = toDestroy w /\ 0 <= score (updateScore w).
Proof.
  intros Hm. unfold updateScore.
  match goal with |- context [if ?c then _ else _] => destruct c end;
    (splits; [eapply mid_ledger; [..|exact Hm]; reflexivity|reflexivity|apply Q.le_max_l]).
Qed.

(** The reap keeps the store fine and, since no mark names the car and the
    car stays at depth 0, keeps the car. *)
Lemma clearGameObjects_mid (w : World) :
  mid w -> ~ In 1%nat (toDestroy w) ->
  mid (clearGameObjects w) /\ toDestroy (clearGameObjects w) = [] /\
  score (clearGameObjects w) = score w.
Proof.
  intros Hm Hd. destruct (core_car w (proj1 Hm)) as (car & _ & Hin & Hid & Ht).
  destruct Hm as [(Hn & [Hs Hf] & Hok & H1) Hp].
  unfold clearGameObjects. wsimpl. rewrite fold_obj_delete.
  splits; [split; [|exact Hp]|reflexivity|reflexivity]. unfold core, store_wf. splits.
  - exact Hn.
  - apply Sorted_lt_filter, Hs.
  - apply Forall_filter_map, Hf.
  - apply Forall_filter, Hok.
  - rewrite <- Hid. apply in_map, filter_In. split; [exact Hin|].
    rewrite Hid, existsb_eqb_false; [reflexivity|]. intro H. apply in_app_or in H as [H|H]; [contradiction|].
    apply in_map_iff in H as (o & Ho & Hz). apply filter_In in Hz as [Ho' Hz].
    rewrite Forall_forall in Hok. destruct (Hok o Ho') as [Hiff Hm].
    rewrite (proj1 Hiff Ho) in Hm. destruct Hm as [Hz0 _]. rewrite Hz0 in Hz. discriminate.
Qed.

(** ** A tick from a running session *)

(** A tick from a running session never throws: [updateCar] and
    [updateGameObjects] always find the car, and the state after the tick
    is again a running session. *)
Lemma tick_Started (rnd : Rng) (w : World) :
  rng_ok rnd -> Started w ->
  exists w', tick rnd w = Some w' /\ Started w' /\
             knobs w' = knobs (updateDifficulty (set_tickIndex (tickIndex w + 1) w)).
Proof.
  intros Hrnd (Hm & Hd & Hs). unfold tick.
  destruct (tick_difficulty_mid w Hm) as (M1 & S1 & D1).
  destruct (updateCar_mid _ M1) as (w2 & E2 & M2 & L2). rewrite E2.
  destruct (updateObstacles_mid rnd Hrnd _ M2) as (M3 & L3).
  destruct (updateHumans_mid rnd _ M3) as (M4 & L4).
  destruct (updateGameObjects_mid _ M4) as (w5 & E5 & M5 & L5). rewrite E5.
  assert (D5 : toDestroy w5 = []).
  { destruct (ledger_fields _ _ L2), (ledger_fields _ _ L3), (ledger_fields _ _ L4),
      (ledger_fields _ _ L5). congruence. }
  destruct (handleCollisions_mid _ M5) as (M6 & extra & D6 & N6).
  destruct (updateScore_mid _ M6) as (M7 & D7 & S7).
  rewrite D5 in D6. simpl in D6.
  destruct (clearGameObjects_mid _ M7 ltac:(congruence)) as (M8 & D8 & S8).
  eexists. split; [reflexivity|]. split; [split; [exact M8|split; [exact D8|rewrite S8; exact S7]]|].
  rewrite clearGameObjects_knobs, updateScore_knobs, handleCollisions_knobs.
  rewrite (ledger_knobs _ _ L5), (ledger_knobs _ _ L4), (ledger_knobs _ _ L3), (ledger_knobs _ _ L2).
  reflexivity.
Qed.

(** The tick count advances by one per tick. *)
Lemma tick_tickIndex (w w' : World) :
  knobs w' = knobs (updateDifficulty (set_tickIndex (tickIndex w + 1) w)) ->
  tickIndex w' = (tickIndex w + 1)%Z.
Proof.
  intro E. apply (f_equal (fun k => fst (fst (fst (fst k))))) in E. cbn in E.
  rewrite updateDifficulty_tick in E. exact E.
Qed.

(** Any number of timer firings from a running session succeed and keep it
    running. *)
Lemma run_Started (rnd : Rng) (w : World) (n : nat) :
  rng_ok rnd -> Started w ->
  exists w', run rnd n w = Some w' /\ Started w' /\ tickIndex w' = (tickIndex w + Z.of_nat n)%Z.
Proof.
  intros Hrnd HS. induction n as [|n IH]; [exists w; splits; [reflexivity|exact HS|lia]|].
  destruct IH as (w1 & E1 & HS1 & T1).
  destruct (tick_Started rnd w1 Hrnd HS1) as (w2 & E2 & HS2 & K2).
  exists w2. simpl. rewrite E1. splits; [exact E2|exact HS2|].
  rewrite (tick_tickIndex _ _ K2), T1. lia.
Qed.

(** A tick either leaves the timers, the flag and the renderer's state
    alone or stops the game (from the collision pass). *)
Lemma tick_halted (rnd : Rng) (w w' : World) : tick rnd w = Some w' -> halted_or_kept w w'.
Proof.
  unfold tick. destruct (updateCar _) as [w1|] eqn:E1; [|discriminate].
  destruct (updateGameObjects _) as [w2|] eqn:E2; [|discriminate]. intro H. injection H as <-.
  assert (O : outside w2 = outside w).
  { rewrite (updateGameObjects_outside _ _ E2), updateHumans_outside, updateObstacles_outside,
      (updateCar_outside _ _ E1).
    unfold updateDifficulty. match goal with |- context [if ?c then _ else _] => destruct c end; reflexivity. }
  apply (halted_or_kept_outside w (handleCollisions w2)).
  - exact (halted_or_kept_from _ _ _ O (handleCollisions_halted w2)).
  - unfold clearGameObjects, updateScore.
    match goal with |- context [if ?c then _ else _] => destruct c end; reflexivity.
Qed.

(** ** The session operations against the invariant *)

(** What the invariant reads of a world. *)
Definition sim (w : World) : list GameObject * nat * ((Z * Z * Q * Q * Z) * Q * list nat) * list nat :=
  (gameObjects w, gameObjectId w, ledger w, intervals (env w)).

Lemma sim_fields (w w' : World) :
  sim w' = sim w ->
  gameObjects w' = gameObjects w /\ gameObjectId w' = gameObjectId w /\
  ledger w' = ledger w /\ intervals (env w') = intervals (env w).
Proof.
  intro E. splits;
    [exact (f_equal (fun p => fst (fst (fst p))) E) | exact (f_equal (fun p => snd (fst (fst p))) E)
    | exact (f_equal (fun p => snd (fst p)) E) | exact (f_equal snd E)].
Qed.

Lemma Started_ledger (w w' : World) :
  gameObjects w' = gameObjects w -> gameObjectId w' = gameObjectId w -> ledger w' = ledger w ->
  Started w -> Started w'.
Proof.
  intros E1 E2 E3 (Hm & Hd & Hs). destruct (ledger_fields _ _ E3) as [S D].
  split; [exact (mid_ledger _ _ E1 E2 (ledger_knobs _ _ E3) Hm)|]. split; congruence.
Qed.

Lemma Inv_sim (w w' : World) : sim w' = sim w -> Inv w -> Inv w'.
Proof.
  intro E. destruct (sim_fields _ _ E) as (E1 & E2 & E3 & E4).
  intros [HS|[Hi Hd]]; [left; exact (Started_ledger _ _ E1 E2 E3 HS)|right].
  destruct (ledger_fields _ _ E3). split; congruence.
Qed.

(** [sim_tac] computes an operation that touches none of the fields the
    invariant reads. *)
Ltac sim_tac :=
  repeat match goal with |- context [if ?c then _ else _] => destruct c end; reflexivity.

Lemma init_sim (width height : Q) (w : World) : sim (init width height w) = sim w.
Proof. unfold init, loadMaxScore, update_env. wsimpl. destruct (storage (env w)) as [[v|]|]; reflexivity. Qed.

Lemma key_sim (c : bool) (k : Z) (w : World) :
  sim (onKeyDown c k w) = sim w /\ sim (onKeyUp c k w) = sim w.
Proof. unfold onKeyDown, onKeyUp. split; sim_tac. Qed.

Lemma frame_sim (f : nat) (w : World) : sim (draw (fire_frame f w)) = sim w.
Proof. reflexivity. Qed.

(** [stop] clears the interval [start] recorded and keeps the store. *)
Lemma stop_fields (w : World) :
  gameObjects (stop w) = gameObjects w /\ gameObjectId (stop w) = gameObjectId w /\
  ledger (stop w) = ledger w /\
  intervals (env (stop w)) = remove Nat.eq_dec (gameInterval (env w)) (intervals (env w)).
Proof.
  unfold stop, drawUI, saveMaxScore, removeEventListeners.
  destruct (storage (env _)), (gameDataCallback _); splits; reflexivity.
Qed.

Lemma stop_Inv (w : World) : Inv w -> Inv (stop w).
Proof.
  destruct (stop_fields w) as (E1 & E2 & E3 & E4).
  intros [HS|[Hi Hd]]; [left; exact (Started_ledger _ _ E1 E2 E3 HS)|right].
  destruct (ledger_fields _ _ E3). rewrite E4, Hi. split; [reflexivity|congruence].
Qed.

(** [start] leaves a running session whenever no mark is pending. *)
Lemma start_Started (m : Z) (w : World) : toDestroy w = [] -> Started (start m w).
Proof.
  intro Hd. unfold Started, mid, core, progression_inv, obj_ok, store_wf, CAR_LEFT, CAR_RIGHT.
  unfold start, addEventListeners, createGameObject, update_env. wsimpl.
  splits; try exact Hd; try (split; intro; reflexivity); concrete; repeat constructor; concrete.
Qed.

(** ** Every reachable state *)

(** In every state reachable from the module's initial state, through any
    interleaving of the exported calls, key events, timer firings and
    frames, either the session is running or no interval timer is
    registered and no mark is pending. *)
Lemma reachable_Inv (rnd : Rng) (stored : option (option Z)) (w : World) :
  rng_ok rnd -> reachable rnd stored w -> Inv w.
Proof.
  intros Hrnd R. induction R as [|w w' R IH S]; [right; split; reflexivity|].
  assert (Hd : toDestroy w = []) by (destruct IH as [(_ & Hd & _)|[_ Hd]]; exact Hd).
  destruct S as [wd ht w|w|m w _|w _|m w _|c k w _|c k w _|t w w' Ht Et|f w _].
  - exact (Inv_sim _ _ (init_sim wd ht w) IH).
  - exact (Inv_sim w (setCallback w) eq_refl IH).
  - left. exact (start_Started m w Hd).
  - exact (stop_Inv w IH).
  - left. apply start_Started. destruct (stop_fields w) as (_ & _ & E & _).
    destruct (ledger_fields _ _ E). congruence.
  - exact (Inv_sim _ _ (proj1 (key_sim c k w)) IH).
  - exact (Inv_sim _ _ (proj2 (key_sim c k w)) IH).
  - destruct IH as [HS|[Hi _]]; [|rewrite Hi in Ht; contradiction].
    destruct (tick_Started rnd w Hrnd HS) as (w'' & E & HS' & _). left. congruence.
  - exact (Inv_sim _ _ (frame_sim f w) IH).
Qed.

(** ** The renderer across a session *)

(** What a frame of the renderer needs of a state: a non-negative speed
    and a scroll offset in [(0, SCENE_LINE_STEP]]. *)
Definition render_ok (w : World) : Prop :=
  0 <= speed w /\ 0 < Drawer.dr_scene_position (drawer (env w)) <= Drawer.SCENE_LINE_STEP.

Lemma Started_speed (w : World) : Started w -> 0 <= speed w.
Proof.
  intros ((_ & Hp) & _). pose proof (progression_bounds w Hp) as [[D _] _].
  destruct Hp as (_ & _ & Hs & _). rewrite Hs. unfold INITIAL_SPEED, SPEED_INCREMENT.
  assert (0 <= inject_Z (difficulty w)) by (change 0 with (inject_Z 0); rewrite <- Zle_Qle; exact D).
  lra.
Qed.

(** [start] sets the initial speed and leaves the renderer alone. *)
Lemma start_render (m : Z) (w : World) : render_ok w -> render_ok (start m w).
Proof. intros [_ H]. split; [change (speed (start m w)) with INITIAL_SPEED; unfold INITIAL_SPEED; lra|exact H]. Qed.

Lemma stop_render (w : World) : render_ok w -> render_ok (stop w).
Proof.
  intros [Hs H]. destruct (stop_frame w) as (_ & _ & _ & _ & _ & _ & _ & _ & S & _).
  split; [rewrite S; exact Hs|change (drawer (env (stop w))) with (snd (outside (stop w))); rewrite stop_outside; exact H].
Qed.

(** A frame moves the scroll offset within its range. *)
Lemma frame_render (f : nat) (w : World) : render_ok w -> render_ok (draw (fire_frame f w)).
Proof.
  intros [Hs [_ Hp]]. split; [exact Hs|].
  change (drawer (env (draw (fire_frame f w))))
    with (Drawer.dr_frame (getGameData w) (gameObjects w) (drawer (env w))).
  rewrite (proj1 (Drawer.dr_frame_scroll _ _ _)).
  apply Drawer.next_scene_position_range; assumption.
Qed.

(** C7. The renderer stays within its range in every reachable state,
    whatever interleaving of calls, timer firings and frames led there
    (restarts included): the speed is not negative and the scroll offset
    of the scene lines lies in [(0, SCENE_LINE_STEP]]. *)
Theorem reachable_render (rnd : Rng) (stored : option (option Z)) (w : World) :
  rng_ok rnd -> reachable rnd stored w -> render_ok w.
Proof.
  intros Hrnd R. induction R as [|w w' R IH S].
  - unfold render_ok. cbn. unfold Drawer.SCENE_LINE_STEP. lra.
  - destruct S as [wd ht w|w|m w _|w _|m w _|c k w _|c k w _|t w w' Ht Et|f w _].
    + unfold render_ok, init, loadMaxScore, update_env in *. wsimpl.
      destruct (storage (env w)) as [[v|]|]; exact IH.
    + exact IH.
    + apply start_render, IH.
    + apply stop_render, IH.
    + apply start_render, stop_render, IH.
    + unfold onKeyDown. repeat match goal with |- context [if ?c then _ else _] => destruct c end; exact IH.
    + unfold onKeyUp. repeat match goal with |- context [if ?c then _ else _] => destruct c end; exact IH.
    + destruct (reachable_Inv rnd stored w Hrnd R) as [HS|[Hi _]]; [|rewrite Hi in Ht; contradiction].
      destruct (tick_Started rnd w Hrnd HS) as (w2 & E & HS' & _). rewrite Et in E. injection E as <-.
      split; [exact (Started_speed _ HS')|rewrite (halted_or_kept_drawer _ _ (tick_halted rnd w w' Et)); apply IH].
    + apply frame_render, IH.
Qed.

(** C1. A firing interval timer never makes [tick] throw: in every
    reachable state, for every registered interval, [tick] returns a state
    (so the [Step_tick] transition exists) and that state is a running
    session. *)
Theorem timer_tick_total (rnd : Rng) (stored : option (option Z)) (w : World) (t : nat) :
  rng_ok rnd -> reachable rnd stored w -> In t (intervals (env w)) ->
  exists w', tick rnd w = Some w' /\ session_step rnd w w' /\ Started w'.
Proof.
  intros Hrnd R Ht. destruct (reachable_Inv rnd stored w Hrnd R) as [HS|[Hi _]];
    [|rewrite Hi in Ht; contradiction].
  destruct (tick_Started rnd w Hrnd HS) as (w' & E & HS' & _).
  exists w'. splits; [exact E|exact (Step_tick rnd t w w' Ht E)|exact HS'].
Qed.

(** C2. Whenever an interval timer is registered in a reachable state,
    the session is running: the car is stored under id 1, at depth 0 and
    inside the lane; ids are sorted, positive and below [gameObjectId];
    every human stands inside the lane; the difficulty follows the
    schedule and the obstacle interval stays within [[230, 500]] ticks; no
    mark is pending and the score is non-negative. *)
Theorem running_state (rnd : Rng) (stored : option (option Z)) (w : World) (t : nat) :
  rng_ok rnd -> reachable rnd stored w -> In t (intervals (env w)) ->
  (exists car, getCar w = Some car /\ go_type car = OBJECT_TYPE_CAR /\ go_z car = 0 /\
               CAR_LEFT <= go_x car <= CAR_RIGHT) /\
  store_wf (gameObjectId w) (gameObjects w) /\
  Forall (fun o => go_type o = OBJECT_TYPE_HUMAN -> HUMAN_LEFT <= go_x o <= HUMAN_RIGHT)
         (gameObjects w) /\
  difficulty w = level_at (tickIndex w) /\ (230 <= obstacleInterval w <= 500)%Z /\
  toDestroy w = [] /\ 0 <= score w.
Proof.
  intros Hrnd R Ht. destruct (reachable_Inv rnd stored w Hrnd R) as [HS|[Hi _]];
    [|rewrite Hi in Ht; contradiction].
  destruct HS as ([Hc Hp] & Hd & Hs). destruct (core_car w Hc) as (car & Hcar & Hin & _ & Hty).
  destruct Hc as (_ & Hwf & Hok & _). pose proof (progression_bounds w Hp) as [_ Hi].
  splits; try assumption; [| |apply Hp|apply Hi..].
  - exists car. pose proof (proj2 (proj1 (Forall_forall _ _) Hok car Hin)) as Hm.
    rewrite Hty in Hm. splits; try apply Hm; assumption.
  - eapply Forall_impl; [|exact Hok]. intros o [_ Hm] Th. rewrite Th in Hm. exact Hm.
Qed.

(** C10. Scenario D of the spec: from a fresh [start], the difficulty stays 0
    for the first 749 ticks, and tick 750 raises it to 1, changing the
    speed, the strafe speed and the obstacle interval by exactly one
    increment each (the ticks themselves never throw). *)
Theorem scenario_D (rnd : Rng) (m : Z) (w : World) :
  rng_ok rnd -> toDestroy w = [] ->
  (forall k, (k < 750)%nat -> exists w', run rnd k (start m w) = Some w' /\ difficulty w' = 0%Z) /\
  exists w749 w750,
    run rnd 749 (start m w) = Some w749 /\ tick rnd w749 = Some w750 /\
    difficulty w750 = 1%Z /\ speed w750 == speed w749 + SPEED_INCREMENT /\
    strafeSpeed w750 == strafeSpeed w749 + STRAFE_SPEED_INCREMENT /\
    obstacleInterval w750 = (obstacleInterval w749 + OBSTACLE_INTERVAL_DECREMENT)%Z.
Proof.
  intros Hrnd Hd. pose proof (start_Started m w Hd) as HS.
  assert (Lvl : forall w', Started w' -> (0 <= tickIndex w' < 750)%Z -> difficulty w' = 0%Z).
  { intros w' ((_ & _ & Hdw & _) & _) Ht. rewrite Hdw. unfold level_at, DIFFICULTY_UPDATE_INTERVAL.
    rewrite Z.div_small by lia. reflexivity. }
  split.
  - intros k Hk. destruct (run_Started rnd _ k Hrnd HS) as (w' & E & HS' & T).
    exists w'. split; [exact E|]. apply Lvl; [exact HS'|]. rewrite T. cbn. lia.
  - destruct (run_Started rnd _ 749 Hrnd HS) as (w1 & E1 & HS1 & T1).
    destruct (tick_Started rnd w1 Hrnd HS1) as (w2 & E2 & HS2 & K2).
    pose proof (tick_tickIndex _ _ K2) as T2. cbn in T1.
    assert (D1 : difficulty w1 = 0%Z) by (apply Lvl; [exact HS1|lia]).
    destruct HS1 as ((_ & _ & _ & S1 & SS1 & I1) & _), HS2 as ((_ & _ & Hd2 & S2 & SS2 & I2) & _).
    assert (D2 : difficulty w2 = 1%Z) by (rewrite Hd2, T2, T1; reflexivity).
    exists w1, w2. splits; try assumption.
    + rewrite S2, S1, D1, D2. unfold INITIAL_SPEED, SPEED_INCREMENT. qsolve.
    + rewrite SS2, SS1, D1, D2. unfold INITIAL_STRAFE_SPEED, STRAFE_SPEED_INCREMENT. qsolve.
    + rewrite I2, I1, D1, D2. reflexivity.
Qed.

(** ** Concrete runs *)

(** The session right after [start(MODE_ROBOCAR)] on a fresh page. *)
(** The page of the concrete runs: two 640 by 480 canvases. *)
Definition page_world : World := init 640 480 (init_world (Some None)).

Definition started_world : World := start 0 page_world.

Lemma started_world_reachable : reachable rng_half (Some None) started_world.
Proof.
  eapply Reach_step; [eapply Reach_step; [apply Reach_init|apply Step_init]|].
  apply Step_start. discriminate.
Qed.

Lemma timer_tick_total_witness :
  exists w', tick rng_half started_world = Some w' /\ session_step rng_half started_world w' /\
             Started w'.
Proof.
  apply (timer_tick_total rng_half (Some None) started_world 1%nat rng_half_ok started_world_reachable).
  vm_compute. left. reflexivity.
Defined.

Lemma running_state_witness :
  (exists car, getCar started_world = Some car /\ go_type car = OBJECT_TYPE_CAR /\ go_z car = 0 /\
               CAR_LEFT <= go_x car <= CAR_RIGHT) /\
  store_wf (gameObjectId started_world) (gameObjects started_world) /\
  Forall (fun o => go_type o = OBJECT_TYPE_HUMAN -> HUMAN_LEFT <= go_x o <= HUMAN_RIGHT)
         (gameObjects started_world) /\
  difficulty started_world = level_at (tickIndex started_world) /\
  (230 <= obstacleInterval started_world <= 500)%Z /\
  toDestroy started_world = [] /\ 0 <= score started_world.
Proof.
  apply (running_state rng_half (Some None) started_world 1%nat rng_half_ok started_world_reachable).
  vm_compute. left. reflexivity.
Defined.

Lemma scenario_D_witness :
  (forall k, (k < 750)%nat ->
     exists w', run rng_half k (start 0 (init_world (Some None))) = Some w' /\ difficulty w' = 0%Z) /\
  exists w749 w750,
    run rng_half 749 (start 0 (init_world (Some None))) = Some w749 /\ tick rng_half w749 = Some w750 /\
    difficulty w750 = 1%Z /\ speed w750 == speed w749 + SPEED_INCREMENT /\
    strafeSpeed w750 == strafeSpeed w749 + STRAFE_SPEED_INCREMENT /\
    obstacleInterval w750 = (obstacleInterval w749 + OBSTACLE_INTERVAL_DECREMENT)%Z.
Proof. apply (scenario_D rng_half 0 (init_world (Some None)) rng_half_ok). reflexivity. Defined.

Lemma reachable_render_witness : render_ok started_world.
Proof. exact (reachable_render rng_half (Some None) started_world rng_half_ok started_world_reachable). Defined.
