(* ===== verification/Controls.v ===== *)
(** The React page of the game, in [Module Page]: the [Game] component of
    [src/src/components/Game.js] (its state [mode], [gameData], [message],
    [playing], its callback [gameCallback] and its handlers
    [handleChangeMode], [handleStartGame], [handleRestartGame]), the
    [GameControls] component of [src/src/components/GameControls.js] (its
    state [gameWasStarted] and the one button it renders, Start before the
    first start and Restart after), and the [componentDidMount] of
    [src/src/components/GameRenderer.js], which calls [Game.init].  The
    page owns a [World] of the [Game] module; a call into the module is
    followed by the callbacks it made, read off the callback log.  The
    theorems: under the page, at most one interval timer is ever
    registered (the module alone does not guarantee it,
    [Lifecycle.start_twice_leaks]); the page refines the session machine
    [Idle -> Running -> GameOver] of the spec, with [isGameOver] telling
    the running phase from the finished one; a restart of a running game
    reports that game to [gameCallback] as over. *)

From S2P Require Import Prelude Entity Random Hud State Lifecycle Tick.

Module Page.

(** ** The components' state (Game.js lines 10-26, GameControls.js lines 16-21) *)

Definition RENDER_WIDTH : Q := 640.
Definition RENDER_HEIGHT : Q := 480.
Definition MODE_ROBOCAR : Z := 0.

(** [this.state] of [Game]; [gameData] is [{}] ([None]) until the first
    callback. *)
Record GameState : Type := mkGameState {
  gs_mode : Z;
  gs_gameData : option GameData;
  gs_message : string;
  gs_playing : bool
}.

(** [this.state] of [GameControls]. *)
Record ControlsState : Type := mkControlsState { gameWasStarted : bool }.

Record Page : Type := mkPage {
  pg_game : World;
  pg_state : GameState;
  pg_controls : ControlsState
}.

Definition set_playing (b : bool) (p : Page) : Page :=
  let s := pg_state p in
  mkPage (pg_game p) (mkGameState (gs_mode s) (gs_gameData s) (gs_message s) b) (pg_controls p).

(** ** [gameCallback] (lines 29-46) *)

(** [score === maxScore]: [score] is the number [Math.floor(score)]; a
    maximum read back from [localStorage] is a string, never strictly
    equal to a number. *)
Definition strict_eq_score (score : Z) (maxScore : JsScore) : bool :=
  match maxScore with
  | ScoreNum n => Z.eqb score n
  | ScoreStr _ => false
  end.

(** The message of a finished game (lines 35-40). *)
Definition gameOverMessage (score : Z) (maxScore : JsScore) : string :=
  let message := ("You've earned " ++ js_int_string score ++ " points!")%string in
  if strict_eq_score score maxScore then (message ++ " That's a new record!")%string
  else message.

(** [gameCallback(gameData)]: [gameData['gameOver']] is [+isGameOver],
    truthy when it is not [0]. *)
Definition gameCallback (gd : GameData) (s : GameState) : GameState :=
  let s := mkGameState (gs_mode s) (Some gd) (gs_message s) (gs_playing s) in
  if negb (gd_gameOver gd =? 0)%Z
  then mkGameState (gs_mode s) (gs_gameData s) (gameOverMessage (gd_score gd) (gd_maxScore gd)) false
  else s.

(** The callbacks a call into the module made: the snapshots it appended
    to the callback log, in order. *)
Definition deliver (w w' : World) (s : GameState) : GameState :=
  fold_left (fun s gd => gameCallback gd s)
            (skipn (length (callback_log (env w))) (callback_log (env w'))) s.

(** A call [f] into the module, then the callbacks it made. *)
Definition call (f : World -> World) (p : Page) : Page :=
  let w' := f (pg_game p) in
  mkPage w' (deliver (pg_game p) w' (pg_state p)) (pg_controls p).

(** ** The handlers *)

(** [handleChangeMode] (lines 48-52): [parseInt] of the selected option's
    value, the index [v] of a mode. *)
Definition handleChangeMode (v : Z) (p : Page) : Page :=
  let s := pg_state p in
  mkPage (pg_game p) (mkGameState v (gs_gameData s) (gs_message s) (gs_playing s)) (pg_controls p).

(** [Game.handleStartGame] (lines 54-59). *)
Definition handleStartGame (p : Page) : Page :=
  set_playing true (call (start (gs_mode (pg_state p))) p).

(** [Game.handleRestartGame] (lines 61-66): [restart] calls [stop], which
    calls [gameCallback] before [start] runs. *)
Definition handleRestartGame (p : Page) : Page :=
  set_playing true (call (restart (gs_mode (pg_state p))) p).

(** [GameControls.handleStartGame] (lines 27-32): the flag, then the
    parent's handler. *)
Definition controls_handleStartGame (p : Page) : Page :=
  handleStartGame (mkPage (pg_game p) (pg_state p) (mkControlsState true)).

(** A click on the button [GameControls] renders (lines 52-56). *)
Definition click_button (p : Page) : Page :=
  if gameWasStarted (pg_controls p) then handleRestartGame p else controls_handleStartGame p.

(** [GameRenderer.componentDidMount] (GameRenderer.js lines 13-15):
    [init] on the two canvases of [RENDER_WIDTH] by [RENDER_HEIGHT]. *)
Definition componentDidMount (p : Page) : Page := call (init RENDER_WIDTH RENDER_HEIGHT) p.

(** The page once mounted: the [Game] constructor sets the callback and
    the initial state (lines 17-27), then the renderer mounts. *)
Definition page_initial (stored : option (option Z)) : Page :=
  componentDidMount
       (mkPage (setCallback (init_world stored)) (mkGameState MODE_ROBOCAR None "" false)
               (mkControlsState false)).

(** What can happen on the page: the user changes the mode or clicks the
    button, keys reach the module's listeners, an interval timer fires
    [tick], a frame request fires [draw]. *)
Inductive page_step (rnd : Rng) : Page -> Page -> Prop :=
| Page_mode v p : page_step rnd p (handleChangeMode v p)
| Page_click p : page_step rnd p (click_button p)
| Page_keyDown c k p :
    listeners (env (pg_game p)) = true -> page_step rnd p (call (onKeyDown c k) p)
| Page_keyUp c k p :
    listeners (env (pg_game p)) = true -> page_step rnd p (call (onKeyUp c k) p)
| Page_tick t p w' :
    In t (intervals (env (pg_game p))) -> tick rnd (pg_game p) = Some w' ->
    page_step rnd p (mkPage w' (deliver (pg_game p) w' (pg_state p)) (pg_controls p))
| Page_frame f p :
    In f (frames (env (pg_game p))) -> page_step rnd p (call (fun w => draw (fire_frame f w)) p).

Inductive page_reachable (rnd : Rng) (stored : option (option Z)) : Page -> Prop :=
| PReach_init : page_reachable rnd stored (page_initial stored)
| PReach_step p p' :
    page_reachable rnd stored p -> page_step rnd p p' -> page_reachable rnd stored p'.

(** ** The session machine of the spec *)

Inductive Phase : Type := Idle | Running | GameOver.

(** Section 4.6 of the spec: [start] from [Idle], ticks while running,
    a game over, and a [restart] from [GameOver]. *)
Inductive phase_step : Phase -> Phase -> Prop :=
| PS_start : phase_step Idle Running
| PS_tick : phase_step Running Running
| PS_stop : phase_step Running GameOver
| PS_restart : phase_step GameOver Running.

(** The phase of a page: running while an interval timer is registered;
    before the first start idle, after it over. *)
Definition phase_of (started : bool) (ivs : list nat) : Phase :=
  match ivs with
  | [] => if started then GameOver else Idle
  | _ :: _ => Running
  end.

Definition phase (p : Page) : Phase :=
  phase_of (gameWasStarted (pg_controls p)) (intervals (env (pg_game p))).

(** ** The invariant of the page *)

(** What the page's invariant reads of the module: the game-over flag, the
    callback flag, the registered intervals and [gameInterval]. *)
Definition view (w : World) : bool * bool * (list nat * nat) :=
  (isGameOver w, gameDataCallback w, timers w).

Definition inv_of (started : bool) (v : bool * bool * (list nat * nat)) : Prop :=
  match v with
  | (over, cb, (ivs, gi)) =>
      (ivs = [] \/ ivs = [gi]) /\ (started = false -> ivs = []) /\
      (started = true -> (ivs = [] <-> over = true)) /\ cb = true
  end.

(** At most the interval [gameInterval] holds is registered, none before
    the first start, one exactly while the game is not over, and the
    callback is set. *)
Definition page_inv (p : Page) : Prop :=
  inv_of (gameWasStarted (pg_controls p)) (view (pg_game p)).

Lemma view_outside (w : World) : view w = fst (outside w).
Proof. reflexivity. Qed.

Lemma phase_view (p : Page) :
  phase p = phase_of (gameWasStarted (pg_controls p)) (fst (snd (view (pg_game p)))).
Proof. reflexivity. Qed.

(** A step that keeps the view keeps the invariant and the phase. *)
Lemma view_same (p p' : Page) :
  view (pg_game p') = view (pg_game p) -> pg_controls p' = pg_controls p ->
  page_inv p -> page_inv p' /\ phase p' = phase p.
Proof.
  intros V C H. unfold page_inv in *. rewrite !phase_view, V, C. auto.
Qed.

Lemma key_view (c : bool) (k : Z) (w : World) :
  view (onKeyDown c k w) = view w /\ view (onKeyUp c k w) = view w.
Proof.
  unfold onKeyDown, onKeyUp.
  split; repeat match goal with |- context [if ?b then _ else _] => destruct b end; reflexivity.
Qed.

Lemma init_view (width height : Q) (w : World) : view (init width height w) = view w.
Proof. unfold init, loadMaxScore, update_env. wsimpl. destruct (storage (env w)) as [[v|]|]; reflexivity. Qed.

(** A tick keeps the view or stops the game. *)
Lemma tick_view (rnd : Rng) (w w' : World) :
  tick rnd w = Some w' ->
  view w' = view w \/
  view w' = (true, gameDataCallback w,
             (remove Nat.eq_dec (gameInterval (env w)) (intervals (env w)), gameInterval (env w))).
Proof.
  intro E. rewrite !view_outside.
  destruct (tick_halted rnd w w' E) as [O|O]; rewrite O; [left|right]; reflexivity.
Qed.

(** The view after [start], on a stopped module. *)
Lemma start_view (m : Z) (w : World) :
  view (start m w) =
  (false, gameDataCallback w, (timer_seq (env w) :: intervals (env w), timer_seq (env w))).
Proof. rewrite view_outside, start_outside. reflexivity. Qed.

Lemma stop_view (w : World) :
  view (stop w) =
  (true, gameDataCallback w,
   (remove Nat.eq_dec (gameInterval (env w)) (intervals (env w)), gameInterval (env w))).
Proof. rewrite view_outside, stop_outside. reflexivity. Qed.

Lemma remove_single (gi : nat) (ivs : list nat) :
  ivs = [] \/ ivs = [gi] -> remove Nat.eq_dec gi ivs = [].
Proof. intros [->| ->]; cbn; [reflexivity|]. destruct (Nat.eq_dec gi gi); [reflexivity|congruence]. Qed.

Lemma restart_view (m : Z) (w : World) :
  view (restart m w) =
  (false, gameDataCallback w,
   (timer_seq (env (stop w)) :: remove Nat.eq_dec (gameInterval (env w)) (intervals (env w)),
    timer_seq (env (stop w)))).
Proof.
  unfold restart. rewrite start_view. pose proof (stop_view w) as E. unfold view, timers in E.
  apply pair_equal_spec in E as [E1 E2]. apply pair_equal_spec in E1 as [_ C].
  apply pair_equal_spec in E2 as [I _]. rewrite C, I. reflexivity.
Qed.

(** The initial page satisfies the invariant. *)
Lemma page_inv_initial (stored : option (option Z)) : page_inv (page_initial stored).
Proof.
  unfold page_inv, page_initial, componentDidMount, call. cbn [pg_game pg_controls]. rewrite init_view.
  cbn. split; [left; reflexivity|]. split; [reflexivity|]. split; [discriminate|reflexivity].
Qed.

(** What the invariant says of the flag in each phase. *)
Lemma page_inv_flag (p : Page) :
  page_inv p ->
  (phase p = Running -> isGameOver (pg_game p) = false) /\
  (phase p = GameOver -> isGameOver (pg_game p) = true).
Proof.
  unfold page_inv, phase. cbn.
  destruct (intervals (env (pg_game p))) as [|i ivs], (gameWasStarted (pg_controls p)), (isGameOver (pg_game p));
    intros (_ & S0 & S1 & _); split; intro P; try discriminate; try reflexivity;
    try specialize (S0 eq_refl); try specialize (S1 eq_refl); try discriminate;
    destruct S1 as [X Y]; first [discriminate (X eq_refl) | discriminate (Y eq_refl)].
Qed.

(** Every step of the page keeps the invariant and is a step of the
    session machine or leaves the phase as it was. *)
Lemma page_step_inv (rnd : Rng) (p p' : Page) :
  page_inv p -> page_step rnd p p' ->
  page_inv p' /\ (phase p' = phase p \/ phase_step (phase p) (phase p')).
Proof.
  intros H S. destruct S as [v p|p|c k p _|c k p _|t p w' Ht Et|f p _].
  - destruct (view_same p (handleChangeMode v p) eq_refl eq_refl H) as [H' E]. auto.
  - unfold page_inv in *. rewrite !phase_view.
    unfold click_button, handleRestartGame, controls_handleStartGame, handleStartGame, set_playing, call.
    revert H. cbn [pg_game pg_controls gameWasStarted].
    destruct (gameWasStarted (pg_controls p)) eqn:St; cbn [pg_game pg_controls gameWasStarted];
      rewrite ?St.
    + rewrite restart_view. unfold view, timers. cbn.
      intros (D & _ & _ & C). rewrite (remove_single _ _ D). split.
      * split; [right; reflexivity|]. split; [intro X; discriminate X|]. split; [intros _; split; intro X; discriminate X|exact C].
      * right. destruct D as [-> | ->]; constructor.
    + rewrite start_view. unfold view, timers. cbn.
      intros (_ & I & _ & C). rewrite (I eq_refl). split.
      * split; [right; reflexivity|]. split; [intro X; discriminate X|]. split; [intros _; split; intro X; discriminate X|exact C].
      * right. constructor.
  - destruct (view_same p (call (onKeyDown c k) p) (proj1 (key_view c k _)) eq_refl H) as [H' E]. auto.
  - destruct (view_same p (call (onKeyUp c k) p) (proj2 (key_view c k _)) eq_refl H) as [H' E]. auto.
  - destruct (tick_view rnd _ _ Et) as [V|V].
    + destruct (view_same p (mkPage w' (deliver (pg_game p) w' (pg_state p)) (pg_controls p)) V eq_refl H)
        as [H' E]. auto.
    + unfold page_inv in *. rewrite !phase_view. cbn [pg_game pg_controls]. rewrite V.
      revert H Ht. unfold view, timers. cbn.
      destruct (intervals (env (pg_game p))) as [|i ivs]; [contradiction|].
      destruct (gameWasStarted (pg_controls p)); intros (D & I & _ & C) _; [|discriminate (I eq_refl)].
      rewrite (remove_single _ _ D). split.
      * split; [left; reflexivity|]. split; [intro X; discriminate X|]. split; [intros _; split; intros _; reflexivity|exact C].
      * right. constructor.
  - destruct (view_same p (call (fun w => draw (fire_frame f w)) p) eq_refl eq_refl H) as [H' E]. auto.
Qed.

Lemma page_reachable_inv (rnd : Rng) (stored : option (option Z)) (p : Page) :
  page_reachable rnd stored p -> page_inv p.
Proof.
  induction 1 as [|p p' _ IH S]; [apply page_inv_initial|exact (proj1 (page_step_inv rnd p p' IH S))].
Qed.

(** A restart reports the snapshot [stop] takes, once. *)
Lemma restart_callback (m : Z) (w : World) :
  gameDataCallback w = true ->
  callback_log (env (restart m w)) = callback_log (env w) ++ [getGameData (set_isGameOver true w)].
Proof.
  intro C. unfold restart. change (callback_log (env (start m (stop w)))) with (callback_log (env (stop w))).
  rewrite stop_callback, C. reflexivity.
Qed.

Lemma deliver_one (w w' : World) (gd : GameData) (s : GameState) :
  callback_log (env w') = callback_log (env w) ++ [gd] -> deliver w w' s = gameCallback gd s.
Proof.
  intro E. unfold deliver. rewrite E, skipn_app, Nat.sub_diag, skipn_all. reflexivity.
Qed.

(** In a running page the button is Restart and the callback is set. *)
Lemma running_started (p : Page) :
  page_inv p -> phase p = Running ->
  gameWasStarted (pg_controls p) = true /\ gameDataCallback (pg_game p) = true.
Proof.
  unfold page_inv, phase. cbn. destruct (intervals (env (pg_game p))); [destruct (gameWasStarted _); discriminate|].
  destruct (gameWasStarted (pg_controls p)); intros (_ & I & _ & C) _; [auto|discriminate (I eq_refl)].
Qed.

(** ** The page's guarantees *)

(** C6. Under the page the module never runs two interval timers: in
    every state reachable by mode changes, clicks on the button, key
    events, timer firings and frames, the registered intervals are none or
    the one [gameInterval] holds, so every [stop] clears all of them. *)
Theorem page_single_timer (rnd : Rng) (stored : option (option Z)) (p : Page) :
  page_reachable rnd stored p ->
  intervals (env (pg_game p)) = [] \/ intervals (env (pg_game p)) = [gameInterval (env (pg_game p))].
Proof. intro R. exact (proj1 (page_reachable_inv rnd stored p R)). Qed.

(** C5. The page refines the session machine of the spec (section 4.6):
    every step from a reachable page is a step [Idle -> Running],
    [Running -> Running], [Running -> GameOver] or [GameOver -> Running] of
    the abstraction [phase], or leaves the phase as it was; in the state it
    reaches, [isGameOver] is false while running and true once over. *)
Theorem page_refines (rnd : Rng) (stored : option (option Z)) (p p' : Page) :
  page_reachable rnd stored p -> page_step rnd p p' ->
  (phase p' = phase p \/ phase_step (phase p) (phase p')) /\
  (phase p' = Running -> isGameOver (pg_game p') = false) /\
  (phase p' = GameOver -> isGameOver (pg_game p') = true).
Proof.
  intros R S. destruct (page_step_inv rnd p p' (page_reachable_inv rnd stored p R) S) as [H' P].
  split; [exact P|exact (page_inv_flag p' H')].
Qed.

(** C28. The Restart button on a running game: [gameCallback] receives the
    snapshot of the aborted game with [gameOver] set, shows the game-over
    message for its score, and the new game runs with [playing] true, the
    message of the aborted game staying on the page. *)
Theorem restart_reports_game (rnd : Rng) (stored : option (option Z)) (p : Page) :
  page_reachable rnd stored p -> phase p = Running ->
  let p' := click_button p in
  phase p' = Running /\ gs_playing (pg_state p') = true /\
  gs_gameData (pg_state p') = Some (getGameData (set_isGameOver true (pg_game p))) /\
  gs_message (pg_state p') = gameOverMessage (Qfloor (score (pg_game p))) (maxScore (pg_game p)).
Proof.
  intros R P. destruct (running_started p (page_reachable_inv rnd stored p R) P) as [St C].
  cbv zeta. unfold click_button. rewrite St. unfold handleRestartGame, set_playing, call.
  rewrite (deliver_one _ _ _ _ (restart_callback _ _ C)). rewrite phase_view. cbn [pg_game pg_controls].
  rewrite restart_view, St. splits; reflexivity.
Qed.

End Page.

(** ** A concrete page *)

(** The page after the first click on its button: a Robocar game on a
    page whose [localStorage] holds no maximum. *)
Definition page_started : Page.Page := Page.click_button (Page.page_initial (Some None)).

Lemma page_started_reachable : Page.page_reachable rng_half (Some None) page_started.
Proof. apply (Page.PReach_step _ _ _ _ (Page.PReach_init _ _)), Page.Page_click. Qed.

Lemma page_single_timer_witness :
  intervals (env (Page.pg_game page_started)) = [] \/
  intervals (env (Page.pg_game page_started)) = [gameInterval (env (Page.pg_game page_started))].
Proof. exact (Page.page_single_timer rng_half (Some None) page_started page_started_reachable). Defined.

Lemma page_refines_witness :
  let p' := Page.click_button page_started in
  (Page.phase p' = Page.phase page_started \/ Page.phase_step (Page.phase page_started) (Page.phase p')) /\
  (Page.phase p' = Page.Running -> isGameOver (Page.pg_game p') = false) /\
  (Page.phase p' = Page.GameOver -> isGameOver (Page.pg_game p') = true).
Proof.
  exact (Page.page_refines rng_half (Some None) page_started (Page.click_button page_started)
           page_started_reachable (Page.Page_click _ _)).
Defined.

Lemma restart_reports_game_witness :
  let p' := Page.click_button page_started in
  Page.phase p' = Page.Running /\ Page.gs_playing (Page.pg_state p') = true /\
  Page.gs_gameData (Page.pg_state p') = Some (getGameData (set_isGameOver true (Page.pg_game page_started))) /\
  Page.gs_message (Page.pg_state p') =
    Page.gameOverMessage (Qfloor (score (Page.pg_game page_started))) (maxScore (Page.pg_game page_started)).
Proof.
  apply (Page.restart_reports_game rng_half (Some None) page_started page_started_reachable).
  vm_compute. reflexivity.
Defined.
