(* ===== verification/Chat.v ===== *)
(** The chat widget, in [Module Chat]: [ChatContainer]
    ([src/src/containers/ChatContainer.js]) with its WebSocket, and the
    components it renders ([Chat], [ChatDisconnected], [ChatMessageForm],
    [ChatUsernameForm], [ChatMessages] under [src/src/components/]).  The
    container's state ([messages], [username], [connected]) and [this.ws]
    form one record with every socket the container created (a socket's
    [onopen], [onmessage] and [onclose] are the container's arrow
    functions, so an old socket still writes the container's state) and
    the values of the two forms.  The browser's side is a set of events:
    a socket opens, receives a message, starts closing, closes; the user
    clicks Reconnect, types into a form, submits it.  A form that React
    mounts anew, when [Chat] switches views, starts empty.  The theorems:
    [trim] is idempotent and the stored username is trimmed and not empty;
    [connected] implies an open socket, but not the converse: a close
    event of an old socket leaves a page that shows "disconnected" over an
    open socket and whose Reconnect does nothing; a message submitted while
    the socket is not open is dropped, the input cleared.  The App shell
    ([src/src/App.js]) only renders [Game] next to [ChatContainer] and
    never unmounts it, so [componentWillUnmount] is not among the events;
    [JSON.parse] of the server's frames is not modelled (a frame is the
    message it encodes). *)

From S2P Require Import Prelude.
From Stdlib Require Import Ascii.

Module Chat.

(** ** [String.prototype.trim] on 8-bit strings *)

(** The whitespace and line terminators [trim] removes among the 256
    characters of [ascii] (read as Latin-1): tab, line feed, vertical tab,
    form feed, carriage return, space and the no-break space U+00A0. *)
Definition is_ws (c : ascii) : bool :=
  let n := nat_of_ascii c in
  (n =? 32)%nat || ((9 <=? n)%nat && (n <=? 13)%nat) || (n =? 160)%nat.

Fixpoint drop_ws (l : list ascii) : list ascii :=
  match l with
  | [] => []
  | c :: l' => if is_ws c then drop_ws l' else l
  end.

Definition trim (s : string) : string :=
  string_of_list_ascii (rev (drop_ws (rev (drop_ws (list_ascii_of_string s))))).

(** ** State *)

(** [WebSocket.readyState]. *)
Inductive ReadyState : Type := CONNECTING | OPEN | CLOSING | CLOSED.

Definition ready_eqb (a b : ReadyState) : bool :=
  match a, b with
  | CONNECTING, CONNECTING | OPEN, OPEN | CLOSING, CLOSING | CLOSED, CLOSED => true
  | _, _ => false
  end.

(** A message of the server, as [ChatMessages] shows it. *)
Record Message : Type := mkMessage { m_id : Z; m_username : string; m_text : string }.

(** The object [send] stringifies (lines 59-62). *)
Record Outgoing : Type := mkOutgoing { o_username : string; o_text : string }.

(** A WebSocket: its [readyState] and the frames [ws.send] wrote. *)
Record Socket : Type := mkSocket { readyState : ReadyState; sent : list Outgoing }.

Record ChatState : Type := mkChat {
  ws : option nat;
  sockets : list Socket;
  messages : list Message;
  username : string;
  connected : bool;
  msgValue : string;
  nameValue : string
}.

(** [sockets[i]] and an update of it. *)
Definition socket_at (i : nat) (s : ChatState) : option Socket := nth_error (sockets s) i.

Fixpoint update_nth {A} (i : nat) (f : A -> A) (l : list A) : list A :=
  match l, i with
  | [], _ => []
  | x :: l', O => f x :: l'
  | x :: l', S i' => x :: update_nth i' f l'
  end.

Definition set_sockets (l : list Socket) (s : ChatState) : ChatState :=
  mkChat (ws s) l (messages s) (username s) (connected s) (msgValue s) (nameValue s).

Definition set_socket_state (i : nat) (r : ReadyState) (s : ChatState) : ChatState :=
  set_sockets (update_nth i (fun k => mkSocket r (sent k)) (sockets s)) s.

(** The [readyState] of [this.ws]. *)
Definition ws_state (s : ChatState) : option ReadyState :=
  match ws s with
  | Some i => option_map readyState (socket_at i s)
  | None => None
  end.

(** ** [ChatContainer] *)

(** [initWebsocket()] (lines 25-33): nothing while [this.ws] is open;
    otherwise a new socket, connecting, becomes [this.ws]. *)
Definition initWebsocket (s : ChatState) : ChatState :=
  match ws_state s with
  | Some OPEN => s
  | _ =>
      mkChat (Some (length (sockets s))) (sockets s ++ [mkSocket CONNECTING []]) (messages s)
             (username s) (connected s) (msgValue s) (nameValue s)
  end.

(** [reconnect] (lines 54-56), the handler of the Reconnect button. *)
Definition reconnect (s : ChatState) : ChatState := initWebsocket s.

(** [onWebsocketOpen] (lines 35-40). *)
Definition onWebsocketOpen (s : ChatState) : ChatState :=
  mkChat (ws s) (sockets s) [] (username s) true (msgValue s) (nameValue s).

(** [onWebsocketMessage] (lines 42-46): the newest message first. *)
Definition onWebsocketMessage (m : Message) (s : ChatState) : ChatState :=
  mkChat (ws s) (sockets s) ([m] ++ messages s) (username s) (connected s) (msgValue s) (nameValue s).

(** [onWebsocketClose] (lines 48-52). *)
Definition onWebsocketClose (s : ChatState) : ChatState :=
  mkChat (ws s) (sockets s) (messages s) (username s) false (msgValue s) (nameValue s).

(** [send(message_text)] (lines 58-67): written to [this.ws] only when it
    is open, dropped otherwise. *)
Definition send (text : string) (s : ChatState) : ChatState :=
  let message := mkOutgoing (username s) text in
  match ws s, ws_state s with
  | Some i, Some OPEN =>
      set_sockets (update_nth i (fun k => mkSocket (readyState k) (sent k ++ [message])) (sockets s)) s
  | _, _ => s
  end.

(** [setUsername(username)] (lines 69-73). *)
Definition setUsername (name : string) (s : ChatState) : ChatState :=
  mkChat (ws s) (sockets s) (messages s) name (connected s) (msgValue s) (nameValue s).

(** ** The rendered components *)

(** What [Chat.render] shows (Chat.js lines 21-38): [ChatDisconnected]
    while not connected, else [ChatMessageForm] once a username is set
    (a non-empty string is truthy) and [ChatUsernameForm] before. *)
Inductive View : Type := Disconnected | MessageForm | UsernameForm.

Definition render (s : ChatState) : View :=
  if negb (connected s) then Disconnected
  else if String.eqb (username s) "" then UsernameForm else MessageForm.

Definition view_eqb (a b : View) : bool :=
  match a, b with
  | Disconnected, Disconnected | MessageForm, MessageForm | UsernameForm, UsernameForm => true
  | _, _ => false
  end.

(** The lines [ChatMessages] renders (ChatMessages.js lines 13-18). *)
Definition rendered_messages (s : ChatState) : list (string * string) :=
  map (fun m => (m_username m, m_text m)) (messages s).

Definition set_values (mv nv : string) (s : ChatState) : ChatState :=
  mkChat (ws s) (sockets s) (messages s) (username s) (connected s) mv nv.

(** React's reconciliation: when [Chat] switches views the forms it now
    shows are mounted anew, with [value: ''] (ChatMessageForm.js lines
    11-16, ChatUsernameForm.js lines 9-14). *)
Definition rerender (old new : ChatState) : ChatState :=
  if view_eqb (render old) (render new) then new else set_values "" "" new.

(** The forms' [onChange] (ChatMessageForm.js lines 18-22,
    ChatUsernameForm.js lines 16-20): the input's value. *)
Definition onChangeMessage (v : string) (s : ChatState) : ChatState := set_values v (nameValue s) s.

Definition onChangeName (v : string) (s : ChatState) : ChatState := set_values (msgValue s) v s.

(** [ChatMessageForm.onSubmit] (lines 24-33): a message that is not blank
    after [trim] is handed to [send] and the input cleared. *)
Definition submitMessage (s : ChatState) : ChatState :=
  let message := trim (msgValue s) in
  if negb (String.eqb message "") then set_values "" (nameValue s) (send message s) else s.

(** [ChatUsernameForm.onSubmit] (lines 22-28): a name that is not blank
    after [trim] is stored; the input keeps its value. *)
Definition submitUsername (s : ChatState) : ChatState :=
  let name := trim (nameValue s) in
  if negb (String.eqb name "") then setUsername name s else s.

(** ** Events *)

Inductive ChatEvent : Type :=
| WsOpen (i : nat)
| WsMessage (i : nat) (m : Message)
| WsClosing (i : nat)
| WsClose (i : nat)
| Reconnect
| TypeMessage (v : string)
| SubmitMessage
| TypeName (v : string)
| SubmitName.

(** When the browser can deliver an event: the socket's state for the
    socket events, the view that shows the control for the user's. *)
Definition enabled (e : ChatEvent) (s : ChatState) : bool :=
  let st i := option_map readyState (socket_at i s) in
  match e with
  | WsOpen i => match st i with Some CONNECTING => true | _ => false end
  | WsMessage i _ | WsClosing i => match st i with Some OPEN => true | _ => false end
  | WsClose i => match st i with Some CLOSED | None => false | _ => true end
  | Reconnect => view_eqb (render s) Disconnected
  | TypeMessage _ | SubmitMessage => view_eqb (render s) MessageForm
  | TypeName _ | SubmitName => view_eqb (render s) UsernameForm
  end.

(** The handler an event runs, then React's re-render. *)
Definition handle (e : ChatEvent) (s : ChatState) : ChatState :=
  match e with
  | WsOpen i => onWebsocketOpen (set_socket_state i OPEN s)
  | WsMessage _ m => onWebsocketMessage m s
  | WsClosing i => set_socket_state i CLOSING s
  | WsClose i => onWebsocketClose (set_socket_state i CLOSED s)
  | Reconnect => reconnect s
  | TypeMessage v => onChangeMessage v s
  | SubmitMessage => submitMessage s
  | TypeName v => onChangeName v s
  | SubmitName => submitUsername s
  end.

Definition chat_step (e : ChatEvent) (s : ChatState) : ChatState := rerender s (handle e s).

(** The container after its constructor (lines 8-15) and
    [componentDidMount] (lines 17-19). *)
Definition chat_initial : ChatState := initWebsocket (mkChat None [] [] "" false "" "").

(** A run of events, each delivered when enabled. *)
Fixpoint run_chat (es : list ChatEvent) (s : ChatState) : option ChatState :=
  match es with
  | [] => Some s
  | e :: es => if enabled e s then run_chat es (chat_step e s) else None
  end.

Inductive chat_reachable : ChatState -> Prop :=
| Chat_init : chat_reachable chat_initial
| Chat_step e s : chat_reachable s -> enabled e s = true -> chat_reachable (chat_step e s).

(** ** [trim] *)

(** A list [drop_ws] leaves alone: empty, or not starting with blank. *)
Definition starts_ok (l : list ascii) : bool :=
  match l with [] => true | c :: _ => negb (is_ws c) end.

Lemma drop_ws_starts_ok l : starts_ok (drop_ws l) = true.
Proof. induction l as [|c l IH]; simpl; [reflexivity|]. destruct (is_ws c) eqn:W; simpl; rewrite ?W; auto. Qed.

Lemma drop_ws_fixed l : starts_ok l = true -> drop_ws l = l.
Proof. destruct l as [|c l]; simpl; [reflexivity|]. destruct (is_ws c); [discriminate|reflexivity]. Qed.

Lemma drop_ws_split l : exists p, l = p ++ drop_ws l.
Proof.
  induction l as [|c l [p IH]]; simpl; [exists []; reflexivity|].
  destruct (is_ws c); [exists (c :: p); simpl; congruence|exists []; reflexivity].
Qed.

Lemma starts_ok_app_l a b : starts_ok (a ++ b) = true -> starts_ok a = true.
Proof. destruct a; simpl; auto. Qed.

(** Trimming the end keeps a clean start. *)
Lemma starts_ok_trim_end d :
  starts_ok d = true -> starts_ok (rev (drop_ws (rev d))) = true.
Proof.
  intro D. destruct (drop_ws_split (rev d)) as [p E].
  apply (f_equal (@rev ascii)) in E. rewrite rev_involutive, rev_app_distr in E.
  rewrite E in D. exact (starts_ok_app_l _ _ D).
Qed.

Lemma trim_idempotent s : trim (trim s) = trim s.
Proof.
  unfold trim. rewrite list_ascii_of_string_of_list_ascii.
  set (d := drop_ws (list_ascii_of_string s)).
  assert (Ok : starts_ok (rev (drop_ws (rev d))) = true)
    by (apply starts_ok_trim_end, drop_ws_starts_ok).
  rewrite (drop_ws_fixed _ Ok), rev_involutive.
  rewrite (drop_ws_fixed (drop_ws (rev d))) by apply drop_ws_starts_ok.
  reflexivity.
Qed.

(** ** The steps *)

(** [case_if] splits on the first [if] of the goal. *)
Ltac case_if := cbv zeta; match goal with |- context [if ?b then _ else _] => destruct b end.

Lemma view_eqb_refl v : view_eqb v v = true.
Proof. destruct v; reflexivity. Qed.

Lemma view_eqb_eq a b : view_eqb a b = true -> a = b.
Proof. destruct a, b; simpl; congruence. Qed.

(** A handler that leaves [connected] and [username] leaves the view, so
    React keeps the forms. *)
Lemma rerender_same old new :
  connected new = connected old -> username new = username old -> rerender old new = new.
Proof. intros C U. unfold rerender, render. rewrite C, U, view_eqb_refl. reflexivity. Qed.

Lemma rerender_fields old new :
  ws (rerender old new) = ws new /\ sockets (rerender old new) = sockets new /\
  messages (rerender old new) = messages new /\ username (rerender old new) = username new /\
  connected (rerender old new) = connected new.
Proof. unfold rerender. destruct (view_eqb _ _); repeat split. Qed.

Lemma send_fields m s :
  ws (send m s) = ws s /\ username (send m s) = username s /\ connected (send m s) = connected s /\
  messages (send m s) = messages s /\ msgValue (send m s) = msgValue s /\ nameValue (send m s) = nameValue s.
Proof. unfold send. destruct (ws s) eqn:W, (ws_state s) as [[]|]; cbn; rewrite ?W; splits; reflexivity. Qed.

(** [send] writes nothing when [this.ws] is not open. *)
Lemma send_closed m s : ws_state s <> Some OPEN -> send m s = s.
Proof. unfold send. destruct (ws s), (ws_state s) as [[]|]; congruence. Qed.

Lemma nth_error_update_nth {A} (f : A -> A) l i j :
  nth_error (update_nth i f l) j = if Nat.eqb i j then option_map f (nth_error l j) else nth_error l j.
Proof.
  revert i j; induction l as [|x l IH]; intros [|i] [|j]; simpl; auto.
  - destruct (Nat.eqb i j); reflexivity.
Qed.

(** The state of socket [i]. *)
Definition state_at (i : nat) (s : ChatState) : option ReadyState := option_map readyState (socket_at i s).

Lemma state_at_set i j r s :
  state_at j (set_socket_state i r s) = if Nat.eqb i j then option_map (fun _ => r) (state_at j s) else state_at j s.
Proof.
  unfold state_at, socket_at, set_socket_state, set_sockets; simpl.
  rewrite nth_error_update_nth. destruct (Nat.eqb i j), (nth_error (sockets s) j); reflexivity.
Qed.

Lemma state_at_send i m s : state_at i (send m s) = state_at i s.
Proof.
  unfold send. destruct (ws s) as [k|], (ws_state s) as [[]|]; try reflexivity.
  unfold state_at, socket_at, set_sockets; simpl. rewrite nth_error_update_nth.
  destruct (Nat.eqb k i), (nth_error (sockets s) i); reflexivity.
Qed.

Lemma state_at_init i s : state_at i s <> None -> state_at i (initWebsocket s) = state_at i s.
Proof.
  unfold initWebsocket. destruct (ws_state s) as [[]|]; try reflexivity;
  unfold state_at, socket_at; simpl; intro H;
  rewrite nth_error_app1; auto; apply nth_error_Some; intro E; apply H; rewrite E; reflexivity.
Qed.

Lemma state_at_sockets i a b : sockets a = sockets b -> state_at i a = state_at i b.
Proof. unfold state_at, socket_at. intros ->. reflexivity. Qed.

Lemma state_at_rerender i old new : state_at i (rerender old new) = state_at i new.
Proof. apply state_at_sockets, rerender_fields. Qed.

Lemma username_step e s :
  username (chat_step e s) = match e with SubmitName => username (submitUsername s) | _ => username s end.
Proof.
  unfold chat_step. rewrite (proj1 (proj2 (proj2 (proj2 (rerender_fields _ _))))).
  destruct e; try reflexivity; unfold handle.
  - unfold reconnect, initWebsocket. destruct (ws_state s) as [[]|]; reflexivity.
  - unfold submitMessage. case_if; [apply send_fields|reflexivity].
Qed.

Lemma connected_step e s :
  connected (chat_step e s) =
    match e with WsOpen _ => true | WsClose _ => false | _ => connected s end.
Proof.
  unfold chat_step. rewrite (proj2 (proj2 (proj2 (proj2 (rerender_fields _ _))))).
  destruct e; try reflexivity; unfold handle.
  - unfold reconnect, initWebsocket. destruct (ws_state s) as [[]|]; reflexivity.
  - unfold submitMessage. case_if; [apply send_fields|reflexivity].
  - unfold submitUsername. case_if; reflexivity.
Qed.

(** What an event does to the state of socket [j]. *)
Lemma state_at_step e s j :
  state_at j (chat_step e s) =
    match e with
    | WsOpen i => if Nat.eqb i j then option_map (fun _ => OPEN) (state_at j s) else state_at j s
    | WsClosing i => if Nat.eqb i j then option_map (fun _ => CLOSING) (state_at j s) else state_at j s
    | WsClose i => if Nat.eqb i j then option_map (fun _ => CLOSED) (state_at j s) else state_at j s
    | Reconnect => state_at j (initWebsocket s)
    | _ => state_at j s
    end.
Proof.
  unfold chat_step. rewrite state_at_rerender.
  destruct e; unfold handle; try apply state_at_set; try reflexivity.
  all: unfold submitMessage, submitUsername; case_if; try apply state_at_send; reflexivity.
Qed.

Lemma run_chat_reachable es s s' :
  chat_reachable s -> run_chat es s = Some s' -> chat_reachable s'.
Proof.
  revert s; induction es as [|e es IH]; simpl; intros s R H; [congruence|].
  destruct (enabled e s) eqn:E; [|discriminate]. exact (IH _ (Chat_step _ _ R E) H).
Qed.

(** The state a run of events from the mounted container reaches. *)
Definition after (es : list ChatEvent) : ChatState :=
  match run_chat es chat_initial with Some s => s | None => chat_initial end.

Lemma after_reachable es : run_chat es chat_initial <> None -> chat_reachable (after es).
Proof.
  unfold after. destruct (run_chat es chat_initial) eqn:R; [|congruence].
  intros _. exact (run_chat_reachable _ _ _ Chat_init R).
Qed.

Definition live (r : option ReadyState) : Prop := r = Some OPEN \/ r = Some CLOSING.

(** C29. Connected means a live socket: in every state the chat reaches,
    while [connected] is true some socket the container created is open
    or closing.  (Which socket is not said: it need not be [this.ws].) *)
Theorem chat_connected_live s :
  chat_reachable s -> connected s = true -> exists i, live (state_at i s).
Proof.
  induction 1 as [|e s R IH E]; [discriminate|].
  rewrite connected_step. intro C.
  destruct e as [i|i m|i|i| |v| |v|]; try discriminate C.
  { exists i. rewrite state_at_step, Nat.eqb_refl.
    unfold enabled in E; fold (state_at i s) in E.
    destruct (state_at i s) as [[]|]; try discriminate E. left; reflexivity. }
  all: destruct (IH C) as [j L]; exists j; rewrite state_at_step; try exact L.
  - destruct (Nat.eqb i j); [|exact L].
    destruct L as [-> | ->]; right; reflexivity.
  - rewrite state_at_init; [exact L|]. destruct L as [-> | ->]; discriminate.
Qed.

(** C32. The username the container stores is trimmed: in every state the
    chat reaches, a username that is set is its own [trim], since
    [ChatUsernameForm] trims before it calls [setUsername]. *)
Theorem chat_username_trimmed s :
  chat_reachable s -> username s <> ""%string -> trim (username s) = username s.
Proof.
  induction 1 as [|e s R IH E]; [intro N; exfalso; exact (N eq_refl)|].
  rewrite username_step. destruct e; try exact IH.
  unfold submitUsername. cbv zeta.
  destruct (negb (String.eqb (trim (nameValue s)) "")); [|exact IH].
  intros _. apply trim_idempotent.
Qed.

(** C30. A stale socket's close strands the chat: Reconnect does nothing
    while [this.ws] is open, and the chat reaches a state that shows
    [ChatDisconnected] over an open [this.ws] (a Reconnect while the first
    socket was connecting opened a second one; the first then closed). *)
Theorem chat_stale_close_stuck :
  (forall s, ws_state s = Some OPEN -> chat_step Reconnect s = s) /\
  exists s, chat_reachable s /\ render s = Disconnected /\ ws_state s = Some OPEN.
Proof.
  split.
  - intros s O. unfold chat_step, handle, reconnect, initWebsocket. rewrite O.
    apply rerender_same; reflexivity.
  - exists (after [Reconnect; WsOpen 0; WsOpen 1; WsClose 0]).
    split; [apply after_reachable; vm_compute; discriminate|].
    split; vm_compute; reflexivity.
Qed.

(** C31. A message submitted while [this.ws] is not open is lost: the form
    clears its input, [send] writes to no socket, and nothing else of the
    state changes. *)
Theorem submitMessage_dropped s :
  ws_state s <> Some OPEN -> trim (msgValue s) <> ""%string ->
  chat_step SubmitMessage s = set_values "" (nameValue s) s.
Proof.
  intros O T. unfold chat_step, handle, submitMessage. cbv zeta.
  apply String.eqb_neq in T. rewrite T, send_closed by exact O.
  apply rerender_same; reflexivity.
Qed.

End Chat.

(** Witnesses, on the state reached by mounting, one Reconnect while the
    first socket connects, the first socket opening and a user "ann"
    typing " hi ": [this.ws] is the second socket, still connecting. *)
Definition chat_demo : Chat.ChatState :=
  Chat.after [Chat.Reconnect; Chat.WsOpen 0; Chat.TypeName "ann"; Chat.SubmitName; Chat.TypeMessage " hi "].

Lemma chat_demo_reachable : Chat.chat_reachable chat_demo.
Proof. apply Chat.after_reachable. vm_compute. discriminate. Qed.

Lemma chat_connected_live_witness :
  Chat.connected chat_demo = true /\ exists i, Chat.live (Chat.state_at i chat_demo).
Proof. split; [reflexivity|]. apply (Chat.chat_connected_live chat_demo chat_demo_reachable). reflexivity. Defined.

Lemma chat_username_trimmed_witness :
  Chat.username chat_demo = "ann"%string /\ Chat.trim (Chat.username chat_demo) = Chat.username chat_demo.
Proof.
  split; [vm_compute; reflexivity|].
  apply (Chat.chat_username_trimmed chat_demo chat_demo_reachable). vm_compute. discriminate.
Defined.

Lemma chat_stale_close_stuck_witness :
  Chat.chat_step Chat.Reconnect (Chat.after [Chat.Reconnect; Chat.WsOpen 0; Chat.WsOpen 1; Chat.WsClose 0])
  = Chat.after [Chat.Reconnect; Chat.WsOpen 0; Chat.WsOpen 1; Chat.WsClose 0].
Proof. apply (proj1 Chat.chat_stale_close_stuck). vm_compute. reflexivity. Defined.

Lemma submitMessage_dropped_witness :
  Chat.render chat_demo = Chat.MessageForm /\
  Chat.chat_step Chat.SubmitMessage chat_demo = Chat.set_values "" (Chat.nameValue chat_demo) chat_demo.
Proof.
  split; [vm_compute; reflexivity|].
  apply Chat.submitMessage_dropped; vm_compute; discriminate.
Defined.
